(** * LMCache: chunked cache engine, engine registry and separator handling

    A shallow embedding of [lmcache/cache_engine.py] and of the parts of
    the blend retriever exercised by [tests/test_blend.py], together with
    the properties of the specification that are stated about them.

    Conventions.
    - Python exceptions are values of [exn]; fallible pure code lives in
      [result], methods of the engine in the state-and-error monad [M],
      where an exception keeps the state reached when it was raised.
    - A torch tensor is a shape and its elements in row-major order.
      Elements of KV tensors are only moved, never computed on; they are
      kept as integers (their bit patterns).
    - Lengths, indices and token counters are natural numbers, the hit
      rate an exact rational. *)

From Stdlib Require Import ZArith QArith Qcanon Lia.
From Stdlib.Strings Require Import Byte Ascii String.
From stdpp Require Import gmap strings list fin_maps.

Local Open Scope nat_scope.

(** ** Exceptions and fallible code *)

Inductive exn : Type :=
| AssertionError (msg : string)
| ValueError (msg : string)
| IndexError
| RuntimeError
| KeyError
| ZeroDivisionError
| TypeError.

Inductive result (A : Type) : Type :=
| Ok (a : A)
| Raise (e : exn).
Arguments Ok {A} a.
Arguments Raise {A} e.

Definition rbind {A B} (r : result A) (k : A -> result B) : result B :=
  match r with
  | Ok a => k a
  | Raise e => Raise e
  end.

Notation "x <- r ;; k" := (rbind r (fun x => k))
  (at level 20, r at level 99, k at level 200, only parsing).

(** The first element of a Python sequence, [xs[0]]. *)
Definition first_item {A} (xs : list A) : result A :=
  match xs with
  | x :: _ => Ok x
  | [] => Raise IndexError
  end.

(** ** Tensors *)

Record Tensor (A : Type) : Type := mkTensor {
  shape : list nat;
  tdata : list A
}.
Arguments mkTensor {A} shape tdata.
Arguments shape {A} t.
Arguments tdata {A} t.

Definition prod_list (ns : list nat) : nat := foldr Nat.mul 1 ns.
Arguments prod_list : simpl never.

Definition numel {A} (t : Tensor A) : nat := prod_list (shape t).

Definition rank {A} (t : Tensor A) : nat := length (shape t).

(** A tensor is well formed when it has as many elements as its shape says. *)
Definition tensor_wf {A} (t : Tensor A) : Prop := length (tdata t) = numel t.

(** A one-dimensional tensor made of the items of a list. *)
Definition tensor1d {A} (l : list A) : Tensor A := mkTensor [length l] l.

(** The [i]-th block of [n] consecutive elements. *)
Definition block {A} (n i : nat) (l : list A) : list A := take n (drop (i * n) l).
Arguments block : simpl never.

(** [torch.stack(ts)] along a new leading axis. *)
Definition stack {A} (ts : list (Tensor A)) : result (Tensor A) :=
  match ts with
  | [] => Raise RuntimeError
  | t :: rest =>
      if forallb (fun u => bool_decide (shape u = shape t)) rest
      then Ok (mkTensor (length ts :: shape t) (concat (map tdata ts)))
      else Raise RuntimeError
  end.

(** [t.permute([1, 0, 2, 3, 4])]: the two leading axes change places. *)
Definition permute_10234 {A} (t : Tensor A) : result (Tensor A) :=
  match shape t with
  | [a; b; c; d; e] =>
      let r := c * d * e in
      Ok (mkTensor [b; a; c; d; e]
            (concat (map (fun j =>
               concat (map (fun i => block r (i * b + j) (tdata t)) (seq 0 a)))
               (seq 0 b))))
  | _ => Raise RuntimeError
  end.

(** [torch.unbind(t, dim=0)]; a tensor without axes has no axis 0, which
    torch reports as an [IndexError]. *)
Definition unbind0 {A} (t : Tensor A) : result (list (Tensor A)) :=
  match shape t with
  | [] => Raise IndexError
  | n :: s =>
      Ok (map (fun i => mkTensor s (block (prod_list s) i (tdata t))) (seq 0 n))
  end.

(** [t[i]] for a non-negative [i]. *)
Definition index0 {A} (t : Tensor A) (i : nat) : result (Tensor A) :=
  match shape t with
  | [] => Raise IndexError
  | n :: s =>
      if i <? n then Ok (mkTensor s (block (prod_list s) i (tdata t)))
      else Raise IndexError
  end.

(** [t.shape[k]]. *)
Definition shape_at {A} (t : Tensor A) (k : nat) : result nat :=
  match shape t !! k with
  | Some n => Ok n
  | None => Raise IndexError
  end.

(** The elements at positions [start, start + len) of axis [k], the
    other axes whole.  [n] is the size of axis [k]. *)
Definition narrow_data {A} (k start len : nat) (sh : list nat) (l : list A)
  : list A :=
  let outer := prod_list (take k sh) in
  let n := default 0 (sh !! k) in
  let inner := prod_list (drop (S k) sh) in
  concat (map (fun o => take (len * inner) (drop ((o * n + start) * inner) l))
              (seq 0 outer)).

Definition narrow {A} (k start len : nat) (t : Tensor A) : Tensor A :=
  mkTensor (<[k := len]> (shape t)) (narrow_data k start len (shape t) (tdata t)).

(** [t[:, ..., start:, ...]] with the slice on axis [k]; a start beyond
    the end of the axis is clamped, as Python slices are. *)
Definition slice_from {A} (k start : nat) (t : Tensor A) : result (Tensor A) :=
  match shape t !! k with
  | None => Raise IndexError
  | Some n => let s := Nat.min start n in Ok (narrow k s (n - s) t)
  end.

Definition div_up (n c : nat) : nat := (n + c - 1) / c.

(** [torch.split(t, c, dim=k)]: pieces of [c] along axis [k], the last
    one possibly shorter, and a single empty piece for an empty axis. *)
Definition split {A} (c k : nat) (t : Tensor A) : result (list (Tensor A)) :=
  match shape t !! k with
  | None => Raise IndexError
  | Some n =>
      if c =? 0 then (if n =? 0 then Ok [t] else Raise RuntimeError)
      else
        Ok (map (fun j => narrow k (j * c) (Nat.min c (n - j * c)) t)
                (seq 0 (Nat.max (div_up n c) 1)))
  end.

(** Two shapes agree everywhere but on axis [k]. *)
Definition same_shape_but (k : nat) (s1 s2 : list nat) : bool :=
  bool_decide (<[k := 0]> s1 = <[k := 0]> s2).

(** [torch.cat(ts, dim=k)].  One-dimensional empty tensors are skipped,
    which torch keeps doing for old code. *)
Definition cat {A} (ts : list (Tensor A)) (k : nat) : result (Tensor A) :=
  match ts with
  | [] => Raise RuntimeError
  | t0 :: _ =>
      match filter (fun t => shape t ≠ [0]) ts with
      | [] => Ok t0
      | t :: rest =>
          match shape t !! k with
          | None => Raise IndexError
          | Some _ =>
              if forallb (fun u => same_shape_but k (shape u) (shape t)) rest
              then
                let us := t :: rest in
                let outer := prod_list (take k (shape t)) in
                let inner := prod_list (drop (S k) (shape t)) in
                let size_k (u : Tensor A) := default 0 (shape u !! k) in
                Ok (mkTensor
                      (<[k := sum_list (map size_k us)]> (shape t))
                      (concat (map (fun o =>
                         concat (map (fun u =>
                           block (size_k u * inner) o (tdata u)) us))
                         (seq 0 outer))))
              else Raise RuntimeError
          end
      end
  end.

(** ** Token hashing *)

(** [hashlib.sha256] is a library function: the digest is a parameter of
    the development. *)
Class Sha256 := sha256_digest : list byte -> list byte.

Definition byte_of_Z (z : Z) : byte :=
  default x00 (Byte.of_N (Z.to_N (z mod 256))).

(** One token of an int64 tensor as [tobytes()] lays it out: eight bytes,
    least significant first, negative tokens in two's complement. *)
Definition int64_le (z : Z) : list byte :=
  map (fun i => byte_of_Z (Z.shiftr (z mod 2 ^ 64) (8 * Z.of_nat i))) (seq 0 8).

Definition tobytes (tokens : list Z) : list byte := concat (map int64_le tokens).

Definition hex_digit (n : N) : ascii :=
  default "0"%char (String.get (N.to_nat n) "0123456789abcdef").

Definition hex_of_byte (b : byte) : string :=
  let n := Byte.to_N b in
  String (hex_digit (n / 16)) (String (hex_digit (n mod 16)) EmptyString).

(** [.hexdigest()] *)
Definition hexdigest (digest : list byte) : string :=
  foldr (fun b s => hex_of_byte b +:+ s) EmptyString digest.

(** [s.encode("ascii")]; the strings encoded here are hex digests. *)
Definition encode_ascii (s : string) : list byte := list_byte_of_string s.

(** ** Keys, metadata and configuration *)

Record CacheEngineKey : Type := mkKey {
  key_fmt : string;
  key_model_name : string;
  key_world_size : Z;
  key_worker_id : Z;
  key_chunk_hash : string
}.

#[global] Instance CacheEngineKey_eq_dec : EqDecision CacheEngineKey.
Proof. solve_decision. Defined.

#[global] Instance CacheEngineKey_countable : Countable CacheEngineKey.
Proof.
  refine (inj_countable'
    (fun k => (key_fmt k, key_model_name k, key_world_size k,
               key_worker_id k, key_chunk_hash k))
    (fun '(f, m, w, i, h) => mkKey f m w i h) _).
  intros []; reflexivity.
Defined.

(** The metadata descriptor, with the fields the engine, the tests and
    the usage tracker read. *)
Record LMCacheEngineMetadata : Type := mkMetadata {
  model_name : string;
  world_size : Z;
  worker_id : Z;
  fmt : string;
  kv_dtype : string;
  kv_shape : list nat
}.

(** The engine configuration, with the fields the engine, the tests and
    the usage tracker read.  The chunk size is a positive integer. *)
Record LMCacheEngineConfig : Type := mkConfig {
  cfg_chunk_size : positive;
  cfg_local_device : option string;
  cfg_max_local_cache_size : nat;
  cfg_remote_url : option string;
  cfg_remote_serde : option string;
  cfg_pipelined_backend : bool;
  cfg_save_decode_cache : bool;
  cfg_enable_blending : bool;
  cfg_blend_recompute_ratio : Qc;
  cfg_blend_min_tokens : nat
}.

(** Dataclass equality is field by field. *)
#[global] Instance LMCacheEngineMetadata_eq_dec : EqDecision LMCacheEngineMetadata.
Proof. solve_decision. Defined.

#[global] Instance LMCacheEngineConfig_eq_dec : EqDecision LMCacheEngineConfig.
Proof. solve_decision. Defined.

(** ** The storage backend *)

Abbreviation Blob := (Tensor Z) (only parsing).

(** Modelled from the spec: the storage backend ([lmcache.storage_backend]
    is not part of the sources).  Its contract is [contains(key) -> bool],
    [batchedPut(pairs, blocking) -> count], [batchedGet(keys)] giving one
    blob or absent per key in the order of the keys, and [close()].  It is
    a dictionary from keys to blobs with a flag set by [close]. *)
Record StorageBackend : Type := mkBackend {
  kv_store : gmap CacheEngineKey Blob;
  closed : bool
}.

(** Modelled from the spec: what [CreateStorageBackend] returns, an open
    backend holding nothing. *)
Definition CreateStorageBackend (config : LMCacheEngineConfig)
    (metadata : LMCacheEngineMetadata) : StorageBackend :=
  mkBackend ∅ false.

(** Modelled from the spec: [contains(key)] of the storage backend. *)
Definition contains (b : StorageBackend) (key : CacheEngineKey) : bool :=
  bool_decide (is_Some (kv_store b !! key)).

(** Modelled from the spec: [batchedGet(keys)] of the storage backend. *)
Definition batched_get (b : StorageBackend) (keys : list CacheEngineKey)
  : list (option Blob) :=
  map (fun key => kv_store b !! key) keys.

(** Modelled from the spec: [batchedPut(pairs, blocking)] of the storage
    backend; the pairs are written in order and counted.  The backend
    it returns is the backend once the write has completed.  A blocking
    put has completed when it returns; a put that does not block may
    return earlier, so what is read from the backend right after a put
    is stated for blocking puts only. *)
Definition batched_put (b : StorageBackend)
    (pairs : list (CacheEngineKey * Blob)) (blocking : bool)
  : StorageBackend * nat :=
  (mkBackend (foldl (fun m kv => <[kv.1 := kv.2]> m) (kv_store b) pairs)
             (closed b),
   length pairs).

(** Modelled from the spec: [close()] of the storage backend. *)
Definition backend_close (b : StorageBackend) : StorageBackend :=
  mkBackend (kv_store b) true.

(** ** The engine *)

(** What the methods write through the logger, without the timings. *)
Inductive LogRecord : Type :=
| LogStored (n_chunks : nat)
| LogRetrievedNone
| LogConcatenated (n_chunks : nat)
| LogRetrieved (n_chunks retrieved_token_count : nat) (rate : Qc).

Record LMCacheEngine : Type := mkEngine {
  config : LMCacheEngineConfig;
  metadata : LMCacheEngineMetadata;
  chunk_size : positive;
  save_decode_cache : bool;
  miss_tokens_count : nat;
  hit_tokens_count : nat;
  hit_rate : Qc;
  engine_ : StorageBackend;
  logged : list LogRecord
}.

(** [Tracker.__init__(self, server_host, server_port, config, metadata,
    local_log)] of [lmcache/usage_tracker.py] has five parameters after
    [self], none with a default value. *)
Definition Tracker_params : list string :=
  ["server_host"; "server_port"; "config"; "metadata"; "local_log"].

(** A call [Tracker(...)] with [n_args] positional arguments.  Python
    binds the arguments before it runs the body of [__init__] and raises
    [TypeError] when a parameter is left without a value or an argument
    without a parameter.  The body writes messages and starts a thread;
    it keeps nothing that a method of the engine reads, and the engine
    never gets that far. *)
Definition Tracker_init (n_args : nat) : result unit :=
  if n_args =? length Tracker_params then Ok tt else Raise TypeError.

(** The fields [LMCacheEngine.__init__] sets before it turns to the
    tracker. *)
Definition LMCacheEngine_fields (config : LMCacheEngineConfig)
    (metadata : LMCacheEngineMetadata) : LMCacheEngine :=
  mkEngine config metadata (cfg_chunk_size config) (cfg_save_decode_cache config)
           0 0 0%Qc (CreateStorageBackend config metadata) [].

(** [LMCacheEngine.__init__(self, config, metadata, tracker=True)].  With
    [tracker] it ends with
    [Tracker('http://34.236.19.149:8080/endpoint', config, metadata, None)]:
    four arguments. *)
Definition LMCacheEngine_init (config : LMCacheEngineConfig)
    (metadata : LMCacheEngineMetadata) (tracker : bool) : result LMCacheEngine :=
  let self := LMCacheEngine_fields config metadata in
  if tracker then
    tracker_ <- Tracker_init 4;;
    Ok self
  else Ok self.

Definition set_backend (self : LMCacheEngine) (b : StorageBackend) : LMCacheEngine :=
  mkEngine (config self) (metadata self) (chunk_size self) (save_decode_cache self)
           (miss_tokens_count self) (hit_tokens_count self) (hit_rate self)
           b (logged self).

Definition set_miss_tokens_count (self : LMCacheEngine) (n : nat) : LMCacheEngine :=
  mkEngine (config self) (metadata self) (chunk_size self) (save_decode_cache self)
           n (hit_tokens_count self) (hit_rate self)
           (engine_ self) (logged self).

Definition set_hit_tokens_count (self : LMCacheEngine) (n : nat) : LMCacheEngine :=
  mkEngine (config self) (metadata self) (chunk_size self) (save_decode_cache self)
           (miss_tokens_count self) n (hit_rate self)
           (engine_ self) (logged self).

Definition set_hit_rate (self : LMCacheEngine) (q : Qc) : LMCacheEngine :=
  mkEngine (config self) (metadata self) (chunk_size self) (save_decode_cache self)
           (miss_tokens_count self) (hit_tokens_count self) q
           (engine_ self) (logged self).

Definition add_log (self : LMCacheEngine) (r : LogRecord) : LMCacheEngine :=
  mkEngine (config self) (metadata self) (chunk_size self) (save_decode_cache self)
           (miss_tokens_count self) (hit_tokens_count self) (hit_rate self)
           (engine_ self) (logged self ++ [r]).

(** Methods that change the engine or its backend. *)
Definition M (A : Type) : Type := LMCacheEngine -> result A * LMCacheEngine.

Definition ret {A} (a : A) : M A := fun self => (Ok a, self).

Definition raise {A} (e : exn) : M A := fun self => (Raise e, self).

Definition bind {A B} (m : M A) (k : A -> M B) : M B :=
  fun self =>
    match m self with
    | (Ok a, self') => k a self'
    | (Raise e, self') => (Raise e, self')
    end.

Definition lift {A} (r : result A) : M A := fun self => (r, self).

Definition get_self : M LMCacheEngine := fun self => (Ok self, self).

Definition modify (f : LMCacheEngine -> LMCacheEngine) : M unit :=
  fun self => (Ok tt, f self).

(** [assert cond, msg] *)
Definition assert (cond : bool) (msg : string) : M unit :=
  if cond then ret tt else raise (AssertionError msg).

Notation "x <~ m ;; k" := (bind m (fun x => k))
  (at level 20, m at level 99, k at level 200, only parsing).
Notation "'do' m ;; k" := (bind m (fun _ => k))
  (at level 20, m at level 99, k at level 200, only parsing).

(** A nested KV cache (one key and one value tensor per layer) or the
    stacked blob: [_num_tokens_in_kv] is called on both. *)
Abbreviation KVCache := (list (Tensor Z * Tensor Z)) (only parsing).

Inductive KVLike : Type :=
| KVTuple (kv : KVCache)
| KVBlob (blob : Tensor Z).

(** What [retrieve] hands back as KV: a tuple of layers (the empty tuple
    when nothing was retrieved) or one tensor. *)
Inductive RetKV : Type :=
| RetTuple (kv : KVCache)
| RetBlob (blob : Tensor Z).

(** [range(0, stop, step)] for a positive step. *)
Definition py_range (stop step : nat) : list nat :=
  map (fun j => j * step) (seq 0 (div_up stop step)).

(** [kv_tensors[0][0]] *)
Definition kv_item_0_0 (kv_tensors : KVLike) : result (Tensor Z) :=
  match kv_tensors with
  | KVTuple kv => layer <- first_item kv;; Ok layer.1
  | KVBlob blob => layer <- index0 blob 0;; index0 layer 0
  end.

Definition mapM {A B} (f : A -> result B) : list A -> result (list B) :=
  fix go (l : list A) : result (list B) :=
    match l with
    | [] => Ok []
    | x :: l' => y <- f x;; ys <- go l';; Ok (y :: ys)
    end.

(** [m[:n] = False] *)
Definition clear_before (n : nat) (m : list bool) : list bool :=
  replicate (Nat.min n (length m)) false ++ drop n m.

(** [m[n:] = False] *)
Definition clear_from (n : nat) (m : list bool) : list bool :=
  take n m ++ replicate (length m - n) false.

(** [torch.sum(mask)] of a boolean mask. *)
Definition count_true (m : list bool) : nat := length (filter (fun b => b = true) m).

(** The chunk blobs returned by the backend up to the first absent one:
    the loop of [retrieve] that stops at [None]. *)
Fixpoint take_hits (it : list (option Blob)) : list Blob :=
  match it with
  | Some chunk :: rest => chunk :: take_hits rest
  | _ => []
  end.

Section Engine.
Context {sha : Sha256}.

Definition _make_key (self : LMCacheEngine) (chunk_hash : string) (fmt : string)
  : CacheEngineKey :=
  mkKey fmt (model_name (metadata self)) (world_size (metadata self))
        (worker_id (metadata self)) chunk_hash.

Definition _num_tokens_in_kv (kv_tensors : KVLike) (fmt : string) : result nat :=
  if decide (fmt = "huggingface") then
    t <- kv_item_0_0 kv_tensors;; shape_at t 1
  else if decide (fmt = "vllm") then
    t <- kv_item_0_0 kv_tensors;; shape_at t 0
  else Raise (ValueError ("Invalid format: " +:+ fmt)).

Definition _get_init_hash : string := EmptyString.

Definition _hash (tokens : list Z) (prefix_hash : string) : string :=
  hexdigest (sha256_digest (encode_ascii prefix_hash ++ tobytes tokens)).

Definition _chunk_tokens (self : LMCacheEngine) (tokens : list Z) : list (list Z) :=
  let c := Pos.to_nat (chunk_size self) in
  map (fun i => take c (drop i tokens)) (py_range (length tokens) c).

(** The loop of [_prefix_hash]: the running hash and the list built so far. *)
Fixpoint prefix_hash_loop (token_chunks : list (list Z))
    (prefix_hash : string) (prefix_hashes : list string) : list string :=
  match token_chunks with
  | [] => prefix_hashes
  | token_chunk :: rest =>
      let prefix_hash := _hash token_chunk prefix_hash in
      prefix_hash_loop rest prefix_hash (prefix_hashes ++ [prefix_hash])
  end.

Definition _prefix_hash (token_chunks : list (list Z)) (num_skip_chunk : nat)
  : list string :=
  drop num_skip_chunk (prefix_hash_loop token_chunks _get_init_hash []).

Definition _tuple_kv_to_blob (kv_tensors : KVCache) : result (Tensor Z) :=
  k_tensor_blob <- stack (map fst kv_tensors);;
  v_tensor_blob <- stack (map snd kv_tensors);;
  kv_tensors_flatten <- stack [k_tensor_blob; v_tensor_blob];;
  permute_10234 kv_tensors_flatten.

Definition _blob_to_tuple_kv (blob : Tensor Z) : result KVCache :=
  outer_unbound <- unbind0 blob;;
  mapM (fun inner_tensor =>
          k <- index0 inner_tensor 0;;
          v <- index0 inner_tensor 1;;
          Ok (k, v))
       outer_unbound.

Definition _slice_kv_at (self : LMCacheEngine) (start_idx : nat)
    (kv_tensors : Tensor Z) (fmt : string) : result (list (Tensor Z)) :=
  let c := Pos.to_nat (chunk_size self) in
  if decide (fmt = "vllm") then
    t <- slice_from 2 start_idx kv_tensors;; split c 2 t
  else if decide (fmt = "huggingface") then
    t <- slice_from 3 start_idx kv_tensors;; split c 3 t
  else Raise (ValueError ("Invalid format: " +:+ fmt)).

Definition _chunk_kv (self : LMCacheEngine) (kv_tensors : Tensor Z) (fmt : string)
  : result (list (Tensor Z)) :=
  _slice_kv_at self 0 kv_tensors fmt.

(** The scan of [_make_chunks_skip_existing] for the first chunk that
    the backend does not hold: its token index, if any, and the number
    of chunks passed. *)
Fixpoint first_missing (self : LMCacheEngine) (fmt : string)
    (pairs : list (string * nat)) (start_chunk_idx : nat) : option nat * nat :=
  match pairs with
  | [] => (None, start_chunk_idx)
  | (chunk_hash, idx) :: rest =>
      if negb (contains (engine_ self) (_make_key self chunk_hash fmt))
      then (Some idx, start_chunk_idx)
      else first_missing self fmt rest (S start_chunk_idx)
  end.

Definition _make_chunks_skip_existing (self : LMCacheEngine) (tokens : list Z)
    (kv_tensors : Tensor Z) (fmt : string) (num_skip_prefix_chunk : nat)
  : result (list (string * Tensor Z)) :=
  let c := Pos.to_nat (chunk_size self) in
  let chunk_hashes := _prefix_hash (_chunk_tokens self tokens) num_skip_prefix_chunk in
  num_tokens <- _num_tokens_in_kv (KVBlob kv_tensors) fmt;;
  match first_missing self fmt (zip chunk_hashes (py_range num_tokens c)) 0 with
  | (None, _) => Ok []
  | (Some start_token_idx, start_chunk_idx) =>
      chunk_kvs <- _slice_kv_at self start_token_idx kv_tensors fmt;;
      Ok (zip (drop start_chunk_idx chunk_hashes) chunk_kvs)
  end.

Definition _make_chunks (self : LMCacheEngine) (tokens : list Z)
    (kv_tensors : Tensor Z) (fmt : string) (num_skip_prefix_chunk : nat)
    (skip_existing : bool) : result (list (string * Tensor Z)) :=
  if skip_existing then
    _make_chunks_skip_existing self tokens kv_tensors fmt num_skip_prefix_chunk
  else
    if num_skip_prefix_chunk =? 0 then
      let hashes := _prefix_hash (_chunk_tokens self tokens) 0 in
      chunk_kvs <- _chunk_kv self kv_tensors fmt;;
      Ok (zip hashes chunk_kvs)
    else Raise (AssertionError EmptyString).

(** [len(t)] of a tensor with at least one axis. *)
Definition tlen {A} (t : Tensor A) : nat := default 0 (head (shape t)).

(** [store] has no return statement: its value is [None]; the count the
    backend reports goes to the log. *)
Definition store (tokens : Tensor Z) (kv_tensors_raw : KVCache)
    (kv_tensors_mask : option (Tensor bool)) (skip_existing blocking : bool)
  : M (option nat) :=
  self <~ get_self;;
  let fmt := fmt (metadata self) in
  let kv_tensors_mask :=
    match kv_tensors_mask with
    | Some m => m
    | None => mkTensor (shape tokens) (replicate (numel tokens) true)
    end in
  do assert (rank tokens =? 1) "Invalid shape of tokens";;
  do assert (rank kv_tensors_mask =? 1) "Invalid shape of mask";;
  do assert (tlen tokens =? tlen kv_tensors_mask)
         "token length does not match mask length";;
  let num_skip_tok := tlen kv_tensors_mask - count_true (tdata kv_tensors_mask) in
  let num_skip_chunk := num_skip_tok / Pos.to_nat (chunk_size self) in
  do assert (num_skip_tok =? num_skip_chunk * Pos.to_nat (chunk_size self))
         "Store KV mask should align to chunk size";;
  num_tokens <~ lift (_num_tokens_in_kv (KVTuple kv_tensors_raw) fmt);;
  do assert (tlen tokens =? num_tokens + num_skip_tok)
         "Number of tokens in the kv cache does not match the input tokens";;
  kv_tensors <~ lift (_tuple_kv_to_blob kv_tensors_raw);;
  chunk_hashes_and_kvs <~ lift (_make_chunks self (tdata tokens) kv_tensors fmt
                                             num_skip_chunk skip_existing);;
  let '(backend, n_chunks) :=
    batched_put (engine_ self)
      (map (fun hk => (_make_key self hk.1 fmt, hk.2)) chunk_hashes_and_kvs)
      blocking in
  do modify (fun self => set_backend self backend);;
  do modify (fun self => add_log self (LogStored n_chunks));;
  ret None.

(** [0 if len(ret) == 0 else ret[0][0].shape[dim]] and
    [0 if ret.numel() == 0 else ret.shape[dim + 2]] *)
Definition count_retrieved (kv : RetKV) (dim : nat) : result nat :=
  match kv with
  | RetTuple [] => Ok 0
  | RetTuple (layer :: _) => shape_at layer.1 dim
  | RetBlob blob => if numel blob =? 0 then Ok 0 else shape_at blob (dim + 2)
  end.

(** [retrieve]; [tokens] and [mask] are one-dimensional tensors, given by
    their items. *)
Definition retrieve (tokens : list Z) (mask : option (list bool))
    (return_tuple : bool) : M (RetKV * list bool) :=
  self <~ get_self;;
  let c := Pos.to_nat (chunk_size self) in
  let ret_mask := replicate (length tokens) true in
  let num_skip_tok :=
    match mask with
    | Some m => length m - count_true m
    | None => 0
    end in
  let num_skip_chunk :=
    match mask with
    | Some _ => num_skip_tok / c
    | None => 0
    end in
  let ret_mask := clear_before num_skip_tok ret_mask in
  let fmt := fmt (metadata self) in
  let chunk_hashes := _prefix_hash (_chunk_tokens self tokens) num_skip_chunk in
  let retrival_iterator :=
    batched_get (engine_ self)
      (map (fun chunk_hash => _make_key self chunk_hash fmt) chunk_hashes) in
  let retrieved_kv_chunks := take_hits retrival_iterator in
  dim <~ (if decide (fmt = "huggingface") then ret 1
          else if decide (fmt = "vllm") then ret 0
          else raise (ValueError ("Invalid format: " +:+ fmt)));;
  match retrieved_kv_chunks with
  | [] =>
      do modify (fun self => add_log self LogRetrievedNone);;
      do modify (fun self =>
        set_miss_tokens_count self (miss_tokens_count self + length tokens));;
      ret (RetTuple [], replicate (length ret_mask) false)
  | chunk0 :: rest =>
      let extra_token_len := num_skip_tok - num_skip_chunk * c in
      sliced <~ lift (_slice_kv_at self extra_token_len chunk0 fmt);;
      chunk0 <~ lift (first_item sliced);;
      let retrieved_kv_chunks := chunk0 :: rest in
      blob <~ lift (cat retrieved_kv_chunks (dim + 2));;
      kv <~ (if return_tuple then
               kv <~ lift (_blob_to_tuple_kv blob);;
               do modify (fun self =>
                 add_log self (LogConcatenated (length retrieved_kv_chunks)));;
               ret (RetTuple kv)
             else ret (RetBlob blob));;
      retrieved_token_count <~ lift (count_retrieved kv dim);;
      do modify (fun self =>
        set_hit_tokens_count self (hit_tokens_count self + retrieved_token_count));;
      self' <~ get_self;;
      do (if miss_tokens_count self' + hit_tokens_count self' =? 0
            then raise ZeroDivisionError
            else modify (fun self =>
              set_hit_rate self
                (Qc_of_Z (Z.of_nat (hit_tokens_count self)) /
                 Qc_of_Z (Z.of_nat (miss_tokens_count self + hit_tokens_count self)))%Qc));;
      self' <~ get_self;;
      do modify (fun self =>
        add_log self (LogRetrieved (length retrieved_kv_chunks)
                                   retrieved_token_count (hit_rate self')));;
      ret (kv, clear_from (num_skip_tok + retrieved_token_count) ret_mask)
  end.

Fixpoint lookup_loop (self : LMCacheEngine) (fmt : string)
    (chunk_hashes : list string) (total_token_cnt current_token_idx : nat) : nat :=
  match chunk_hashes with
  | [] => current_token_idx
  | chunk_hash :: rest =>
      if negb (contains (engine_ self) (_make_key self chunk_hash fmt))
      then current_token_idx
      else lookup_loop self fmt rest total_token_cnt
             (Nat.min (current_token_idx + Pos.to_nat (chunk_size self))
                      total_token_cnt)
  end.

(** [lookup] changes nothing: it is a function of the engine. *)
Definition lookup (self : LMCacheEngine) (tokens : list Z) : nat :=
  let fmt := fmt (metadata self) in
  let total_token_cnt := length tokens in
  let chunk_hashes := _prefix_hash (_chunk_tokens self tokens) 0 in
  lookup_loop self fmt chunk_hashes total_token_cnt 0.

Definition close : M unit :=
  modify (fun self => set_backend self (backend_close (engine_ self))).

End Engine.

(** ** The engine registry *)

(** [LMCacheEngineBuilder]: the three class-level dictionaries.  Engines
    are objects; [heap] holds them and the registry maps an instance id
    to the place of its engine, so that two lookups of one id give the
    same object. *)
Record LMCacheEngineBuilder : Type := mkBuilder {
  heap : list LMCacheEngine;
  _instances : gmap string nat;
  _cfgs : gmap string LMCacheEngineConfig;
  _metadatas : gmap string LMCacheEngineMetadata
}.

(** [d[key]] *)
Definition dict_item {V} (d : gmap string V) (key : string) : result V :=
  match d !! key with
  | Some v => Ok v
  | None => Raise KeyError
  end.

Definition get_or_create (instance_id : string) (config : LMCacheEngineConfig)
    (metadata : LMCacheEngineMetadata) (cls : LMCacheEngineBuilder)
  : result nat * LMCacheEngineBuilder :=
  match _instances cls !! instance_id with
  | None =>
      match LMCacheEngine_init config metadata true with
      | Raise e => (Raise e, cls)
      | Ok self =>
          let engine := length (heap cls) in
          (Ok engine,
           mkBuilder (heap cls ++ [self])
                     (<[instance_id := engine]> (_instances cls))
                     (<[instance_id := config]> (_cfgs cls))
                     (<[instance_id := metadata]> (_metadatas cls)))
      end
  | Some engine =>
      let mismatch :=
        c <- dict_item (_cfgs cls) instance_id;;
        if negb (bool_decide (c = config)) then Ok true
        else
          m <- dict_item (_metadatas cls) instance_id;;
          Ok (negb (bool_decide (m = metadata))) in
      match mismatch with
      | Raise e => (Raise e, cls)
      | Ok true =>
          (Raise (ValueError ("Instance " +:+ instance_id +:+
             " already exists with a different configuration or metadata.")),
           cls)
      | Ok false => (Ok engine, cls)
      end
  end.

(** [get]: the place of the engine, or [None]. *)
Definition get (instance_id : string) (cls : LMCacheEngineBuilder) : option nat :=
  _instances cls !! instance_id.

Definition destroy (instance_id : string) (cls : LMCacheEngineBuilder)
  : LMCacheEngineBuilder :=
  match _instances cls !! instance_id with
  | Some engine =>
      mkBuilder (alter (fun self => (close self).2) engine (heap cls))
                (delete instance_id (_instances cls))
                (delete instance_id (_cfgs cls))
                (delete instance_id (_metadatas cls))
  | None => cls
  end.

(** The three dictionaries have the same ids and every registered place
    holds an engine: true of the empty registry and kept by the three
    class methods. *)
Definition builder_wf (cls : LMCacheEngineBuilder) : Prop :=
  (forall id, is_Some (_instances cls !! id) <-> is_Some (_cfgs cls !! id)) /\
  (forall id, is_Some (_instances cls !! id) <-> is_Some (_metadatas cls !! id)) /\
  (forall id engine, _instances cls !! id = Some engine -> engine < length (heap cls)).

Definition empty_builder : LMCacheEngineBuilder := mkBuilder [] ∅ ∅ ∅.

(** ** Separators of a composite prompt *)

(** [tokens[i : i + len(spt)] == spt] read at the head of [tokens]. *)
Fixpoint starts_with (spt tokens : list Z) : bool :=
  match spt, tokens with
  | [], _ => true
  | s :: spt', t :: tokens' => bool_decide (s = t) && starts_with spt' tokens'
  | _ :: _, [] => false
  end.

(** Modelled from the spec: [SPTBlendRetriever.drop_spt_and_get_indices]
    ([lmcache.blend.retriever] is not part of the sources).  The prompt is
    scanned from the left; every occurrence of the separator is removed,
    and for each removed occurrence but one at the very end the index in
    the cleaned prompt where the next segment begins is recorded.
    [skip] counts the tokens of the current occurrence still to drop and
    [pos] is the length of the cleaned prompt so far. *)
Fixpoint scan_spt (spt tokens : list Z) (skip pos : nat) : list Z * list nat :=
  match tokens with
  | [] => ([], [])
  | t :: rest =>
      match skip with
      | S skip' => scan_spt spt rest skip' pos
      | 0 =>
          if starts_with spt tokens then
            let '(cleaned, indices) := scan_spt spt rest (length spt - 1) pos in
            (cleaned,
             if length spt <? length tokens then pos :: indices else indices)
          else
            let '(cleaned, indices) := scan_spt spt rest 0 (S pos) in
            (t :: cleaned, indices)
      end
  end.

(** Modelled from the spec: [drop_spt_and_get_indices] of the retriever,
    the scan started on the whole prompt. *)
Definition drop_spt_and_get_indices (spt full_prompt : list Z)
  : list Z * list nat :=
  scan_spt spt full_prompt 0 0.

(** [spt] occurs in [tokens] at position [i]. *)
Definition occurs_at (spt tokens : list Z) (i : nat) : Prop :=
  starts_with spt (drop i tokens) = true.

(** ** Notions used in the statements *)

(** A nested KV cache is well formed when it has at least one layer and
    all its key and value tensors are well-formed tensors of one and the
    same three-axis shape. *)
Definition kv_well_formed (sh : list nat) (kv : KVCache) : Prop :=
  kv <> [] /\ length sh = 3 /\
  Forall (fun layer =>
            (shape layer.1 = sh /\ tensor_wf layer.1) /\
            (shape layer.2 = sh /\ tensor_wf layer.2)) kv.

(** The storage backend with every blob emptied and the same keys. *)
Definition erase_blobs (b : StorageBackend) : StorageBackend :=
  mkBackend ((fun _ => mkTensor [] []) <$> kv_store b) (closed b).

(** The hash of the last of [token_chunks], chained from the empty root
    hash through all the chunks before it. *)
Definition chain_hash {sha : Sha256} (token_chunks : list (list Z)) : string :=
  foldl (fun prefix_hash token_chunk => _hash token_chunk prefix_hash)
        _get_init_hash token_chunks.

(** The keys [retrieve] and [lookup] ask the backend for. *)
Definition chunk_keys {sha : Sha256} (self : LMCacheEngine) (tokens : list Z)
    (num_skip_chunk : nat) : list CacheEngineKey :=
  map (fun chunk_hash => _make_key self chunk_hash (fmt (metadata self)))
      (_prefix_hash (_chunk_tokens self tokens) num_skip_chunk).

(** The two tensor layouts the engine knows. *)
Definition fmt_valid (fmt : string) : Prop := fmt = "vllm" \/ fmt = "huggingface".

(** The axis of a key or value tensor that counts tokens. *)
Definition token_axis (fmt : string) : nat :=
  if decide (fmt = "huggingface") then 1 else 0.

Definition tokens_of_shape (fmt : string) (sh : list nat) : nat :=
  default 0 (sh !! token_axis fmt).

(** The mask [store] works with: the given one, or all true. *)
Definition store_mask (tokens : Tensor Z) (kv_tensors_mask : option (Tensor bool))
  : Tensor bool :=
  match kv_tensors_mask with
  | Some m => m
  | None => mkTensor (shape tokens) (replicate (numel tokens) true)
  end.

(** [num_skip_tok] of [store]: the number of false entries of the mask. *)
Definition store_num_skip_tok (tokens : Tensor Z)
    (kv_tensors_mask : option (Tensor bool)) : nat :=
  tlen (store_mask tokens kv_tensors_mask) -
  count_true (tdata (store_mask tokens kv_tensors_mask)).

(** The length of the run of false entries a mask begins with. *)
Fixpoint leading_false_run (m : list bool) : nat :=
  match m with
  | false :: rest => S (leading_false_run rest)
  | _ => 0
  end.

(** A suffix mask: false entries, then true entries up to the end. *)
Definition is_suffix_mask (m : list bool) : Prop :=
  m = replicate (leading_false_run m) false ++
      replicate (length m - leading_false_run m) true.

(** A call of [store] that passes the checks of its arguments: a valid
    layout, one-dimensional tokens, a mask of the length of the tokens
    with a whole number of chunks masked out, and a well-formed nested KV
    cache holding the tokens that are not masked out. *)
Definition store_preconditions (self : LMCacheEngine) (tokens : Tensor Z)
    (kv_tensors_raw : KVCache) (kv_tensors_mask : option (Tensor bool))
    (sh : list nat) : Prop :=
  let c := Pos.to_nat (chunk_size self) in
  let num_skip_tok := store_num_skip_tok tokens kv_tensors_mask in
  fmt_valid (fmt (metadata self)) /\
  rank tokens = 1 /\ tensor_wf tokens /\
  rank (store_mask tokens kv_tensors_mask) = 1 /\
  tlen tokens = tlen (store_mask tokens kv_tensors_mask) /\
  num_skip_tok = num_skip_tok / c * c /\
  kv_well_formed sh kv_tensors_raw /\
  tlen tokens = tokens_of_shape (fmt (metadata self)) sh + num_skip_tok.

(** The pairs [store] hands to the backend. *)
Definition keyed {sha : Sha256} (self : LMCacheEngine)
    (chunk_hashes_and_kvs : list (string * Tensor Z))
  : list (CacheEngineKey * Tensor Z) :=
  map (fun hk => (_make_key self hk.1 (fmt (metadata self)), hk.2))
      chunk_hashes_and_kvs.

(** The engine after a [store] that wrote [chunk_hashes_and_kvs]. *)
Definition stored {sha : Sha256} (self : LMCacheEngine)
    (chunk_hashes_and_kvs : list (string * Tensor Z)) (blocking : bool)
  : LMCacheEngine :=
  add_log
    (set_backend self
       (batched_put (engine_ self) (keyed self chunk_hashes_and_kvs) blocking).1)
    (LogStored (batched_put (engine_ self) (keyed self chunk_hashes_and_kvs) blocking).2).

(** [num_skip_tok] and [num_skip_chunk] of [retrieve]. *)
Definition retrieve_num_skip_tok (mask : option (list bool)) : nat :=
  match mask with
  | Some m => length m - count_true m
  | None => 0
  end.

Definition retrieve_num_skip_chunk (self : LMCacheEngine) (mask : option (list bool))
  : nat :=
  match mask with
  | Some _ => retrieve_num_skip_tok mask / Pos.to_nat (chunk_size self)
  | None => 0
  end.

(** The chunks [retrieve] gets from the backend before the first miss. *)
Definition retrieve_hits {sha : Sha256} (self : LMCacheEngine) (tokens : list Z)
    (mask : option (list bool)) : list (Tensor Z) :=
  take_hits (batched_get (engine_ self)
               (chunk_keys self tokens (retrieve_num_skip_chunk self mask))).

(** [dim] of [retrieve]. *)
Definition retrieve_dim (fmt : string) : nat :=
  if decide (fmt = "huggingface") then 1 else 0.

(** The shape of a stacked chunk of [n] tokens for [L] layers, [Hd]
    heads and head size [D]. *)
Definition chunk_blob_shape (fmt : string) (L Hd D n : nat) : list nat :=
  if decide (fmt = "huggingface") then [L; 2; Hd; n; D] else [L; 2; n; Hd; D].

(** The number of tokens of the retrieved chunks, of sizes [ns], once
    the first is cut at [extra_token_len] and to one chunk. *)
Definition retrieved_tokens (c extra_token_len : nat) (ns : list nat) : nat :=
  match ns with
  | [] => 0
  | n0 :: rest => Nat.min c (n0 - extra_token_len) + sum_list rest
  end.

(** The engine after a [retrieve] that found nothing. *)
Definition after_miss (self : LMCacheEngine) (n_tokens : nat) : LMCacheEngine :=
  set_miss_tokens_count (add_log self LogRetrievedNone)
                        (miss_tokens_count self + n_tokens).

(** [hit_tokens_count / (miss_tokens_count + hit_tokens_count)] *)
Definition rate_of (hits misses : nat) : Qc :=
  (Qc_of_Z (Z.of_nat hits) / Qc_of_Z (Z.of_nat (misses + hits)))%Qc.

(** The engine after a [retrieve] that got [n_chunks] chunks holding
    [retrieved_token_count] tokens. *)
Definition after_hit (self : LMCacheEngine) (return_tuple : bool)
    (n_chunks retrieved_token_count : nat) : LMCacheEngine :=
  let hits := hit_tokens_count self + retrieved_token_count in
  let rate := rate_of hits (miss_tokens_count self) in
  add_log
    (set_hit_rate
       (set_hit_tokens_count
          (if return_tuple then add_log self (LogConcatenated n_chunks) else self)
          hits)
       rate)
    (LogRetrieved n_chunks retrieved_token_count rate).

(** The mask [retrieve] returns when it got [retrieved_token_count]
    tokens after [num_skip_tok] skipped ones. *)
Definition retrieved_mask (n_tokens num_skip_tok retrieved_token_count : nat)
  : list bool :=
  clear_from (num_skip_tok + retrieved_token_count)
             (clear_before num_skip_tok (replicate n_tokens true)).

(** The number of tokens of a stacked chunk. *)
Definition blob_tokens (fmt : string) (blob : Tensor Z) : nat :=
  default 0 (shape blob !! (retrieve_dim fmt + 2)).

(** The shape of the key and value tensors of a layer holding [n] tokens. *)
Definition layer_shape (fmt : string) (Hd D n : nat) : list nat :=
  if decide (fmt = "huggingface") then [Hd; n; D] else [n; Hd; D].

(** Every blob of the backend is a stacked chunk of the layout of the
    engine, for [L] layers, [Hd] heads and head size [D]: what [store]
    puts there for nested KV caches of that geometry. *)
Definition backend_shaped (fmt : string) (L Hd D : nat) (b : StorageBackend) : Prop :=
  forall key blob, kv_store b !! key = Some blob ->
    exists n, shape blob = chunk_blob_shape fmt L Hd D n.

(** ** A small instance to run the definitions on *)

(** A two-byte checksum standing for the digest in the examples. *)
Definition toy_digest (bs : list byte) : list byte :=
  let s := foldl (fun acc b => ((acc * 31 + Z.of_N (Byte.to_N b)) mod 65536)%Z)
                 7%Z bs in
  [byte_of_Z (s / 256); byte_of_Z s].

Definition toy_metadata : LMCacheEngineMetadata :=
  mkMetadata "test_model" 3 123 "vllm" "bfloat16" [1; 2; 2; 1; 1].

Definition toy_config : LMCacheEngineConfig :=
  mkConfig 2 (Some "cuda") 20 None None false false true 0%Qc 256.

(** [LMCacheEngine(toy_config, toy_metadata, tracker=False)] *)
Definition toy_engine : LMCacheEngine := LMCacheEngine_fields toy_config toy_metadata.

(** One layer in the vllm layout, one head of size one: the key of token
    [i] is the [i]-th item of [l], its value that item plus 100. *)
Definition toy_kv (l : list Z) : KVCache :=
  [(mkTensor [length l; 1; 1] l, mkTensor [length l; 1; 1] (map (Z.add 100) l))].

(** A registry holding one engine: the class dictionaries with
    [toy_engine], its configuration and its metadata under one id. *)
Definition toy_builder : LMCacheEngineBuilder :=
  mkBuilder [toy_engine] {["engine" := 0]} {["engine" := toy_config]}
            {["engine" := toy_metadata]}.

(** Five tokens, and the engine after storing their KV cache. *)
Definition toy_tokens : Tensor Z := tensor1d [5; 6; 7; 8; 9]%Z.

Definition toy_stored_engine : LMCacheEngine :=
  (store (sha := toy_digest) toy_tokens (toy_kv [1; 2; 3; 4; 5]%Z) None true true
         toy_engine).2.

(** The engine after retrieving the five stored tokens. *)
Definition toy_hit_engine : LMCacheEngine :=
  (retrieve (sha := toy_digest) [5; 6; 7; 8; 9]%Z None true toy_stored_engine).2.

(** ** Owners of keys and calls of the registry *)

(** The engine a key belongs to: the layout, the model and the place of
    the worker among the workers, which [_make_key] puts into every key
    beside the chunk hash. *)
Definition key_owner (key : CacheEngineKey) : string * string * Z * Z :=
  (key_fmt key, key_model_name key, key_world_size key, key_worker_id key).

Definition engine_owner (self : LMCacheEngine) : string * string * Z * Z :=
  (fmt (metadata self), model_name (metadata self), world_size (metadata self),
   worker_id (metadata self)).

(** What a caller does with an engine it got from the registry. *)
Inductive engine_call : Type :=
| CallStore (tokens : Tensor Z) (kv_tensors_raw : KVCache)
    (kv_tensors_mask : option (Tensor bool)) (skip_existing blocking : bool)
| CallRetrieve (tokens : list Z) (mask : option (list bool)) (return_tuple : bool)
| CallClose.

Definition run_engine_call {sha : Sha256} (call : engine_call)
    (self : LMCacheEngine) : LMCacheEngine :=
  match call with
  | CallStore tokens kv mask skip_existing blocking =>
      (store tokens kv mask skip_existing blocking self).2
  | CallRetrieve tokens mask return_tuple => (retrieve tokens mask return_tuple self).2
  | CallClose => (close self).2
  end.

(** A call of a class method of the registry, or a use of the engine at
    some place of the heap. *)
Inductive builder_call : Type :=
| CallGetOrCreate (instance_id : string) (config : LMCacheEngineConfig)
    (metadata : LMCacheEngineMetadata)
| CallDestroy (instance_id : string)
| CallEngine (engine : nat) (call : engine_call).

Definition run_builder_call {sha : Sha256} (call : builder_call)
    (cls : LMCacheEngineBuilder) : LMCacheEngineBuilder :=
  match call with
  | CallGetOrCreate instance_id config metadata =>
      (get_or_create instance_id config metadata cls).2
  | CallDestroy instance_id => destroy instance_id cls
  | CallEngine engine call =>
      mkBuilder (alter (run_engine_call call) engine (heap cls))
                (_instances cls) (_cfgs cls) (_metadatas cls)
  end.

(** The registry after a sequence of calls. *)
Definition run_builder_calls {sha : Sha256} (calls : list builder_call)
    (cls : LMCacheEngineBuilder) : LMCacheEngineBuilder :=
  foldl (fun cls call => run_builder_call call cls) cls calls.

(** What the registry promises its callers: the three dictionaries hold
    the same ids, no two ids share an engine, and the engine of an id
    was built from the configuration and the metadata recorded for it. *)
Definition builder_consistent (cls : LMCacheEngineBuilder) : Prop :=
  builder_wf cls /\
  (forall id1 id2 engine,
     _instances cls !! id1 = Some engine -> _instances cls !! id2 = Some engine ->
     id1 = id2) /\
  (forall id engine, _instances cls !! id = Some engine ->
     exists self, heap cls !! engine = Some self /\
       _cfgs cls !! id = Some (config self) /\
       _metadatas cls !! id = Some (metadata self)).

(** ** The checks of the separator tests *)

(** [l[i:j]] for non-negative [i] and [j]. *)
Definition py_slice {A} (i j : nat) (l : list A) : list A := take (j - i) (drop i l).

(** The [while True] loop of [check_has_spt] in [tests/test_blend.py],
    entered with index [i]: [Some b] when it returns [b] (leaving the
    loop by [break] returns [False]) within [fuel] rounds, [None] when
    [fuel] rounds are not enough. *)
Fixpoint check_has_spt_loop (fuel : nat) (tokens spt : list Z) (i : nat)
  : option bool :=
  match fuel with
  | 0 => None
  | S fuel =>
      let endi := i + length spt in
      if length tokens <? endi then Some false
      else if bool_decide (py_slice i endi tokens = spt) then Some true
      else check_has_spt_loop fuel tokens spt (i + 1)
  end.

(** [check_has_spt] of [tests/test_blend.py]. *)
Definition check_has_spt (fuel : nat) (tokens spt : list Z) : option (result bool) :=
  if negb (0 <? length spt) then Some (Raise (AssertionError EmptyString))
  else if length tokens <? length spt then Some (Ok false)
  else Ok <$> check_has_spt_loop fuel tokens spt 0.

(** [sum(l)] of a list of integers. *)
Definition sum_Z (l : list Z) : Z := foldr Z.add 0%Z l.

(** The [for] loop of [assert_indices_is_concat] in [tests/test_blend.py]
    over [enumerate(indices)], entered at position [i]: its value is
    [this_seg_start] after the loop. *)
Fixpoint assert_segments (indices chunk_lengths : list Z) (i : nat)
    (this_seg_start : Z) : result Z :=
  match indices with
  | [] => Ok this_seg_start
  | idx :: rest =>
      if negb (this_seg_start <=? idx)%Z then Raise (AssertionError EmptyString)
      else
        let seg_len := (idx - this_seg_start)%Z in
        match chunk_lengths !! i with
        | None => Raise IndexError
        | Some chunk_length =>
            if negb (seg_len =? chunk_length)%Z
            then Raise (AssertionError EmptyString)
            else assert_segments rest chunk_lengths (S i) idx
        end
  end.

(** [assert_indices_is_concat] of [tests/test_blend.py]. *)
Definition assert_indices_is_concat (indices chunk_lengths : list Z) : result unit :=
  if negb (Z.of_nat (length indices) =? Z.of_nat (length chunk_lengths) - 1)%Z
  then Raise (AssertionError EmptyString)
  else if length indices =? 0 then Ok tt
  else
    this_seg_start <- assert_segments indices chunk_lengths 0 0%Z;;
    if negb (2 <=? length chunk_lengths) then Raise (AssertionError EmptyString)
    else
      match last indices with
      | None => Raise IndexError
      | Some last_index =>
          if negb (last_index =? this_seg_start)%Z
          then Raise (AssertionError EmptyString)
          else if negb (last_index =?
                          sum_Z (take (length chunk_lengths - 1) chunk_lengths))%Z
          then Raise (AssertionError EmptyString)
          else Ok tt
      end.

(** ** More of the small instance *)

(** An engine whose metadata names a layout the engine does not know,
    and the engine of another worker of the same model. *)
Definition toy_paged_engine : LMCacheEngine :=
  LMCacheEngine_fields toy_config
    (mkMetadata "test_model" 3 123 "paged" "bfloat16" [1; 2; 2; 1; 1]).

Definition toy_other_engine : LMCacheEngine :=
  LMCacheEngine_fields toy_config
    (mkMetadata "test_model" 3 124 "vllm" "bfloat16" [1; 2; 2; 1; 1]).

(** The stacked blob of [toy_kv [1; 2; 3; 4; 5]]. *)
Definition toy_blob : Tensor Z :=
  mkTensor [1; 2; 5; 1; 1] [1; 2; 3; 4; 5; 101; 102; 103; 104; 105]%Z.

(** Four tokens: two whole chunks. *)
Definition toy_tokens4 : Tensor Z := tensor1d [5; 6; 7; 8]%Z.

(** One layer in the vllm layout for two tokens and two heads of size
    one. *)
Definition toy_kv_two_heads : KVCache :=
  [(mkTensor [2; 2; 1] [31; 32; 41; 42]%Z,
    mkTensor [2; 2; 1] [131; 132; 141; 142]%Z)].

(** The engine after storing the KV cache of the first chunk of
    [toy_tokens]. *)
Definition toy_first_chunk_engine : LMCacheEngine :=
  (store (sha := toy_digest) (tensor1d [5; 6]%Z) (toy_kv [1; 2]%Z) None true true
         toy_engine).2.

(** That engine after a second call of [store], for the tokens
    [5; 6; 7; 8] with the first chunk masked out and a KV cache of two
    heads for the second: [store] compares no geometry, and the backend
    now holds a chunk of one head and a chunk of two. *)
Definition toy_mixed_engine : LMCacheEngine :=
  (store (sha := toy_digest) toy_tokens4 toy_kv_two_heads
         (Some (tensor1d [false; false; true; true])) true true
         toy_first_chunk_engine).2.

(** Calls on the registry of one engine: an id that is free is asked
    for, the engine is used, and its own id is asked for once more. *)
Definition toy_builder_calls : list builder_call :=
  [CallGetOrCreate "other" toy_config toy_metadata;
   CallEngine 0 (CallStore toy_tokens (toy_kv [1; 2; 3; 4; 5]%Z) None true true);
   CallGetOrCreate "engine" toy_config toy_metadata].

Definition toy_builder_used : LMCacheEngineBuilder :=
  run_builder_calls (sha := toy_digest) toy_builder_calls toy_builder.

(** * Properties *)

(** ** Blocks of a row-major layout *)

Lemma block_0_app {A} (r : nat) (l k : list A) :
  length l = r -> block r 0 (l ++ k) = l.
Proof.
  intros Hl. unfold block. rewrite Nat.mul_0_l, drop_0.
  by apply take_app_length'.
Qed.

Lemma block_S_app {A} (r i : nat) (l k : list A) :
  length l = r -> block r (S i) (l ++ k) = block r i k.
Proof.
  intros Hl. unfold block.
  replace (S i * r) with (length l + i * r) by lia.
  by rewrite <- drop_drop, drop_app_length.
Qed.

Lemma block_concat_lookup {A} (r i : nat) (ls : list (list A)) (l rest : list A) :
  Forall (fun x => length x = r) ls ->
  ls !! i = Some l ->
  block r i (concat ls ++ rest) = l.
Proof.
  intros Hall. revert i. induction Hall as [|x ls Hx Hall IH]; intros i Hi.
  - done.
  - destruct i as [|i]; simpl in *.
    + injection Hi as ->. rewrite <- app_assoc. by apply block_0_app.
    + rewrite <- app_assoc, block_S_app by done. by apply IH.
Qed.

Lemma block_concat_skip {A} (r j : nat) (ls : list (list A)) (rest : list A) :
  Forall (fun x => length x = r) ls ->
  block r (length ls + j) (concat ls ++ rest) = block r j rest.
Proof.
  induction 1 as [|x ls Hx Hall IH]; simpl; [done|].
  by rewrite <- app_assoc, block_S_app.
Qed.

Lemma block_concat_map_seq {A} (m : nat) (f : nat -> list A) (n s i : nat) :
  (forall j, length (f j) = m) ->
  i < n ->
  block m i (concat (map f (seq s n))) = f (s + i).
Proof.
  intros Hlen. revert s i. induction n as [|n IH]; intros s i Hi; [lia|].
  simpl. destruct i as [|i].
  - rewrite Nat.add_0_r. by apply block_0_app.
  - rewrite block_S_app by done. rewrite IH by lia. f_equal. lia.
Qed.

Lemma length_block_concat {A} (r : nat) (ls : list (list A)) :
  Forall (fun x => length x = r) ls -> length (concat ls) = length ls * r.
Proof.
  induction 1 as [|x ls Hx Hall IH]; simpl; [done|].
  rewrite length_app. lia.
Qed.

(** ** Fallible code *)

Lemma mapM_ok {A B} (f : A -> result B) (g : A -> B) (l : list A) :
  Forall (fun x => f x = Ok (g x)) l -> mapM f l = Ok (map g l).
Proof.
  induction 1 as [|x l Hx Hall IH]; simpl; [done|].
  by rewrite Hx, IH.
Qed.

Lemma stack_ok {A} (ts : list (Tensor A)) (sh : list nat) :
  ts <> [] ->
  Forall (fun t => shape t = sh) ts ->
  stack ts = Ok (mkTensor (length ts :: sh) (concat (map tdata ts))).
Proof.
  intros Hne Hall. destruct ts as [|t rest]; [done|].
  inversion Hall as [|? ? Ht Hrest]; subst. unfold stack.
  replace (forallb _ rest) with true; [done|].
  symmetry. apply forallb_forall. intros u Hu.
  apply bool_decide_eq_true. rewrite Forall_forall in Hrest.
  apply Hrest. by apply list_elem_of_In.
Qed.

(** ** Nested and stacked form *)

Section Codec.
Context {sha : Sha256}.

Lemma tuple_kv_to_blob_ok (sh : list nat) (kv : KVCache) :
  kv_well_formed sh kv ->
  _tuple_kv_to_blob kv =
    Ok (mkTensor (length kv :: 2 :: sh)
          (concat (map (fun layer => tdata layer.1 ++ tdata layer.2) kv))).
Proof.
  intros (Hne & Hsh & Hall).
  destruct sh as [|a [|b [|c [|]]]]; try discriminate Hsh.
  unfold _tuple_kv_to_blob.
  rewrite (stack_ok (map fst kv) [a; b; c]); cycle 1.
  { by destruct kv. }
  { apply Forall_fmap. eapply Forall_impl; [exact Hall|]. by intros ? [[? ?] _]. }
  rewrite (stack_ok (map snd kv) [a; b; c]); cycle 1.
  { by destruct kv. }
  { apply Forall_fmap. eapply Forall_impl; [exact Hall|]. by intros ? [_ [? ?]]. }
  cbn [rbind]. rewrite !length_map.
  set (kb := mkTensor _ (concat (map tdata (map fst kv)))).
  set (vb := mkTensor _ (concat (map tdata (map snd kv)))).
  rewrite (stack_ok [kb; vb] (length kv :: [a; b; c])); cycle 1.
  { done. }
  { by repeat constructor. }
  cbn [rbind]. unfold permute_10234. cbn [shape tdata length map concat].
  f_equal. f_equal. rewrite app_nil_r.
  set (r := a * b * c).
  assert (Hk : Forall (fun x => length x = r) (map tdata (map fst kv))).
  { apply Forall_fmap, Forall_fmap. eapply Forall_impl; [exact Hall|].
    intros [k v] [[Hs Hwf] _]. cbn in *. unfold tensor_wf, numel in Hwf.
    rewrite Hwf, Hs. unfold prod_list, r. cbn. lia. }
  assert (Hv : Forall (fun x => length x = r) (map tdata (map snd kv))).
  { apply Forall_fmap, Forall_fmap. eapply Forall_impl; [exact Hall|].
    intros [k v] [_ [Hs Hwf]]. cbn in *. unfold tensor_wf, numel in Hwf.
    rewrite Hwf, Hs. unfold prod_list, r. cbn. lia. }
  f_equal. apply list_eq. intros i.
  rewrite !list_lookup_fmap.
  destruct (kv !! i) as [[k v]|] eqn:Hi.
  - assert (i < length kv) by (by eapply lookup_lt_Some).
    rewrite lookup_seq_lt by done. cbn.
    rewrite ?Nat.mul_0_l, ?Nat.mul_1_l, ?Nat.add_0_l, ?app_nil_r.
    f_equal. unfold kb, vb. cbn [tdata]. f_equal.
    + apply block_concat_lookup; [done|].
      by rewrite !list_lookup_fmap, Hi.
    + replace (length kv + 0 + i)
        with (length (map tdata (map fst kv)) + i)
        by (rewrite !length_map; lia).
      rewrite block_concat_skip by done.
      rewrite <- (app_nil_r (concat _)).
      apply block_concat_lookup; [done|].
      by rewrite !list_lookup_fmap, Hi.
  - rewrite lookup_seq_ge; [done|]. by apply lookup_ge_None.
Qed.

(** C2.  Converting a well-formed nested KV cache to the stacked blob
    and back gives the same cache: every layer has its key and value
    tensors again, with their shapes and all their elements. *)
Theorem blob_to_tuple_kv_of_tuple_kv_to_blob (sh : list nat) (x : KVCache) :
  kv_well_formed sh x ->
  (blob <- _tuple_kv_to_blob x;; _blob_to_tuple_kv blob) = Ok x.
Proof.
  intros Hwf. rewrite (tuple_kv_to_blob_ok sh x Hwf). cbn [rbind].
  destruct Hwf as (Hne & Hsh & Hall).
  unfold _blob_to_tuple_kv, unbind0. cbn [shape tdata rbind].
  set (r := prod_list sh).
  set (D := concat (map (fun layer => tdata layer.1 ++ tdata layer.2) x)).
  assert (Hlen : Forall (fun l => length l = prod_list (2 :: sh))
                   (map (fun layer : Tensor Z * Tensor Z =>
                           tdata layer.1 ++ tdata layer.2) x)).
  { apply Forall_fmap. eapply Forall_impl; [exact Hall|].
    intros [k v] [[Hk Hkw] [Hv Hvw]]. cbn in *.
    unfold tensor_wf, numel in *. rewrite length_app, Hkw, Hvw, Hk, Hv.
    unfold prod_list. cbn. lia. }
  rewrite (mapM_ok _ (fun inner =>
             (mkTensor sh (block r 0 (tdata inner)),
              mkTensor sh (block r 1 (tdata inner))))); cycle 1.
  { apply Forall_fmap, Forall_forall. intros i _. done. }
  f_equal. apply list_eq. intros i. rewrite !list_lookup_fmap.
  destruct (x !! i) as [[k v]|] eqn:Hi.
  - assert (i < length x) by (by eapply lookup_lt_Some).
    rewrite lookup_seq_lt by done. cbn. f_equal.
    destruct (Forall_lookup_1 _ _ _ _ Hall Hi) as [[Hk Hkw] [Hv Hvw]].
    cbn in Hk, Hkw, Hv, Hvw. unfold tensor_wf, numel in Hkw, Hvw.
    assert (HD : block (prod_list (2 :: sh)) i D = tdata k ++ tdata v).
    { unfold D. rewrite <- (app_nil_r (concat _)).
      apply block_concat_lookup; [done|].
      by rewrite list_lookup_fmap, Hi. }
    rewrite HD.
    rewrite block_0_app by (rewrite Hkw, Hk; done).
    rewrite block_S_app by (rewrite Hkw, Hk; done).
    rewrite <- (app_nil_r (tdata v)).
    rewrite block_0_app by (rewrite Hvw, Hv; done).
    destruct k, v; cbn in *; by subst.
  - rewrite lookup_seq_ge; [done|]. by apply lookup_ge_None.
Qed.

End Codec.

Lemma blob_to_tuple_kv_of_tuple_kv_to_blob_witness :
  kv_well_formed [3; 1; 1] (toy_kv [1; 2; 3]%Z) /\
  (blob <- _tuple_kv_to_blob (toy_kv [1; 2; 3]%Z);; _blob_to_tuple_kv blob)
  = Ok (toy_kv [1; 2; 3]%Z).
Proof.
  assert (Hwf : kv_well_formed [3; 1; 1] (toy_kv [1; 2; 3]%Z)).
  { split; [done|]. split; [done|]. by repeat constructor. }
  split; [exact Hwf|].
  exact (blob_to_tuple_kv_of_tuple_kv_to_blob [3; 1; 1] (toy_kv [1; 2; 3]%Z) Hwf).
Defined.

(** ** The prefix hash chain *)

Section PrefixHash.
Context {sha : Sha256}.

Lemma prefix_hash_loop_acc (token_chunks : list (list Z)) (h : string)
    (acc : list string) :
  prefix_hash_loop token_chunks h acc = acc ++ prefix_hash_loop token_chunks h [].
Proof.
  revert h acc. induction token_chunks as [|ch rest IH]; intros h acc; simpl.
  - by rewrite app_nil_r.
  - rewrite IH, (IH _ [_ ]). by rewrite <- app_assoc.
Qed.

Lemma prefix_hash_loop_cons (ch : list Z) (rest : list (list Z)) (h : string) :
  prefix_hash_loop (ch :: rest) h [] =
  _hash ch h :: prefix_hash_loop rest (_hash ch h) [].
Proof. simpl. by rewrite prefix_hash_loop_acc. Qed.

Lemma length_prefix_hash_loop (token_chunks : list (list Z)) (h : string) :
  length (prefix_hash_loop token_chunks h []) = length token_chunks.
Proof.
  revert h. induction token_chunks as [|ch rest IH]; intros h; [done|].
  rewrite prefix_hash_loop_cons. simpl. by rewrite IH.
Qed.

Lemma prefix_hash_loop_lookup (token_chunks : list (list Z)) (h : string) (i : nat) :
  prefix_hash_loop token_chunks h [] !! i =
  (fun _ => foldl (fun p ch => _hash ch p) h (take (S i) token_chunks))
    <$> token_chunks !! i.
Proof.
  revert h i. induction token_chunks as [|ch rest IH]; intros h i.
  - done.
  - rewrite prefix_hash_loop_cons. destruct i as [|i]; [done|].
    rewrite !lookup_cons_ne_0 by done. simpl. by rewrite IH.
Qed.

Lemma length_prefix_hash (token_chunks : list (list Z)) (k : nat) :
  length (_prefix_hash token_chunks k) = length token_chunks - k.
Proof.
  unfold _prefix_hash. by rewrite length_drop, length_prefix_hash_loop.
Qed.

(** C9.  The hashes computed with [num_skip_chunk = k] are those
    computed without skipping, less the first [k]: the hash of a chunk
    is chained from the empty root hash over all chunks up to it,
    whatever the skip count, and so are the keys made of the hashes. *)
Theorem prefix_hash_skip_drops_leading (token_chunks : list (list Z)) (k : nat) :
  _prefix_hash token_chunks k = drop k (_prefix_hash token_chunks 0) /\
  (forall i, _prefix_hash token_chunks k !! i =
             _prefix_hash token_chunks 0 !! (k + i)) /\
  (forall i, _prefix_hash token_chunks k !! i =
             (fun _ => chain_hash (take (S (k + i)) token_chunks))
               <$> token_chunks !! (k + i)) /\
  (forall self fmt,
     map (fun h => _make_key self h fmt) (_prefix_hash token_chunks k) =
     drop k (map (fun h => _make_key self h fmt) (_prefix_hash token_chunks 0))).
Proof.
  assert (H0 : _prefix_hash token_chunks k = drop k (_prefix_hash token_chunks 0)).
  { unfold _prefix_hash. by rewrite drop_0. }
  split; [exact H0|]. split; [|split].
  - intros i. by rewrite H0, lookup_drop.
  - intros i. rewrite H0, lookup_drop. unfold _prefix_hash. rewrite drop_0.
    by apply prefix_hash_loop_lookup.
  - intros self fmt. rewrite H0. by rewrite <- fmap_drop.
Qed.

End PrefixHash.

(** ** The backend *)

Lemma contains_true (b : StorageBackend) (key : CacheEngineKey) (blob : Tensor Z) :
  kv_store b !! key = Some blob -> contains b key = true.
Proof. intros Hk. unfold contains. rewrite Hk. by apply bool_decide_eq_true. Qed.

Lemma contains_false (b : StorageBackend) (key : CacheEngineKey) :
  kv_store b !! key = None -> contains b key = false.
Proof.
  intros Hk. unfold contains. rewrite Hk. apply bool_decide_eq_false.
  by intros [? ?].
Qed.

Lemma contains_erase_blobs (b : StorageBackend) (key : CacheEngineKey) :
  contains (erase_blobs b) key = contains b key.
Proof.
  unfold contains, erase_blobs. cbn [kv_store]. rewrite lookup_fmap.
  by destruct (kv_store b !! key).
Qed.

(** ** Lookup *)

Section Lookup.
Context {sha : Sha256}.

Lemma lookup_loop_count (self : LMCacheEngine) (fmt : string)
    (chunk_hashes : list string) (total current : nat) :
  current <= total ->
  lookup_loop self fmt chunk_hashes total current =
  Nat.min
    (current +
     length (take_hits (batched_get (engine_ self)
               (map (fun h => _make_key self h fmt) chunk_hashes)))
     * Pos.to_nat (chunk_size self))
    total.
Proof.
  revert current. induction chunk_hashes as [|h rest IH]; intros current Hle.
  - simpl. lia.
  - cbn [lookup_loop map batched_get take_hits].
    destruct (kv_store (engine_ self) !! _make_key self h fmt) as [blob|] eqn:Hk.
    + rewrite (contains_true _ _ _ Hk). cbn [negb].
      rewrite IH by lia. cbn [length]. unfold batched_get. lia.
    + rewrite (contains_false _ _ Hk). cbn [negb length]. lia.
Qed.

Lemma lookup_loop_ext (self self' : LMCacheEngine) (fmt : string)
    (chunk_hashes : list string) (total current : nat) :
  metadata self' = metadata self ->
  chunk_size self' = chunk_size self ->
  (forall key, contains (engine_ self') key = contains (engine_ self) key) ->
  lookup_loop self' fmt chunk_hashes total current =
  lookup_loop self fmt chunk_hashes total current.
Proof.
  intros Hm Hc Hcontains. revert current.
  induction chunk_hashes as [|h rest IH]; intros current; [done|].
  cbn [lookup_loop]. unfold _make_key. rewrite Hm, Hc, Hcontains.
  destruct (negb _); [done|]. apply IH.
Qed.

(** C5.  [lookup] walks the chunk keys from the first and counts whole
    chunks up to the first absent one: with [hits] leading chunks
    present it returns [min (hits * chunk_size) len(tokens)], which is
    at most [len(tokens)] and a multiple of the chunk size unless it is
    [len(tokens)]; it probes keys only: the blobs held by the backend
    have no part in the result. *)
Theorem lookup_counts_whole_leading_chunks (self : LMCacheEngine) (tokens : list Z) :
  let c := Pos.to_nat (chunk_size self) in
  let hits :=
    length (take_hits (batched_get (engine_ self) (chunk_keys self tokens 0))) in
  lookup self tokens = Nat.min (hits * c) (length tokens) /\
  lookup self tokens <= length tokens /\
  (lookup self tokens = length tokens \/ Nat.divide c (lookup self tokens)) /\
  lookup (set_backend self (erase_blobs (engine_ self))) tokens = lookup self tokens.
Proof.
  intros c hits.
  assert (Hl : lookup self tokens = Nat.min (hits * c) (length tokens)).
  { unfold lookup. rewrite lookup_loop_count by lia. done. }
  split; [exact Hl|]. split; [lia|]. split.
  - destruct (decide (hits * c <= length tokens)).
    + right. exists hits. lia.
    + left. lia.
  - unfold lookup. cbn [metadata set_backend].
    assert (Hcs : _chunk_tokens (set_backend self (erase_blobs (engine_ self))) tokens
                  = _chunk_tokens self tokens) by done.
    rewrite Hcs. apply lookup_loop_ext; [done..|].
    intros key. cbn [engine_ set_backend]. apply contains_erase_blobs.
Qed.

End Lookup.

(** ** The registry *)

Lemma builder_wf_empty : builder_wf empty_builder.
Proof.
  unfold builder_wf, empty_builder. cbn [_instances _cfgs _metadatas heap].
  split; [|split]; intros id; rewrite ?lookup_empty; try done.
  all: split; by intros [? ?].
Qed.

Lemma dict_item_some {V} (d : gmap string V) (key : string) (v : V) :
  d !! key = Some v -> dict_item d key = Ok v.
Proof. intros Hk. unfold dict_item. by rewrite Hk. Qed.

Lemma builder_wf_registered (cls : LMCacheEngineBuilder) (id : string) (engine : nat) :
  builder_wf cls ->
  _instances cls !! id = Some engine ->
  exists c m, _cfgs cls !! id = Some c /\ _metadatas cls !! id = Some m /\
              engine < length (heap cls).
Proof.
  intros (Hc & Hm & Hh) Hi.
  destruct (proj1 (Hc id)) as [c Hcfg]; [by eexists|].
  destruct (proj1 (Hm id)) as [m Hmd]; [by eexists|].
  exists c, m. eauto.
Qed.

Lemma get_or_create_free (cls : LMCacheEngineBuilder) (id : string)
    (config : LMCacheEngineConfig) (metadata : LMCacheEngineMetadata) :
  _instances cls !! id = None ->
  get_or_create id config metadata cls = (Raise TypeError, cls).
Proof. intros Hi. unfold get_or_create. by rewrite Hi. Qed.

Lemma get_or_create_unchanged (cls : LMCacheEngineBuilder) (id : string)
    (config : LMCacheEngineConfig) (metadata : LMCacheEngineMetadata) :
  (get_or_create id config metadata cls).2 = cls.
Proof.
  unfold get_or_create. destruct (_instances cls !! id); [|done].
  by repeat case_match.
Qed.

Lemma get_or_create_wf (cls : LMCacheEngineBuilder) (id : string)
    (config : LMCacheEngineConfig) (metadata : LMCacheEngineMetadata) :
  builder_wf cls -> builder_wf (get_or_create id config metadata cls).2.
Proof. by rewrite get_or_create_unchanged. Qed.

Lemma destroy_wf (cls : LMCacheEngineBuilder) (id : string) :
  builder_wf cls -> builder_wf (destroy id cls).
Proof.
  intros Hwf. unfold destroy.
  destruct (_instances cls !! id) as [engine|] eqn:Hi; [|done].
  destruct Hwf as (Hc & Hm & Hh). unfold builder_wf.
  cbn [_instances _cfgs _metadatas heap]. split; [|split].
  - intros id'. destruct (decide (id = id')) as [->|Hne].
    + rewrite !lookup_delete_eq. split; by intros [? ?].
    + rewrite !lookup_delete_ne by done. apply Hc.
  - intros id'. destruct (decide (id = id')) as [->|Hne].
    + rewrite !lookup_delete_eq. split; by intros [? ?].
    + rewrite !lookup_delete_ne by done. apply Hm.
  - intros id' e He. rewrite length_alter.
    destruct (decide (id = id')) as [->|Hne].
    + by rewrite lookup_delete_eq in He.
    + rewrite lookup_delete_ne in He by done. by apply Hh in He.
Qed.

(** C7.  The branch of [get_or_create] that is to construct and
    register an engine registers none.  On an id that is not registered
    [get_or_create] builds the engine with [LMCacheEngine(config,
    metadata)], whose constructor ends with a call of [Tracker] with
    four arguments where [Tracker.__init__] has five parameters: the
    call raises [TypeError] before anything is registered, on the empty
    registry and on every other, and [get] still finds nothing.  The
    constructor itself returns the engine when it is called with
    [tracker=False]. *)
Theorem get_or_create_free_id_raises_type_error :
  LMCacheEngine_init toy_config toy_metadata true = Raise TypeError /\
  LMCacheEngine_init toy_config toy_metadata false = Ok toy_engine /\
  get_or_create "engine" toy_config toy_metadata empty_builder
  = (Raise TypeError, empty_builder) /\
  get "engine" (get_or_create "engine" toy_config toy_metadata empty_builder).2
  = None /\
  (forall cls id config metadata,
     _instances cls !! id = None ->
     get_or_create id config metadata cls = (Raise TypeError, cls) /\
     get id (get_or_create id config metadata cls).2 = None).
Proof.
  split; [done|]. split; [done|]. split; [done|]. split; [done|].
  intros cls id config metadata Hi.
  rewrite (get_or_create_free cls id config metadata Hi). by split.
Qed.

(** ** Separators *)

Lemma starts_with_self_app (spt rest : list Z) : starts_with spt (spt ++ rest) = true.
Proof.
  induction spt as [|s spt IH]; [done|].
  simpl. by rewrite bool_decide_eq_true_2.
Qed.

Lemma starts_with_app_long (spt l k : list Z) :
  length spt <= length l -> starts_with spt (l ++ k) = starts_with spt l.
Proof.
  revert l. induction spt as [|s spt IH]; intros l Hlen; [done|].
  destruct l as [|t l]; simpl in *; [lia|].
  rewrite IH by lia. done.
Qed.

Lemma starts_with_app_true (spt l k : list Z) :
  starts_with spt l = true -> starts_with spt (l ++ k) = true.
Proof.
  revert l. induction spt as [|s spt IH]; intros l Hl; [done|].
  destruct l as [|t l]; simpl in *; [done|].
  apply andb_true_iff in Hl as [-> Hl]. by rewrite IH.
Qed.

Lemma scan_spt_skip (spt l rest : list Z) (pos : nat) :
  scan_spt spt (l ++ rest) (length l) pos = scan_spt spt rest 0 pos.
Proof. induction l as [|x l IH]; [done|]. simpl. exact IH. Qed.

Lemma scan_spt_occurrence (spt rest : list Z) (pos : nat) :
  spt <> [] ->
  scan_spt spt (spt ++ rest) 0 pos =
  ((scan_spt spt rest 0 pos).1,
   if bool_decide (rest = []) then (scan_spt spt rest 0 pos).2
   else pos :: (scan_spt spt rest 0 pos).2).
Proof.
  intros Hne. destruct spt as [|s spt]; [done|].
  pose proof (starts_with_self_app (s :: spt) rest) as Hs.
  change ((s :: spt) ++ rest) with (s :: (spt ++ rest)) in *.
  cbn [scan_spt]. rewrite Hs. cbn [length].
  replace (S (length spt) - 1) with (length spt) by lia. rewrite scan_spt_skip.
  destruct (scan_spt (s :: spt) rest 0 pos) as [cleaned indices]. cbn [fst snd].
  f_equal. rewrite length_app. destruct rest as [|r rest].
  - rewrite bool_decide_eq_true_2 by done. cbn [length].
    replace (S (length spt) <? S (length spt + 0)) with false; [done|].
    symmetry. apply Nat.ltb_ge. lia.
  - rewrite bool_decide_eq_false_2 by done. cbn [length].
    replace (S (length spt) <? S (length spt + S (length rest))) with true; [done|].
    symmetry. apply Nat.ltb_lt. lia.
Qed.

Lemma scan_spt_run (spt run rest : list Z) (pos : nat) :
  (forall i, i < length run -> starts_with spt (drop i (run ++ rest)) = false) ->
  scan_spt spt (run ++ rest) 0 pos =
  (run ++ (scan_spt spt rest 0 (pos + length run)).1,
   (scan_spt spt rest 0 (pos + length run)).2).
Proof.
  revert pos. induction run as [|x run IH]; intros pos Hno.
  - cbn [app length]. rewrite Nat.add_0_r. by destruct (scan_spt spt rest 0 pos).
  - pose proof (Hno 0 ltac:(cbn; lia)) as H0. rewrite drop_0 in H0.
    change ((x :: run) ++ rest) with (x :: (run ++ rest)) in *.
    cbn [scan_spt]. rewrite H0, IH.
    + cbn [length]. by replace (S pos + length run) with (pos + S (length run)) by lia.
    + intros i Hi. apply (Hno (S i)). cbn. lia.
Qed.

Lemma no_occurrence_before_separator (spt run rest : list Z) :
  (forall i, i < length run -> ~ occurs_at spt (run ++ spt) i) ->
  forall i, i < length run ->
    starts_with spt (drop i (run ++ spt ++ rest)) = false.
Proof.
  intros Hno i Hi. specialize (Hno i Hi). unfold occurs_at in Hno.
  rewrite app_assoc, drop_app_le by (rewrite length_app; lia).
  rewrite starts_with_app_long.
  - by destruct (starts_with spt (drop i (run ++ spt))).
  - rewrite length_drop, length_app. lia.
Qed.

Lemma scan_spt_segment (spt run rest : list Z) (pos : nat) :
  spt <> [] ->
  (forall i, i < length run -> ~ occurs_at spt (run ++ spt) i) ->
  scan_spt spt (run ++ spt ++ rest) 0 pos =
  (run ++ (scan_spt spt rest 0 (pos + length run)).1,
   if bool_decide (rest = []) then (scan_spt spt rest 0 (pos + length run)).2
   else (pos + length run) :: (scan_spt spt rest 0 (pos + length run)).2).
Proof.
  intros Hne Hno.
  rewrite scan_spt_run by (by apply no_occurrence_before_separator).
  by rewrite scan_spt_occurrence.
Qed.

Lemma scan_spt_last (spt run : list Z) (pos : nat) :
  (forall i, i < length run -> ~ occurs_at spt run i) ->
  scan_spt spt run 0 pos = (run, []).
Proof.
  intros Hno. rewrite <- (app_nil_r run) at 1. rewrite scan_spt_run.
  - cbn. by rewrite app_nil_r.
  - intros i Hi. rewrite app_nil_r. specialize (Hno i Hi). unfold occurs_at in Hno.
    by destruct (starts_with spt (drop i run)).
Qed.

(** C8, as amended.  Let no occurrence of the separator begin inside
    [A] or [B], not even one that runs on into the separator that
    follows, and none inside [C].  Then [A, SPT, B, SPT, C] with a
    non-empty [C] is cleaned to [A, B, C] with the boundaries
    [|A|, |A|+|B|], and [A, SPT, B, SPT] with a non-empty [B] is cleaned
    to [A, B] with the boundary [|A|], exactly as [A, SPT, B] is. *)
Theorem drop_spt_and_get_indices_two_separators (spt A B C : list Z) :
  spt <> [] ->
  (forall i, i < length A -> ~ occurs_at spt (A ++ spt) i) ->
  (forall i, i < length B -> ~ occurs_at spt (B ++ spt) i) ->
  (forall i, i < length C -> ~ occurs_at spt C i) ->
  (C <> [] ->
   drop_spt_and_get_indices spt (A ++ spt ++ B ++ spt ++ C) =
   (A ++ B ++ C, [length A; length A + length B])) /\
  (B <> [] ->
   drop_spt_and_get_indices spt (A ++ spt ++ B ++ spt) = (A ++ B, [length A]) /\
   drop_spt_and_get_indices spt (A ++ spt ++ B ++ spt) =
   drop_spt_and_get_indices spt (A ++ spt ++ B)).
Proof.
  intros Hne HA HB HC. unfold drop_spt_and_get_indices.
  assert (HB' : forall i, i < length B -> ~ occurs_at spt B i).
  { intros i Hi Hocc. apply (HB i Hi). unfold occurs_at in *.
    rewrite drop_app_le by lia. by apply starts_with_app_true. }
  split.
  - intros HCne.
    rewrite scan_spt_segment by done.
    rewrite scan_spt_segment by done.
    rewrite scan_spt_last by done. cbn [fst snd].
    rewrite !bool_decide_eq_false_2; [done|done|].
    destruct B; [by destruct spt|done].
  - intros HBne.
    assert (H1 : scan_spt spt (A ++ spt ++ B ++ spt) 0 0 = (A ++ B, [length A])).
    { replace (A ++ spt ++ B ++ spt) with (A ++ spt ++ B ++ spt ++ [])
        by (by rewrite app_nil_r).
      rewrite scan_spt_segment by done.
      rewrite scan_spt_segment by done. cbn [scan_spt fst snd].
      rewrite (bool_decide_eq_true_2 ([] = [])) by done.
      rewrite bool_decide_eq_false_2 by (by destruct B).
      by rewrite app_nil_r. }
    split; [exact H1|]. rewrite H1.
    rewrite scan_spt_segment by done.
    rewrite scan_spt_last by done. cbn [fst snd].
    by rewrite bool_decide_eq_false_2.
Qed.

Lemma drop_spt_and_get_indices_two_separators_witness :
  drop_spt_and_get_indices [10010; 10010]%Z
    ([1; 2] ++ [10010; 10010] ++ [3] ++ [10010; 10010] ++ [4; 5])%Z
  = ([1; 2; 3; 4; 5]%Z, [2; 3]) /\
  drop_spt_and_get_indices [10010; 10010]%Z
    ([1; 2] ++ [10010; 10010] ++ [3] ++ [10010; 10010])%Z
  = ([1; 2; 3]%Z, [2]).
Proof.
  assert (Hno : forall run : list Z, Forall (fun t => t <> 10010%Z) run ->
            forall i, i < length run ->
              ~ occurs_at [10010; 10010]%Z (run ++ [10010; 10010]%Z) i).
  { intros run Hrun i Hi. unfold occurs_at. rewrite drop_app_le by lia.
    destruct (drop i run) as [|t rest] eqn:Hd.
    - apply (f_equal length) in Hd. rewrite length_drop in Hd. cbn in Hd. lia.
    - assert (Ht : t <> 10010%Z).
      { rewrite Forall_forall in Hrun. apply Hrun.
        apply (subseteq_drop i). rewrite Hd. by constructor. }
      cbn. by rewrite bool_decide_eq_false_2. }
  assert (Hlast : forall i, i < length [4; 5]%Z ->
            ~ occurs_at [10010; 10010]%Z [4; 5]%Z i).
  { intros [|[|i]] Hi; cbn in Hi; try lia; by cbn. }
  assert (Hspt : [10010; 10010]%Z <> []) by done.
  destruct (drop_spt_and_get_indices_two_separators
              [10010; 10010]%Z [1; 2]%Z [3]%Z [4; 5]%Z Hspt
              (Hno [1; 2]%Z ltac:(by repeat constructor))
              (Hno [3]%Z ltac:(by repeat constructor))
              Hlast)
    as [H1 H2].
  split; [by apply H1|]. by apply H2.
Defined.

(** C8, as first stated, fails when an occurrence of the separator
    straddles a run and the separator after it: [A], [B], [C] hold no
    occurrence of [SPT = [1; 1]], yet the first boundary is not [|A|].
    A run may not be empty before a trailing separator either:
    [A, SPT, SPT] keeps the boundary [|A|] that [A, SPT] does not have. *)
Lemma drop_spt_and_get_indices_overlap_counterexample :
  let spt := [1; 1]%Z in
  let A := [1]%Z in
  let B := [2]%Z in
  let C := [3]%Z in
  ((forall i, ~ occurs_at spt A i) /\ (forall i, ~ occurs_at spt B i) /\
   (forall i, ~ occurs_at spt C i)) /\
  drop_spt_and_get_indices spt (A ++ spt ++ B ++ spt ++ C) = (A ++ B ++ C, [0; 2]) /\
  drop_spt_and_get_indices spt (A ++ spt ++ B ++ spt ++ C) <>
    (A ++ B ++ C, [length A; length A + length B]) /\
  drop_spt_and_get_indices [9]%Z ([5] ++ [9] ++ [] ++ [9])%Z <>
    drop_spt_and_get_indices [9]%Z ([5] ++ [9] ++ [])%Z.
Proof.
  cbn zeta. split; [|split; [|split]].
  - repeat split; intros [|[|i]]; by cbn.
  - reflexivity.
  - by cbn.
  - by cbn.
Qed.

(** No function at all meets C8 as first stated: one prompt is
    [A, SPT, B, SPT, C] for two choices of runs without occurrence of the
    separator, with different boundaries. *)
Lemma two_separators_without_overlap_condition_unsatisfiable
    (f : list Z -> list Z -> list Z * list nat) :
  ~ (forall spt A B C : list Z,
       (forall i, ~ occurs_at spt A i) ->
       (forall i, ~ occurs_at spt B i) ->
       (forall i, ~ occurs_at spt C i) ->
       f spt (A ++ spt ++ B ++ spt ++ C) =
       (A ++ B ++ C, [length A; length A + length B])).
Proof.
  intros Hf.
  assert (Hnil : forall i, ~ occurs_at [1; 1]%Z [] i) by (by intros [|i]).
  assert (Hone : forall i, ~ occurs_at [1; 1]%Z [1]%Z i) by (by intros [|[|i]]).
  assert (Hthree : forall i, ~ occurs_at [1; 1]%Z [3]%Z i) by (by intros [|[|i]]).
  pose proof (Hf [1; 1]%Z [1]%Z [] [3]%Z Hone Hnil Hthree) as H1.
  pose proof (Hf [1; 1]%Z [] [1]%Z [3]%Z Hnil Hone Hthree) as H2.
  cbn in H1, H2. rewrite H1 in H2. discriminate H2.
Qed.

(** ** Shapes of the stacked blob and of its chunks *)

Section Shapes.
Context {sha : Sha256}.

Lemma fmt_valid_cases (fmt : string) (P : string -> Prop) :
  fmt_valid fmt -> P "vllm" -> P "huggingface" -> P fmt.
Proof. by intros [-> | ->]. Qed.

Lemma num_tokens_in_kv_tuple (sh : list nat) (kv : KVCache) (fmt : string) :
  fmt_valid fmt ->
  kv_well_formed sh kv ->
  _num_tokens_in_kv (KVTuple kv) fmt = Ok (tokens_of_shape fmt sh).
Proof.
  intros Hfmt (Hne & Hsh & Hall).
  destruct kv as [|[k v] kv]; [done|].
  apply Forall_cons in Hall as [[[Hk _] _] _].
  destruct k as [sk dk]. cbn in Hk. subst sk.
  destruct sh as [|a [|b [|c [|]]]]; try discriminate Hsh.
  by destruct Hfmt as [-> | ->].
Qed.

Lemma num_tokens_in_kv_blob (sh : list nat) (L : nat) (data : list Z)
    (fmt : string) :
  fmt_valid fmt -> length sh = 3 -> 0 < L ->
  _num_tokens_in_kv (KVBlob (mkTensor (L :: 2 :: sh) data)) fmt =
  Ok (tokens_of_shape fmt sh).
Proof.
  intros Hfmt Hsh HL.
  destruct sh as [|a [|b [|c [|]]]]; try discriminate Hsh.
  destruct L as [|L]; [lia|].
  by destruct Hfmt as [-> | ->].
Qed.

Lemma slice_kv_at_ok (self : LMCacheEngine) (start L : nat) (sh : list nat)
    (data : list Z) (fmt : string) :
  fmt_valid fmt -> length sh = 3 ->
  exists chunks,
    _slice_kv_at self start (mkTensor (L :: 2 :: sh) data) fmt = Ok chunks /\
    length chunks =
    Nat.max (div_up (tokens_of_shape fmt sh - Nat.min start (tokens_of_shape fmt sh))
                    (Pos.to_nat (chunk_size self))) 1.
Proof.
  intros Hfmt Hsh.
  destruct sh as [|a [|b [|c [|]]]]; try discriminate Hsh.
  assert (Hc : (Pos.to_nat (chunk_size self) =? 0) = false).
  { apply Nat.eqb_neq. lia. }
  destruct Hfmt as [-> | ->]; unfold _slice_kv_at, slice_from, split;
    cbn [shape tdata narrow lookup list_lookup rbind decide];
    cbn; rewrite Hc; eexists; (split; [reflexivity|]);
    by rewrite length_map, length_seq.
Qed.

End Shapes.

(** ** Store *)

Section Store.
Context {sha : Sha256}.

Lemma store_run (self : LMCacheEngine) (tokens : Tensor Z) (kv : KVCache)
    (mask : option (Tensor bool)) (sh : list nat) (skip_existing blocking : bool) :
  store_preconditions self tokens kv mask sh ->
  exists blob,
    _tuple_kv_to_blob kv = Ok blob /\
    shape blob = length kv :: 2 :: sh /\
    store tokens kv mask skip_existing blocking self =
    match _make_chunks self (tdata tokens) blob (fmt (metadata self))
            (store_num_skip_tok tokens mask / Pos.to_nat (chunk_size self))
            skip_existing with
    | Ok chunks => (Ok None, stored self chunks blocking)
    | Raise e => (Raise e, self)
    end.
Proof.
  intros (Hfmt & Hrank & Hwf & Hmrank & Hlen & Halign & Hkv & Hcount).
  eexists. split; [by apply (tuple_kv_to_blob_ok sh)|]. split; [done|].
  unfold store_num_skip_tok, store_mask in *.
  apply Nat.eqb_eq in Hrank, Hmrank, Hlen, Halign, Hcount.
  unfold store, bind, get_self, assert, ret, raise, lift, modify.
  rewrite Hrank, Hmrank, Hlen, Halign.
  rewrite (num_tokens_in_kv_tuple sh) by done.
  rewrite Hcount, (tuple_kv_to_blob_ok sh) by done.
  by destruct (_make_chunks _ _ _ _ _ _).
Qed.

Lemma length_chunk_tokens (self : LMCacheEngine) (tokens : list Z) :
  length (_chunk_tokens self tokens) =
  div_up (length tokens) (Pos.to_nat (chunk_size self)).
Proof. unfold _chunk_tokens, py_range. by rewrite !length_map, length_seq. Qed.

Lemma foldl_insert_keeps (pairs : list (CacheEngineKey * Tensor Z))
    (m : gmap CacheEngineKey (Tensor Z)) (key : CacheEngineKey) :
  is_Some (m !! key) ->
  is_Some (foldl (fun m kv => <[kv.1 := kv.2]> m) m pairs !! key).
Proof.
  revert m. induction pairs as [|[k v] pairs IH]; intros m Hm; [done|].
  cbn [foldl]. apply IH. cbn [fst snd].
  destruct (decide (k = key)) as [->|Hne].
  - rewrite lookup_insert_eq. by eexists.
  - by rewrite lookup_insert_ne.
Qed.

Lemma foldl_insert_written (pairs : list (CacheEngineKey * Tensor Z))
    (m : gmap CacheEngineKey (Tensor Z)) (key : CacheEngineKey) :
  key ∈ map fst pairs ->
  is_Some (foldl (fun m kv => <[kv.1 := kv.2]> m) m pairs !! key).
Proof.
  revert m. induction pairs as [|[k v] pairs IH]; intros m Hin.
  - by apply elem_of_nil in Hin.
  - cbn [map fst] in Hin. apply elem_of_cons in Hin as [->|Hin].
    + cbn [foldl]. apply foldl_insert_keeps. cbn [fst snd].
      rewrite lookup_insert_eq. by eexists.
    + cbn [foldl]. by apply IH.
Qed.

Lemma batched_put_contains (b : StorageBackend)
    (pairs : list (CacheEngineKey * Tensor Z)) (blocking : bool)
    (key : CacheEngineKey) :
  key ∈ map fst pairs -> contains (batched_put b pairs blocking).1 key = true.
Proof.
  intros Hin. unfold contains, batched_put. cbn [fst kv_store].
  apply bool_decide_eq_true. by apply foldl_insert_written.
Qed.

Lemma tlen_wf_rank1 {A} (t : Tensor A) :
  rank t = 1 -> tensor_wf t -> tlen t = length (tdata t).
Proof.
  unfold rank, tensor_wf, numel, tlen. intros Hr Hwf.
  destruct (shape t) as [|n [|]]; try discriminate Hr.
  rewrite Hwf. unfold prod_list. cbn. lia.
Qed.

Lemma make_chunks_skip_existing_ok (self : LMCacheEngine) (tokens : list Z)
    (L : nat) (sh : list nat) (data : list Z) (fmt : string) (k : nat) :
  fmt_valid fmt -> length sh = 3 -> 0 < L ->
  exists chunks,
    _make_chunks_skip_existing self tokens (mkTensor (L :: 2 :: sh) data) fmt k
    = Ok chunks.
Proof.
  intros Hfmt Hsh HL. unfold _make_chunks_skip_existing.
  rewrite (num_tokens_in_kv_blob sh) by done. cbn [rbind].
  destruct (first_missing _ _ _ _) as [[start|] idx]; [|by eexists].
  destruct (slice_kv_at_ok self start L sh data fmt Hfmt Hsh) as (kvs & -> & _).
  by eexists.
Qed.

(** C10.  Without [skip_existing], a call of [store] that passes the
    checks of its arguments fails on the assertion of [_make_chunks],
    the engine and its backend as they were, when the mask excludes at
    least one whole chunk; when it excludes none, one pair per chunk of
    the tokens goes to the backend, whatever the backend held, and once
    a blocking call has returned all the chunk keys are present. *)
Theorem store_without_skip_existing (self : LMCacheEngine) (tokens : Tensor Z)
    (kv : KVCache) (mask : option (Tensor bool)) (sh : list nat)
    (blocking : bool) :
  store_preconditions self tokens kv mask sh ->
  (0 < store_num_skip_tok tokens mask / Pos.to_nat (chunk_size self) ->
   store tokens kv mask false blocking self =
   (Raise (AssertionError EmptyString), self)) /\
  (store_num_skip_tok tokens mask / Pos.to_nat (chunk_size self) = 0 ->
   exists blob chunk_kvs,
     _tuple_kv_to_blob kv = Ok blob /\
     _chunk_kv self blob (fmt (metadata self)) = Ok chunk_kvs /\
     let chunks := zip (_prefix_hash (_chunk_tokens self (tdata tokens)) 0)
                       chunk_kvs in
     store tokens kv mask false blocking self =
     (Ok None, stored self chunks blocking) /\
     map fst (keyed self chunks) = chunk_keys self (tdata tokens) 0 /\
     length chunks =
     div_up (length (tdata tokens)) (Pos.to_nat (chunk_size self)) /\
     (blocking = true ->
      forall key, key ∈ chunk_keys self (tdata tokens) 0 ->
        contains (engine_ (stored self chunks true)) key = true)).
Proof.
  intros Hpre.
  destruct (store_run self tokens kv mask sh false blocking Hpre)
    as (blob & Hblob & Hshape & Hstore).
  destruct Hpre as (Hfmt & Hrank & Hwf & Hmrank & Hlen & Halign & Hkv & Hcount).
  split.
  - intros Hskip. rewrite Hstore. unfold _make_chunks.
    destruct (_ / _ =? 0) eqn:E; [|done].
    apply Nat.eqb_eq in E. lia.
  - intros Hskip. rewrite Hskip in Hstore.
    assert (Hnst : store_num_skip_tok tokens mask = 0)
      by (rewrite Halign, Hskip; done).
    destruct blob as [bs data]. cbn in Hshape. subst bs.
    destruct Hkv as (Hne & Hsh & Hall).
    destruct (slice_kv_at_ok self 0 (length kv) sh data (fmt (metadata self))
                Hfmt Hsh) as (chunk_kvs & Hkvs & Hlenkvs).
    exists (mkTensor (length kv :: 2 :: sh) data), chunk_kvs.
    split; [done|]. split; [exact Hkvs|]. cbn zeta.
    assert (Hle : length (_prefix_hash (_chunk_tokens self (tdata tokens)) 0)
                  <= length chunk_kvs).
    { rewrite length_prefix_hash, length_chunk_tokens, Hlenkvs.
      rewrite Nat.min_0_l, !Nat.sub_0_r.
      rewrite <- (tlen_wf_rank1 tokens) by done. rewrite Hcount, Hnst, Nat.add_0_r. lia. }
    split; [|split; [|split]].
    + rewrite Hstore. unfold _make_chunks. cbn [Nat.eqb].
      fold (_chunk_kv self (mkTensor (length kv :: 2 :: sh) data)
              (fmt (metadata self))) in Hkvs.
      by rewrite Hkvs.
    + unfold keyed, chunk_keys. rewrite map_map. cbn [fst].
      rewrite <- (map_map fst (fun h => _make_key self h (fmt (metadata self)))).
      f_equal. by apply fst_zip.
    + rewrite length_zip, length_prefix_hash, length_chunk_tokens in *. lia.
    + intros _ key Hkey. unfold stored. cbn [engine_ add_log set_backend].
      apply batched_put_contains.
      unfold keyed. rewrite map_map. cbn [fst].
      rewrite <- (map_map fst (fun h => _make_key self h (fmt (metadata self)))).
      rewrite fst_zip by done. exact Hkey.
Qed.

End Store.

Lemma toy_store_preconditions :
  store_preconditions toy_engine toy_tokens (toy_kv [1; 2; 3; 4; 5]%Z) None [5; 1; 1].
Proof.
  unfold store_preconditions. repeat split; try done.
  - by left.
  - by repeat constructor.
Qed.

Lemma toy_store_preconditions_masked :
  store_preconditions toy_engine toy_tokens (toy_kv [3; 4; 5]%Z)
    (Some (tensor1d [false; false; true; true; true])) [3; 1; 1].
Proof.
  unfold store_preconditions. repeat split; try done.
  - by left.
  - by repeat constructor.
Qed.

Lemma store_without_skip_existing_witness :
  (store_preconditions toy_engine toy_tokens (toy_kv [3; 4; 5]%Z)
     (Some (tensor1d [false; false; true; true; true])) [3; 1; 1] /\
   store (sha := toy_digest) toy_tokens (toy_kv [3; 4; 5]%Z)
     (Some (tensor1d [false; false; true; true; true])) false true toy_engine
   = (Raise (AssertionError EmptyString), toy_engine)) /\
  (store_preconditions toy_engine toy_tokens (toy_kv [1; 2; 3; 4; 5]%Z) None
     [5; 1; 1] /\
   (store (sha := toy_digest) toy_tokens (toy_kv [1; 2; 3; 4; 5]%Z) None false true
      toy_engine).1 = Ok None /\
   forall key,
     key ∈ chunk_keys (sha := toy_digest) toy_engine (tdata toy_tokens) 0 ->
     contains
       (engine_ (store (sha := toy_digest) toy_tokens (toy_kv [1; 2; 3; 4; 5]%Z)
                   None false true toy_engine).2) key = true).
Proof.
  split.
  - split; [exact toy_store_preconditions_masked|].
    apply (store_without_skip_existing (sha := toy_digest) toy_engine toy_tokens
             (toy_kv [3; 4; 5]%Z)
             (Some (tensor1d [false; false; true; true; true])) [3; 1; 1] true
             toy_store_preconditions_masked).
    vm_compute. lia.
  - split; [exact toy_store_preconditions|].
    destruct (store_without_skip_existing (sha := toy_digest) toy_engine toy_tokens
                (toy_kv [1; 2; 3; 4; 5]%Z) None [5; 1; 1] true
                toy_store_preconditions) as [_ Hall].
    destruct (Hall eq_refl) as (blob & chunk_kvs & _ & _ & Hst & _ & _ & Hkeys).
    rewrite Hst. split; [reflexivity|exact (Hkeys eq_refl)].
Defined.

Section StoreResult.
Context {sha : Sha256}.

Lemma store_never_returns_count (self : LMCacheEngine) (tokens : Tensor Z)
    (kv : KVCache) (mask : option (Tensor bool)) (skip_existing blocking : bool)
    (n : nat) :
  (store tokens kv mask skip_existing blocking self).1 <> Ok (Some n).
Proof.
  unfold store, bind, get_self, assert, ret, raise, lift, modify.
  repeat case_match; cbn [fst]; congruence.
Qed.

(** C3, as amended.  A call of [store] that passes the checks of its
    arguments, with [skip_existing] or with no chunk masked out,
    returns [None] whether [blocking] is set or not; the number of
    chunks written, which is the count the backend reports for the
    pairs it was handed, goes to the log only.  No call of [store]
    returns a count. *)
Theorem store_returns_none_and_logs_count (self : LMCacheEngine)
    (tokens : Tensor Z) (kv : KVCache) (mask : option (Tensor bool))
    (sh : list nat) (skip_existing blocking : bool) :
  store_preconditions self tokens kv mask sh ->
  skip_existing = true \/
  store_num_skip_tok tokens mask / Pos.to_nat (chunk_size self) = 0 ->
  (exists blob chunks,
     _tuple_kv_to_blob kv = Ok blob /\
     _make_chunks self (tdata tokens) blob (fmt (metadata self))
       (store_num_skip_tok tokens mask / Pos.to_nat (chunk_size self))
       skip_existing = Ok chunks /\
     store tokens kv mask skip_existing blocking self =
     (Ok None, stored self chunks blocking) /\
     (batched_put (engine_ self) (keyed self chunks) blocking).2 = length chunks /\
     logged (stored self chunks blocking) =
     logged self ++ [LogStored (length chunks)]) /\
  (forall n, (store tokens kv mask skip_existing blocking self).1 <> Ok (Some n)).
Proof.
  intros Hpre Hmode. split; [|intros n; apply store_never_returns_count].
  destruct (store_run self tokens kv mask sh skip_existing blocking Hpre)
    as (blob & Hblob & Hshape & Hstore).
  destruct Hpre as (Hfmt & Hrank & Hwf & Hmrank & Hlen & Halign & Hkv & Hcount).
  destruct Hkv as (Hne & Hsh & Hall).
  destruct blob as [bs data]. cbn in Hshape. subst bs.
  assert (HL : 0 < length kv) by (destruct kv; [done|cbn; lia]).
  assert (Hchunks : exists chunks,
            _make_chunks self (tdata tokens)
              (mkTensor (length kv :: 2 :: sh) data) (fmt (metadata self))
              (store_num_skip_tok tokens mask / Pos.to_nat (chunk_size self))
              skip_existing = Ok chunks).
  { unfold _make_chunks. destruct skip_existing.
    - by apply make_chunks_skip_existing_ok.
    - destruct Hmode as [?| ->]; [done|]. cbn [Nat.eqb]. unfold _chunk_kv.
      destruct (slice_kv_at_ok self 0 (length kv) sh data (fmt (metadata self))
                  Hfmt Hsh) as (chunk_kvs & -> & _).
      by eexists. }
  destruct Hchunks as [chunks Hchunks].
  exists (mkTensor (length kv :: 2 :: sh) data), chunks.
  split; [done|]. split; [done|]. split.
  - by rewrite Hstore, Hchunks.
  - unfold stored, batched_put, keyed. cbn [snd logged add_log set_backend].
    by rewrite !length_map.
Qed.

End StoreResult.

Lemma store_returns_none_and_logs_count_witness :
  store_preconditions toy_engine toy_tokens (toy_kv [1; 2; 3; 4; 5]%Z) None
    [5; 1; 1] /\
  (store (sha := toy_digest) toy_tokens (toy_kv [1; 2; 3; 4; 5]%Z) None true true
     toy_engine).1 = Ok None /\
  logged toy_stored_engine = [LogStored 3].
Proof.
  split; [exact toy_store_preconditions|].
  destruct (store_returns_none_and_logs_count (sha := toy_digest) toy_engine
              toy_tokens (toy_kv [1; 2; 3; 4; 5]%Z) None [5; 1; 1] true true
              toy_store_preconditions (or_introl eq_refl))
    as [(blob & chunks & _ & _ & Hst & _ & _) _].
  split; [by rewrite Hst|]. vm_compute. reflexivity.
Defined.

(** C3, as first stated, fails: [store] writes three chunks, the backend
    reports three, and the value of the call is [None], not the count. *)
Lemma store_returns_count_counterexample :
  store_preconditions toy_engine toy_tokens (toy_kv [1; 2; 3; 4; 5]%Z) None
    [5; 1; 1] /\
  size (kv_store (engine_ toy_stored_engine)) = 3 /\
  logged toy_stored_engine = [LogStored 3] /\
  (store (sha := toy_digest) toy_tokens (toy_kv [1; 2; 3; 4; 5]%Z) None true true
     toy_engine).1 = Ok None /\
  (store (sha := toy_digest) toy_tokens (toy_kv [1; 2; 3; 4; 5]%Z) None true true
     toy_engine).1 <> Ok (Some 3).
Proof.
  split; [exact toy_store_preconditions|].
  split; [vm_compute; reflexivity|].
  split; [vm_compute; reflexivity|].
  split; [vm_compute; reflexivity|].
  vm_compute. discriminate.
Qed.

(** ** Checks of the arguments of store *)

Lemma count_true_app (m1 m2 : list bool) :
  count_true (m1 ++ m2) = count_true m1 + count_true m2.
Proof. unfold count_true. by rewrite filter_app, length_app. Qed.

Lemma count_true_replicate (n : nat) (b : bool) :
  count_true (replicate n b) = if b then n else 0.
Proof.
  unfold count_true. induction n as [|n IH]; [by destruct b|].
  cbn [replicate]. destruct b.
  - rewrite filter_cons_True by done. cbn. by rewrite IH.
  - rewrite filter_cons_False by done. exact IH.
Qed.

Lemma leading_false_run_le (m : list bool) : leading_false_run m <= length m.
Proof. induction m as [|[] m IH]; cbn; lia. Qed.

Lemma suffix_mask_false_count (m : list bool) :
  is_suffix_mask m -> length m - count_true m = leading_false_run m.
Proof.
  intros Hm. pose proof (leading_false_run_le m) as Hle.
  unfold is_suffix_mask in Hm.
  assert (Hc : count_true m = length m - leading_false_run m).
  { rewrite Hm at 1. rewrite count_true_app, !count_true_replicate. lia. }
  lia.
Qed.

Section StoreChecks.
Context {sha : Sha256}.

(** C4, as amended.  [store] fails on an assertion, the engine and its
    backend as they were, when the tokens are not one-dimensional, when
    the mask is not one-dimensional or not of the length of the tokens,
    when the number of false entries of the mask (for a suffix mask,
    the length of its leading run of false entries) is not a multiple
    of the chunk size, or when the nested KV cache holds a number of
    tokens other than the number of tokens less that of the false
    entries. *)
Theorem store_rejects_malformed_arguments (self : LMCacheEngine)
    (tokens : Tensor Z) (kv : KVCache) (mask : option (Tensor bool))
    (skip_existing blocking : bool) :
  let m := store_mask tokens mask in
  let num_skip_tok := store_num_skip_tok tokens mask in
  let c := Pos.to_nat (chunk_size self) in
  rank tokens <> 1 \/
  rank m <> 1 \/
  tlen tokens <> tlen m \/
  ~ Nat.divide c num_skip_tok \/
  (is_suffix_mask (tdata m) /\ tlen m = length (tdata m) /\
   ~ Nat.divide c (leading_false_run (tdata m))) \/
  (exists n, _num_tokens_in_kv (KVTuple kv) (fmt (metadata self)) = Ok n /\
             n <> tlen tokens - num_skip_tok) ->
  exists msg,
    store tokens kv mask skip_existing blocking self =
    (Raise (AssertionError msg), self).
Proof.
  intros m num_skip_tok c Hbad.
  assert (Hbad' : rank tokens <> 1 \/ rank m <> 1 \/ tlen tokens <> tlen m \/
                  num_skip_tok <> num_skip_tok / c * c \/
                  exists n, _num_tokens_in_kv (KVTuple kv) (fmt (metadata self))
                            = Ok n /\ tlen tokens <> n + num_skip_tok).
  { destruct Hbad as [?|[?|[?|[Hdiv|[(Hsuf & Hl & Hdiv)|(n & Hn & Hne)]]]]]; auto.
    - right; right; right; left. intros Heq. apply Hdiv.
      exists (num_skip_tok / c). exact Heq.
    - right; right; right; left. intros Heq. apply Hdiv.
      exists (num_skip_tok / c).
      rewrite <- (suffix_mask_false_count _ Hsuf), <- Hl. exact Heq.
    - right; right; right; right. exists n. split; [done|]. lia. }
  clear Hbad. subst m num_skip_tok c.
  unfold store_num_skip_tok in Hbad'.
  unfold store, bind, get_self, assert, ret, raise, lift, modify.
  fold (store_mask tokens mask).
  destruct (rank tokens =? 1) eqn:E1; cbv beta iota; [|by eexists].
  destruct (rank (store_mask tokens mask) =? 1) eqn:E2; cbv beta iota;
    [|by eexists].
  destruct (tlen tokens =? tlen (store_mask tokens mask)) eqn:E3; cbv beta iota;
    [|by eexists].
  destruct (_ - _ =? _ * _) eqn:E4; cbv beta iota; [|by eexists].
  apply Nat.eqb_eq in E1, E2, E3, E4.
  destruct Hbad' as [?|[?|[?|[?|(n & Hn & Hne)]]]]; try done.
  rewrite Hn. apply Nat.eqb_neq in Hne. rewrite Hne. by eexists.
Qed.

End StoreChecks.

Lemma store_rejects_malformed_arguments_witness :
  ~ Nat.divide (Pos.to_nat (chunk_size toy_engine))
      (store_num_skip_tok toy_tokens
         (Some (tensor1d [false; true; true; true; true]))) /\
  exists msg,
    store (sha := toy_digest) toy_tokens (toy_kv [2; 3; 4; 5]%Z)
      (Some (tensor1d [false; true; true; true; true])) true true toy_engine
    = (Raise (AssertionError msg), toy_engine).
Proof.
  assert (Hodd : ~ Nat.divide (Pos.to_nat (chunk_size toy_engine))
                   (store_num_skip_tok toy_tokens
                      (Some (tensor1d [false; true; true; true; true])))).
  { intros [k Hk]. change (1 = k * 2) in Hk. lia. }
  split; [exact Hodd|].
  apply (store_rejects_malformed_arguments (sha := toy_digest)).
  right; right; right; left. exact Hodd.
Defined.

(** C4, as first stated, fails for a mask that is not a suffix mask: its
    leading run of false entries has length one, not a multiple of the
    chunk size two, the other checks pass, and [store] writes a chunk. *)
Lemma store_leading_false_run_counterexample :
  let mask := tensor1d [false; true; false; true] in
  let tokens := tensor1d [5; 6; 7; 8]%Z in
  leading_false_run (tdata mask) = 1 /\
  ~ Nat.divide (Pos.to_nat (chunk_size toy_engine)) (leading_false_run (tdata mask)) /\
  rank tokens = 1 /\ rank mask = 1 /\ tlen mask = tlen tokens /\
  _num_tokens_in_kv (KVTuple (toy_kv [7; 8]%Z)) (fmt (metadata toy_engine)) =
    Ok (tlen tokens - count_true (tdata mask)) /\
  (store (sha := toy_digest) tokens (toy_kv [7; 8]%Z) (Some mask) true true
     toy_engine).1 = Ok None /\
  size (kv_store (engine_
    (store (sha := toy_digest) tokens (toy_kv [7; 8]%Z) (Some mask) true true
       toy_engine).2)) = 1.
Proof.
  cbn zeta. split; [reflexivity|]. split.
  { intros [k Hk]. change (1 = k * 2) in Hk. lia. }
  repeat split; vm_compute; reflexivity.
Qed.

(** ** Retrieve *)

Lemma length_clear_before (n : nat) (m : list bool) :
  length (clear_before n m) = length m.
Proof. unfold clear_before. rewrite length_app, length_replicate, length_drop. lia. Qed.

Lemma retrieved_mask_lookup (n nst rtc i : nat) :
  retrieved_mask n nst rtc !! i =
  if decide (i < n) then Some (bool_decide (nst <= i < nst + rtc)) else None.
Proof.
  unfold retrieved_mask, clear_from, clear_before.
  rewrite length_app, !length_replicate, length_drop, length_replicate.
  destruct (decide (i < n)) as [Hi|Hi].
  - destruct (decide (i < nst + rtc)) as [Hhi|Hhi].
    + rewrite lookup_app_l by (rewrite length_take, length_app, !length_replicate,
                                 length_drop, length_replicate; lia).
      rewrite lookup_take_lt by done.
      destruct (decide (i < nst)) as [Hlo|Hlo].
      * rewrite lookup_app_l by (rewrite length_replicate; lia).
        rewrite lookup_replicate_2 by lia.
        by rewrite bool_decide_eq_false_2 by lia.
      * rewrite lookup_app_r by (rewrite length_replicate; lia).
        rewrite length_replicate, lookup_drop, lookup_replicate_2 by lia.
        by rewrite bool_decide_eq_true_2 by lia.
    + rewrite lookup_app_r by (rewrite length_take; lia).
      rewrite length_take, length_app, !length_replicate, length_drop,
        length_replicate.
      rewrite lookup_replicate_2 by lia.
      by rewrite bool_decide_eq_false_2 by lia.
  - apply lookup_ge_None.
    rewrite length_app, length_take, length_app, !length_replicate, length_drop,
      length_replicate. lia.
Qed.

Lemma retrieved_mask_length (n nst rtc : nat) : length (retrieved_mask n nst rtc) = n.
Proof.
  unfold retrieved_mask, clear_from.
  rewrite length_app, length_take, length_replicate, length_clear_before,
    length_replicate. lia.
Qed.

Section RetrieveSteps.
Context {sha : Sha256}.

Lemma retrieve_no_hits (self : LMCacheEngine) (tokens : list Z)
    (mask : option (list bool)) (return_tuple : bool) :
  fmt_valid (fmt (metadata self)) ->
  retrieve_hits self tokens mask = [] ->
  retrieve tokens mask return_tuple self =
  (Ok (RetTuple [], replicate (length tokens) false),
   after_miss self (length tokens)).
Proof.
  intros Hfmt Hrun. unfold retrieve_hits, chunk_keys, retrieve_num_skip_chunk,
    retrieve_num_skip_tok in Hrun.
  unfold retrieve, bind, get_self. cbv zeta. rewrite Hrun.
  rewrite length_clear_before, length_replicate.
  by destruct Hfmt as [-> | ->].
Qed.

Lemma retrieve_with_hits (self : LMCacheEngine) (tokens : list Z)
    (mask : option (list bool)) (return_tuple : bool)
    (chunk0 : Tensor Z) (rest sliced : list (Tensor Z)) (first blob : Tensor Z)
    (kv : RetKV) (rtc : nat) :
  let fmt := fmt (metadata self) in
  let nst := retrieve_num_skip_tok mask in
  let nsc := retrieve_num_skip_chunk self mask in
  fmt_valid fmt ->
  retrieve_hits self tokens mask = chunk0 :: rest ->
  _slice_kv_at self (nst - nsc * Pos.to_nat (chunk_size self)) chunk0 fmt
    = Ok sliced ->
  first_item sliced = Ok first ->
  cat (first :: rest) (retrieve_dim fmt + 2) = Ok blob ->
  (if return_tuple then t <- _blob_to_tuple_kv blob;; Ok (RetTuple t)
   else Ok (RetBlob blob)) = Ok kv ->
  count_retrieved kv (retrieve_dim fmt) = Ok rtc ->
  miss_tokens_count self + (hit_tokens_count self + rtc) <> 0 ->
  retrieve tokens mask return_tuple self =
  (Ok (kv, retrieved_mask (length tokens) nst rtc),
   after_hit self return_tuple (S (length rest)) rtc).
Proof.
  intros fmt nst nsc Hfmt Hrun Hslice Hfirst Hcat Hkv Hcount Hden.
  subst fmt nst nsc.
  unfold retrieve_hits, chunk_keys, retrieve_num_skip_chunk,
    retrieve_num_skip_tok in *.
  apply Nat.eqb_neq in Hden.
  unfold retrieve, bind, get_self. cbv zeta. rewrite Hrun.
  destruct Hfmt as [Hf | Hf]; rewrite Hf in *.
  - change (retrieve_dim "vllm") with 0 in *.
    destruct (decide ("vllm" = "huggingface")) as [Hd|_]; [discriminate Hd|].
    destruct (decide ("vllm" = "vllm")) as [_|Hd]; [|done].
    unfold ret, lift, modify, raise in *. cbv beta iota.
    rewrite Hslice, Hfirst, Hcat.
    destruct return_tuple; cbv beta iota.
    + destruct (_blob_to_tuple_kv blob) as [t|e] eqn:Ht;
        cbn [rbind] in Hkv; [|discriminate Hkv].
      injection Hkv as <-. rewrite Hcount.
      cbn [miss_tokens_count hit_tokens_count set_hit_tokens_count add_log].
      by rewrite Hden.
    + injection Hkv as <-. rewrite Hcount.
      cbn [miss_tokens_count hit_tokens_count set_hit_tokens_count add_log].
      by rewrite Hden.
  - change (retrieve_dim "huggingface") with 1 in *.
    destruct (decide ("huggingface" = "huggingface")) as [_|Hd]; [|done].
    unfold ret, lift, modify, raise in *. cbv beta iota.
    rewrite Hslice, Hfirst, Hcat.
    destruct return_tuple; cbv beta iota.
    + destruct (_blob_to_tuple_kv blob) as [t|e] eqn:Ht;
        cbn [rbind] in Hkv; [|discriminate Hkv].
      injection Hkv as <-. rewrite Hcount.
      cbn [miss_tokens_count hit_tokens_count set_hit_tokens_count add_log].
      by rewrite Hden.
    + injection Hkv as <-. rewrite Hcount.
      cbn [miss_tokens_count hit_tokens_count set_hit_tokens_count add_log].
      by rewrite Hden.
Qed.

End RetrieveSteps.

Lemma filter_all {A} (P : A -> Prop) `{forall x, Decision (P x)} (l : list A) :
  Forall P l -> filter P l = l.
Proof.
  induction 1 as [|x l Hx Hl IH]; [done|].
  rewrite filter_cons_True by done. by rewrite IH.
Qed.

Lemma chunk_blob_shape_cases (fmt : string) (L Hd D n : nat) :
  fmt_valid fmt ->
  (fmt = "vllm" /\ retrieve_dim fmt = 0 /\
   chunk_blob_shape fmt L Hd D n = [L; 2; n; Hd; D]) \/
  (fmt = "huggingface" /\ retrieve_dim fmt = 1 /\
   chunk_blob_shape fmt L Hd D n = [L; 2; Hd; n; D]).
Proof. intros [-> | ->]; [left|right]; done. Qed.

Section RetrieveShapes.
Context {sha : Sha256}.

Lemma slice_first_shape (self : LMCacheEngine) (extra : nat) (chunk0 : Tensor Z)
    (fmt : string) (L Hd D n0 : nat) :
  fmt_valid fmt ->
  shape chunk0 = chunk_blob_shape fmt L Hd D n0 ->
  exists sliced first,
    _slice_kv_at self extra chunk0 fmt = Ok sliced /\
    first_item sliced = Ok first /\
    shape first =
    chunk_blob_shape fmt L Hd D (Nat.min (Pos.to_nat (chunk_size self)) (n0 - extra)).
Proof.
  intros Hfmt Hshape.
  assert (Hc : (Pos.to_nat (chunk_size self) =? 0) = false).
  { apply Nat.eqb_neq. lia. }
  destruct chunk0 as [s d]. cbn [shape] in Hshape. subst s.
  destruct (chunk_blob_shape_cases fmt L Hd D n0 Hfmt)
    as [(-> & _ & Hs) | (-> & _ & Hs)]; rewrite Hs.
  - unfold _slice_kv_at, slice_from, split.
    destruct (decide ("vllm" = "vllm")) as [_|?]; [|done].
    cbn. rewrite Hc.
    destruct (Nat.max _ 1) as [|k] eqn:E; [lia|].
    eexists _, _. split; [reflexivity|]. cbn [seq map first_item].
    split; [reflexivity|]. cbn.
    unfold chunk_blob_shape.
    destruct (decide ("vllm" = "huggingface")) as [Hd'|_]; [discriminate Hd'|].
    by replace (n0 - Nat.min extra n0 - 0) with (n0 - extra) by lia.
  - unfold _slice_kv_at, slice_from, split.
    destruct (decide ("huggingface" = "vllm")) as [Hd'|_]; [discriminate Hd'|].
    destruct (decide ("huggingface" = "huggingface")) as [_|?]; [|done].
    cbn. rewrite Hc.
    destruct (Nat.max _ 1) as [|k] eqn:E; [lia|].
    eexists _, _. split; [reflexivity|]. cbn [seq map first_item].
    split; [reflexivity|]. cbn.
    unfold chunk_blob_shape.
    destruct (decide ("huggingface" = "huggingface")) as [_|?]; [|done].
    by replace (n0 - Nat.min extra n0 - 0) with (n0 - extra) by lia.
Qed.

End RetrieveShapes.

(** ** Concatenation of chunks *)

Lemma cat_same_shape {A} (k : nat) (sh : list nat) (ts : list (Tensor A))
    (ns : list nat) :
  k < length sh -> 2 <= length sh -> ts <> [] ->
  Forall2 (fun t n => shape t = <[k := n]> sh) ts ns ->
  exists blob, cat ts k = Ok blob /\ shape blob = <[k := sum_list ns]> sh.
Proof.
  intros Hk Hrank Hne Hshapes.
  assert (Hex : Forall (fun t : Tensor A => exists n, shape t = <[k := n]> sh) ts).
  { clear -Hshapes. induction Hshapes; constructor; eauto. }
  assert (Hall : Forall (fun t : Tensor A => shape t <> [0]) ts).
  { eapply Forall_impl; [exact Hex|]. intros t [n Hs] Ht. rewrite Hs in Ht.
    apply (f_equal length) in Ht. rewrite length_insert in Ht. cbn in Ht. lia. }
  unfold cat. destruct ts as [|t0 rest0]; [done|]. clear Hne.
  rewrite (filter_all _ _ Hall).
  destruct ns as [|n0 ns]; [by apply Forall2_cons_nil_inv in Hshapes|].
  apply Forall2_cons in Hshapes as [Ht0 Hrest].
  apply Forall_cons in Hex as [_ Hex].
  rewrite Ht0, list_lookup_insert_eq by done.
  replace (forallb _ rest0) with true; cycle 1.
  { symmetry. apply forallb_forall. intros u Hu.
    apply bool_decide_eq_true. apply list_elem_of_In in Hu.
    rewrite Forall_forall in Hex. destruct (Hex u Hu) as [n ->].
    by rewrite !list_insert_insert_eq. }
  eexists. split; [reflexivity|]. cbn [shape].
  rewrite list_insert_insert_eq. f_equal.
  cbn [map sum_list sum_list_with]. rewrite Ht0, list_lookup_insert_eq by done.
  cbn [default]. f_equal.
  clear -Hrest Hk. induction Hrest as [|u n rest ns Hu Hrest IH]; [done|].
  cbn [map sum_list sum_list_with]. rewrite Hu, list_lookup_insert_eq by done.
  cbn [default]. by rewrite IH.
Qed.

Section RetrieveAssembly.
Context {sha : Sha256}.

Lemma blob_to_tuple_kv_shape (blob : Tensor Z) (L : nat) (rest : list nat) :
  shape blob = S L :: 2 :: rest ->
  exists layer0 layers,
    _blob_to_tuple_kv blob = Ok (layer0 :: layers) /\ shape layer0.1 = rest.
Proof.
  intros Hshape. destruct blob as [s d]. cbn [shape] in Hshape. subst s.
  unfold _blob_to_tuple_kv, unbind0. cbn [shape tdata rbind].
  rewrite (mapM_ok _ (fun inner =>
             (mkTensor rest (block (prod_list rest) 0 (tdata inner)),
              mkTensor rest (block (prod_list rest) 1 (tdata inner))))).
  - cbn [seq map]. by eexists _, _.
  - apply Forall_fmap, Forall_forall. by intros i _.
Qed.

Lemma retrieved_kv_ok (fmt : string) (L Hd D T : nat) (blob : Tensor Z)
    (return_tuple : bool) :
  fmt_valid fmt -> 0 < L -> 0 < Hd -> 0 < D ->
  shape blob = chunk_blob_shape fmt L Hd D T ->
  exists kv,
    (if return_tuple then t <- _blob_to_tuple_kv blob;; Ok (RetTuple t)
     else Ok (RetBlob blob)) = Ok kv /\
    count_retrieved kv (retrieve_dim fmt) = Ok T.
Proof.
  intros Hfmt HL HHd HD Hshape.
  destruct L as [|L]; [lia|].
  destruct return_tuple.
  - destruct (chunk_blob_shape_cases fmt (S L) Hd D T Hfmt)
      as [(-> & -> & Hs) | (-> & -> & Hs)]; rewrite Hs in Hshape;
      destruct (blob_to_tuple_kv_shape blob L _ Hshape)
        as (layer0 & layers & -> & Hl0);
      eexists; (split; [reflexivity|]);
      unfold count_retrieved, shape_at; by rewrite Hl0.
  - eexists. split; [reflexivity|]. unfold count_retrieved, numel, shape_at.
    destruct (chunk_blob_shape_cases fmt (S L) Hd D T Hfmt)
      as [(-> & -> & Hs) | (-> & -> & Hs)]; rewrite Hshape, Hs;
      unfold prod_list; cbn [foldr lookup list_lookup Nat.add].
    + destruct T as [|T].
      * by replace (S L * (2 * (0 * (Hd * (D * 1))))) with 0 by lia.
      * destruct (_ =? 0) eqn:E; [|done]. apply Nat.eqb_eq in E. nia.
    + destruct T as [|T].
      * by replace (S L * (2 * (Hd * (0 * (D * 1))))) with 0 by lia.
      * destruct (_ =? 0) eqn:E; [|done]. apply Nat.eqb_eq in E. nia.
Qed.

End RetrieveAssembly.

Lemma chunk_blob_shape_insert (fmt : string) (L Hd D n : nat) :
  fmt_valid fmt ->
  chunk_blob_shape fmt L Hd D n =
  <[retrieve_dim fmt + 2 := n]> (chunk_blob_shape fmt L Hd D 0).
Proof. by intros [-> | ->]. Qed.

Lemma length_chunk_blob_shape (fmt : string) (L Hd D n : nat) :
  length (chunk_blob_shape fmt L Hd D n) = 5.
Proof. unfold chunk_blob_shape. by destruct (decide _). Qed.

Lemma retrieve_dim_le (fmt : string) : retrieve_dim fmt <= 1.
Proof. unfold retrieve_dim. destruct (decide _); lia. Qed.

Lemma take_hits_in_order (b : StorageBackend) (keys : list CacheEngineKey) :
  batched_get b (take (length (take_hits (batched_get b keys))) keys) =
    map Some (take_hits (batched_get b keys)) /\
  (forall key, keys !! length (take_hits (batched_get b keys)) = Some key ->
     contains b key = false).
Proof.
  induction keys as [|k keys [IH1 IH2]]; [done|].
  cbn [batched_get map take_hits].
  destruct (kv_store b !! k) as [blob|] eqn:Hk.
  - cbn [length take batched_get map]. rewrite Hk. split.
    + f_equal. exact IH1.
    + intros key Hkey. by apply IH2.
  - split; [done|]. intros key [= <-]. by apply contains_false.
Qed.

Lemma take_hits_agree (b b' : StorageBackend) (keys : list CacheEngineKey) :
  (forall key, key ∈ take (S (length (take_hits (batched_get b keys)))) keys ->
     kv_store b' !! key = kv_store b !! key) ->
  take_hits (batched_get b' keys) = take_hits (batched_get b keys).
Proof.
  induction keys as [|k keys IH]; [done|].
  cbn [batched_get map take_hits]. intros Hagree.
  destruct (kv_store b !! k) as [blob|] eqn:Hk.
  - rewrite (Hagree k), Hk; cycle 1.
    { cbn [length take]. by constructor. }
    f_equal. apply IH. intros key Hkey. apply Hagree.
    cbn [length take] in *. by constructor.
  - rewrite (Hagree k), Hk; [done|]. cbn [length take]. by constructor.
Qed.

Section RetrieveResult.
Context {sha : Sha256}.

Lemma retrieve_explicit (self : LMCacheEngine) (tokens : list Z)
    (mask : option (list bool)) (return_tuple : bool) (L Hd D : nat)
    (ns : list nat) :
  let fmt := fmt (metadata self) in
  let c := Pos.to_nat (chunk_size self) in
  let nst := retrieve_num_skip_tok mask in
  let nsc := retrieve_num_skip_chunk self mask in
  let run := retrieve_hits self tokens mask in
  let T := retrieved_tokens c (nst - nsc * c) ns in
  fmt_valid fmt -> 0 < L -> 0 < Hd -> 0 < D ->
  Forall2 (fun blob n => shape blob = chunk_blob_shape fmt L Hd D n) run ns ->
  (run <> [] -> miss_tokens_count self + (hit_tokens_count self + T) <> 0) ->
  (run = [] /\
   retrieve tokens mask return_tuple self =
   (Ok (RetTuple [], replicate (length tokens) false),
    after_miss self (length tokens))) \/
  (exists chunk0 rest sliced first blob kv,
     run = chunk0 :: rest /\
     _slice_kv_at self (nst - nsc * c) chunk0 fmt = Ok sliced /\
     first_item sliced = Ok first /\
     cat (first :: rest) (retrieve_dim fmt + 2) = Ok blob /\
     (if return_tuple then t <- _blob_to_tuple_kv blob;; Ok (RetTuple t)
      else Ok (RetBlob blob)) = Ok kv /\
     count_retrieved kv (retrieve_dim fmt) = Ok T /\
     retrieve tokens mask return_tuple self =
     (Ok (kv, retrieved_mask (length tokens) nst T),
      after_hit self return_tuple (S (length rest)) T)).
Proof.
  intros fmt c nst nsc run T Hfmt HL HHd HD Hshapes Hden.
  destruct run as [|chunk0 rest] eqn:Hrun.
  - left. split; [done|]. by apply retrieve_no_hits.
  - right. destruct ns as [|n0 ns']; [by apply Forall2_cons_nil_inv in Hshapes|].
    apply Forall2_cons in Hshapes as [Hshape0 Hrest].
    destruct (slice_first_shape self (nst - nsc * c) chunk0 fmt L Hd D n0
                Hfmt Hshape0) as (sliced & first & Hslice & Hfirst & Hsf).
    pose proof (retrieve_dim_le fmt) as Hdim.
    destruct (cat_same_shape (retrieve_dim fmt + 2) (chunk_blob_shape fmt L Hd D 0)
                (first :: rest) (Nat.min c (n0 - (nst - nsc * c)) :: ns'))
      as (blob & Hcat & Hsb).
    { rewrite length_chunk_blob_shape. lia. }
    { rewrite length_chunk_blob_shape. lia. }
    { done. }
    { constructor.
      - by rewrite <- chunk_blob_shape_insert.
      - eapply Forall2_impl; [exact Hrest|]. intros t n Ht. cbn beta in Ht.
        by rewrite <- chunk_blob_shape_insert. }
    rewrite <- chunk_blob_shape_insert in Hsb by done.
    destruct (retrieved_kv_ok fmt L Hd D _ blob return_tuple Hfmt HL HHd HD Hsb)
      as (kv & Hkv & Hcount).
    exists chunk0, rest, sliced, first, blob, kv.
    repeat (split; [done|]).
    apply (retrieve_with_hits self tokens mask return_tuple chunk0 rest sliced
             first blob kv); try done.
    apply Hden. done.
Qed.

End RetrieveResult.

(** The kept chunks hold at least one token when the first of them is a
    whole chunk of the tokens and the mask leaves a token to retrieve:
    the hit-rate denominator is then positive. *)
Lemma retrieved_tokens_positive (c nst n : nat) (rest : list nat) :
  0 < c -> nst < n ->
  0 < retrieved_tokens c (nst - nst / c * c) (Nat.min c (n - nst / c * c) :: rest).
Proof.
  intros Hc Hn. unfold retrieved_tokens.
  pose proof (Nat.div_mod_eq nst c) as Hdm.
  pose proof (Nat.mod_upper_bound nst c ltac:(lia)) as Hr.
  replace (nst / c * c) with (c * (nst / c)) by lia.
  remember (c * (nst / c)) as q. remember (nst mod c) as r. lia.
Qed.

(** ** Backends filled by store *)

Lemma shaped_sizes (fmt : string) (L Hd D : nat) (run : list (Tensor Z)) :
  fmt_valid fmt ->
  Forall (fun blob => exists n, shape blob = chunk_blob_shape fmt L Hd D n) run ->
  Forall2 (fun blob n => shape blob = chunk_blob_shape fmt L Hd D n)
          run (map (blob_tokens fmt) run).
Proof.
  intros Hfmt. induction 1 as [|blob run [n Hn] Hrun IH]; [constructor|].
  cbn [map]. constructor; [|exact IH].
  unfold blob_tokens. rewrite Hn.
  by destruct Hfmt as [-> | ->].
Qed.

Lemma take_hits_shaped (fmt : string) (L Hd D : nat) (b : StorageBackend)
    (keys : list CacheEngineKey) :
  backend_shaped fmt L Hd D b ->
  Forall (fun blob => exists n, shape blob = chunk_blob_shape fmt L Hd D n)
         (take_hits (batched_get b keys)).
Proof.
  intros Hb. induction keys as [|k keys IH]; [constructor|].
  cbn [batched_get map take_hits].
  destruct (kv_store b !! k) as [blob|] eqn:Hk; [|constructor].
  constructor; [by eapply Hb|exact IH].
Qed.

Lemma batched_put_shaped (fmt : string) (L Hd D : nat) (b : StorageBackend)
    (pairs : list (CacheEngineKey * Tensor Z)) (blocking : bool) :
  backend_shaped fmt L Hd D b ->
  Forall (fun kv => exists n, shape kv.2 = chunk_blob_shape fmt L Hd D n) pairs ->
  backend_shaped fmt L Hd D (batched_put b pairs blocking).1.
Proof.
  unfold backend_shaped, batched_put. cbn [fst kv_store].
  generalize (kv_store b) as m. intros m Hm Hpairs. revert m Hm.
  induction Hpairs as [|[k v] pairs Hv Hpairs IH]; intros m Hm; [exact Hm|].
  cbn [foldl]. apply IH. intros key blob. cbn [fst snd].
  destruct (decide (k = key)) as [->|Hne].
  - rewrite lookup_insert_eq. by intros [= <-].
  - rewrite lookup_insert_ne by done. apply Hm.
Qed.

Section StoreShapes.
Context {sha : Sha256}.

Lemma slice_kv_at_shaped (self : LMCacheEngine) (start : nat) (blob : Tensor Z)
    (fmt : string) (L Hd D n : nat) (chunks : list (Tensor Z)) :
  fmt_valid fmt ->
  shape blob = chunk_blob_shape fmt L Hd D n ->
  _slice_kv_at self start blob fmt = Ok chunks ->
  Forall (fun chunk => exists m, shape chunk = chunk_blob_shape fmt L Hd D m) chunks.
Proof.
  intros Hfmt Hshape Hslice.
  assert (Hc : (Pos.to_nat (chunk_size self) =? 0) = false).
  { apply Nat.eqb_neq. lia. }
  destruct blob as [s d]. cbn [shape] in Hshape. subst s.
  unfold _slice_kv_at, slice_from, split in Hslice.
  destruct (chunk_blob_shape_cases fmt L Hd D n Hfmt)
    as [(-> & _ & Hs) | (-> & _ & Hs)]; rewrite Hs in Hslice;
    cbn in Hslice; rewrite Hc in Hslice; injection Hslice as <-;
    apply Forall_fmap, Forall_forall; intros j _; cbn; by eexists.
Qed.

Lemma make_chunks_shaped (self : LMCacheEngine) (tokens : list Z)
    (blob : Tensor Z) (fmt : string) (k : nat) (skip_existing : bool)
    (L Hd D n : nat) (chunks : list (string * Tensor Z)) :
  fmt_valid fmt ->
  shape blob = chunk_blob_shape fmt L Hd D n ->
  _make_chunks self tokens blob fmt k skip_existing = Ok chunks ->
  Forall (fun hk => exists m, shape hk.2 = chunk_blob_shape fmt L Hd D m) chunks.
Proof.
  intros Hfmt Hshape Hmake.
  assert (Hzip : forall (hs : list string) (kvs : list (Tensor Z)),
            Forall (fun chunk => exists m, shape chunk = chunk_blob_shape fmt L Hd D m)
                   kvs ->
            Forall (fun hk : string * Tensor Z =>
                      exists m, shape hk.2 = chunk_blob_shape fmt L Hd D m)
                   (zip hs kvs)).
  { intros hs kvs Hkvs. revert hs.
    induction Hkvs as [|kv kvs Hkv Hkvs IH]; intros [|h hs]; cbn; constructor;
      [exact Hkv|apply IH]. }
  unfold _make_chunks, _make_chunks_skip_existing, _chunk_kv in Hmake.
  destruct skip_existing.
  - destruct (_num_tokens_in_kv _ _) as [num|]; cbn [rbind] in Hmake;
      [|discriminate Hmake].
    destruct (first_missing _ _ _ _) as [[start|] idx].
    + destruct (_slice_kv_at self start blob fmt) as [kvs|] eqn:Hs;
        cbn [rbind] in Hmake; [|discriminate Hmake].
      injection Hmake as <-. apply Hzip.
      by eapply slice_kv_at_shaped.
    + injection Hmake as <-. constructor.
  - destruct (k =? 0); [|discriminate Hmake].
    destruct (_slice_kv_at self 0 blob fmt) as [kvs|] eqn:Hs;
      cbn [rbind] in Hmake; [|discriminate Hmake].
    injection Hmake as <-. apply Hzip.
    by eapply slice_kv_at_shaped.
Qed.

(** A backend of stacked chunks stays one when [store] is called with a
    nested KV cache of the same geometry. *)
Lemma store_keeps_backend_shaped (self : LMCacheEngine) (tokens : Tensor Z)
    (kv : KVCache) (mask : option (Tensor bool)) (skip_existing blocking : bool)
    (Hd D n : nat) :
  let fmt := fmt (metadata self) in
  store_preconditions self tokens kv mask (layer_shape fmt Hd D n) ->
  backend_shaped fmt (length kv) Hd D (engine_ self) ->
  backend_shaped fmt (length kv) Hd D
    (engine_ (store tokens kv mask skip_existing blocking self).2).
Proof.
  intros fmt0 Hpre Hb.
  destruct (store_run self tokens kv mask _ skip_existing blocking Hpre)
    as (blob & Hblob & Hshape & ->).
  destruct Hpre as (Hfmt & _).
  assert (Hshape' : shape blob = chunk_blob_shape fmt0 (length kv) Hd D n).
  { rewrite Hshape. subst fmt0. revert Hfmt.
    generalize (fmt (metadata self)). by intros f [-> | ->]. }
  destruct (_make_chunks _ _ _ _ _ _) as [chunks|e] eqn:Hmake; [|exact Hb].
  unfold stored. cbn [snd engine_ add_log set_backend].
  apply batched_put_shaped; [exact Hb|].
  unfold keyed. apply Forall_fmap.
  eapply Forall_impl; [by eapply make_chunks_shaped|]. by intros [h c].
Qed.

End StoreShapes.

Section RetrieveClaim.
Context {sha : Sha256}.

Lemma retrieve_result_of_hits (self : LMCacheEngine) (b' : StorageBackend)
    (tokens : list Z) (mask : option (list bool)) (return_tuple : bool) :
  retrieve_hits (set_backend self b') tokens mask = retrieve_hits self tokens mask ->
  (retrieve tokens mask return_tuple (set_backend self b')).1 =
  (retrieve tokens mask return_tuple self).1.
Proof.
  intros Hrun. destruct self as [cfg md cs sdc miss hit rate be lg].
  unfold retrieve_hits, chunk_keys, retrieve_num_skip_chunk, retrieve_num_skip_tok,
    set_backend in *.
  cbn [engine_ metadata chunk_size config save_decode_cache miss_tokens_count
       hit_tokens_count hit_rate logged] in *.
  unfold retrieve, bind, get_self, ret, raise, lift, modify, _slice_kv_at,
    set_hit_tokens_count, set_miss_tokens_count, set_hit_rate, add_log.
  cbv zeta.
  cbn [engine_ metadata chunk_size config save_decode_cache miss_tokens_count
       hit_tokens_count hit_rate logged] in *.
  rewrite Hrun. clear Hrun.
  set (hits := take_hits _).
  repeat (cbn [fst snd engine_ metadata chunk_size config save_decode_cache
               miss_tokens_count hit_tokens_count hit_rate logged];
          match goal with
          | |- context [match ?x with _ => _ end] =>
              lazymatch x with
              | context [b'] => fail
              | context [be] => fail
              | _ => destruct x eqn:?
              end
          end).
  all: reflexivity.
Qed.

(** C1, as amended.  For every token sequence, mask and backend,
    [retrieve] asks the backend for the chunk keys in chunk order and
    keeps the chunks up to the first absent one: the chunks kept are
    those of the leading keys, the next key is absent, and what the
    backend holds for later keys has no part in what the call returns
    or raises.  On an engine of a known layout, with no chunk kept it
    returns the empty tuple and an all-false mask.  With chunks kept,
    on a known layout, when the kept chunks are stacked chunks of one
    geometry in that layout, holding [T] tokens once the first is cut
    at the skip offset, and when the sum of the counters that the hit
    rate is divided by is not zero, it returns their concatenation and
    a mask that is true exactly on the positions
    [num_skip_tok, num_skip_tok + T) of the tokens, [T] being its
    [retrieved_token_count]. *)
Theorem retrieve_returns_leading_hits (self : LMCacheEngine) (tokens : list Z)
    (mask : option (list bool)) (return_tuple : bool) :
  let fmt := fmt (metadata self) in
  let c := Pos.to_nat (chunk_size self) in
  let nst := retrieve_num_skip_tok mask in
  let nsc := retrieve_num_skip_chunk self mask in
  let keys := chunk_keys self tokens nsc in
  let run := retrieve_hits self tokens mask in
  let T := retrieved_tokens c (nst - nsc * c) (map (blob_tokens fmt) run) in
  batched_get (engine_ self) (take (length run) keys) = map Some run /\
  (forall key, keys !! length run = Some key ->
     contains (engine_ self) key = false) /\
  (forall b',
     (forall key, key ∈ take (S (length run)) keys ->
        kv_store b' !! key = kv_store (engine_ self) !! key) ->
     (retrieve tokens mask return_tuple (set_backend self b')).1 =
     (retrieve tokens mask return_tuple self).1) /\
  (fmt_valid fmt -> run = [] ->
   retrieve tokens mask return_tuple self =
   (Ok (RetTuple [], replicate (length tokens) false),
    after_miss self (length tokens))) /\
  (forall L Hd D chunk0 rest,
   fmt_valid fmt -> 0 < L -> 0 < Hd -> 0 < D ->
   Forall (fun blob => exists n, shape blob = chunk_blob_shape fmt L Hd D n) run ->
   miss_tokens_count self + (hit_tokens_count self + T) <> 0 ->
   run = chunk0 :: rest ->
   exists sliced first blob kv,
     _slice_kv_at self (nst - nsc * c) chunk0 fmt = Ok sliced /\
     first_item sliced = Ok first /\
     cat (first :: rest) (retrieve_dim fmt + 2) = Ok blob /\
     (if return_tuple then t <- _blob_to_tuple_kv blob;; Ok (RetTuple t)
      else Ok (RetBlob blob)) = Ok kv /\
     count_retrieved kv (retrieve_dim fmt) = Ok T /\
     retrieve tokens mask return_tuple self =
     (Ok (kv, retrieved_mask (length tokens) nst T),
      after_hit self return_tuple (length run) T)) /\
  (forall i,
     retrieved_mask (length tokens) nst T !! i =
     if decide (i < length tokens)
     then Some (bool_decide (nst <= i < nst + T)) else None).
Proof.
  intros fmt0 c nst nsc keys run T.
  destruct (take_hits_in_order (engine_ self) keys) as [Horder Hmiss].
  split; [exact Horder|]. split; [exact Hmiss|].
  split; [|split; [|split]].
  - intros b' Hagree. apply retrieve_result_of_hits.
    unfold retrieve_hits. by apply take_hits_agree.
  - intros Hfmt Hnil. by apply retrieve_no_hits.
  - intros L Hd D chunk0 rest Hfmt HL HHd HD Hshaped Hden Hrun.
    set (ns := map (blob_tokens fmt0) run) in *.
    assert (Hshapes : Forall2 (fun blob n => shape blob = chunk_blob_shape fmt0 L Hd D n)
                        run ns).
    { by apply shaped_sizes. }
    pose proof (retrieve_explicit self tokens mask return_tuple L Hd D ns
                  Hfmt HL HHd HD Hshapes (fun _ => Hden)) as Hself.
    fold fmt0 c nst nsc run T in Hself.
    destruct Hself as [[Hnil _] | (ch & rs & sl & fi & bl & kv & Hr & Hs & Hf
                                    & Hc & Hk & Hn & Hret)]; [congruence|].
    rewrite Hrun in Hr. injection Hr as <- <-.
    exists sl, fi, bl, kv. rewrite Hrun. by repeat (split; [done|]).
  - intros i. apply retrieved_mask_lookup.
Qed.

End RetrieveClaim.

Lemma toy_stored_engine_shaped :
  backend_shaped (fmt (metadata toy_stored_engine)) 1 1 1 (engine_ toy_stored_engine).
Proof.
  apply (store_keeps_backend_shaped (sha := toy_digest) toy_engine toy_tokens
           (toy_kv [1; 2; 3; 4; 5]%Z) None true true 1 1 5).
  - exact toy_store_preconditions.
  - intros key blob Hkey.
    change (kv_store (engine_ toy_engine))
      with (∅ : gmap CacheEngineKey (Tensor Z)) in Hkey.
    by rewrite lookup_empty in Hkey.
Qed.

Lemma retrieve_returns_leading_hits_witness :
  backend_shaped (fmt (metadata toy_stored_engine)) 1 1 1 (engine_ toy_stored_engine) /\
  exists kv,
    (retrieve (sha := toy_digest) [5; 6; 7; 8; 9]%Z
       (Some [false; false; false; true; true]) true toy_stored_engine).1 =
    Ok (kv, [false; false; false; true; true]).
Proof.
  assert (Hfmt : fmt_valid (fmt (metadata toy_stored_engine))) by (by left).
  split; [exact toy_stored_engine_shaped|].
  destruct (retrieve_returns_leading_hits (sha := toy_digest) toy_stored_engine
              [5; 6; 7; 8; 9]%Z (Some [false; false; false; true; true]) true)
    as (_ & _ & _ & _ & Hhit & _).
  edestruct (Hhit 1 1 1) as (sliced & first & blob & kv & _ & _ & _ & _ & _ & Hret).
  - exact Hfmt.
  - lia.
  - lia.
  - lia.
  - apply take_hits_shaped. exact toy_stored_engine_shaped.
  - vm_compute. lia.
  - vm_compute. reflexivity.
  - exists kv. by rewrite Hret.
Defined.

(** C1, as first stated, fails.  On an engine whose layout is not
    known [retrieve] raises [ValueError] although no chunk hits.  After
    two calls of [store] that gave the two chunks of [5; 6; 7; 8] KV
    caches of one and of two heads, both chunks hit and [torch.cat]
    raises [RuntimeError].  And with both counters at zero and the one
    kept chunk cut down to no token, the hit rate divides by zero. *)
Lemma retrieve_raises_counterexample :
  (retrieve_hits (sha := toy_digest) toy_paged_engine [5; 6]%Z None = [] /\
   (retrieve (sha := toy_digest) [5; 6]%Z None true toy_paged_engine).1
   = Raise (ValueError "Invalid format: paged")) /\
  ((store (sha := toy_digest) toy_tokens4 toy_kv_two_heads
      (Some (tensor1d [false; false; true; true])) true true
      toy_first_chunk_engine).1 = Ok None /\
   map shape (retrieve_hits (sha := toy_digest) toy_mixed_engine [5; 6; 7; 8]%Z None)
   = [[1; 2; 2; 1; 1]; [1; 2; 2; 2; 1]] /\
   (retrieve (sha := toy_digest) [5; 6; 7; 8]%Z None true toy_mixed_engine).1
   = Raise RuntimeError) /\
  (length (retrieve_hits (sha := toy_digest) toy_stored_engine [5; 6; 7; 8; 9]%Z
             (Some [false; false; false; false; false])) = 1 /\
   (retrieve (sha := toy_digest) [5; 6; 7; 8; 9]%Z
      (Some [false; false; false; false; false]) true toy_stored_engine).1
   = Raise ZeroDivisionError).
Proof. repeat split; vm_compute; reflexivity. Qed.

(** ** Counters and hit rate *)

Lemma after_hit_rate (self : LMCacheEngine) (return_tuple : bool)
    (n_chunks rtc : nat) :
  hit_tokens_count (after_hit self return_tuple n_chunks rtc) =
    hit_tokens_count self + rtc /\
  miss_tokens_count (after_hit self return_tuple n_chunks rtc) =
    miss_tokens_count self /\
  hit_rate (after_hit self return_tuple n_chunks rtc) =
    rate_of (hit_tokens_count (after_hit self return_tuple n_chunks rtc))
            (miss_tokens_count (after_hit self return_tuple n_chunks rtc)).
Proof. by destruct return_tuple. Qed.

Lemma after_miss_rate (self : LMCacheEngine) (n_tokens : nat) :
  hit_tokens_count (after_miss self n_tokens) = hit_tokens_count self /\
  miss_tokens_count (after_miss self n_tokens) = miss_tokens_count self + n_tokens /\
  hit_rate (after_miss self n_tokens) = hit_rate self.
Proof. done. Qed.

(** C6 fails on the code.  After a full hit of five tokens the counters
    are 5 hits and 0 misses and the hit rate is 1; a following call that
    finds no chunk for its two tokens adds them to the misses and
    returns before the hit rate is computed again: the rate stays 1 and
    is not 5 / (2 + 5).  On an engine with both counters at zero, a call
    whose one kept chunk is cut down to no token divides by zero. *)
Theorem retrieve_zero_hit_leaves_hit_rate_stale :
  let call := retrieve (sha := toy_digest) [1; 2]%Z None true toy_hit_engine in
  (hit_tokens_count toy_hit_engine = 5 /\ miss_tokens_count toy_hit_engine = 0 /\
   hit_rate toy_hit_engine = rate_of 5 0) /\
  call.1 = Ok (RetTuple [], [false; false]) /\
  hit_tokens_count call.2 = 5 /\
  miss_tokens_count call.2 = 2 /\
  hit_rate call.2 = hit_rate toy_hit_engine /\
  hit_rate call.2 <> rate_of (hit_tokens_count call.2) (miss_tokens_count call.2) /\
  (retrieve (sha := toy_digest) [5; 6; 7; 8; 9]%Z
     (Some [false; false; false; false; false]) true toy_stored_engine).1 =
  Raise ZeroDivisionError.
Proof.
  cbn zeta.
  assert (Hcall : retrieve (sha := toy_digest) [1; 2]%Z None true toy_hit_engine =
                  (Ok (RetTuple [], [false; false]), after_miss toy_hit_engine 2)).
  { apply (retrieve_no_hits (sha := toy_digest) toy_hit_engine [1; 2]%Z None true).
    - by left.
    - vm_compute. reflexivity. }
  rewrite Hcall. cbn [fst snd].
  assert (Hhit : hit_tokens_count toy_hit_engine = 5) by (vm_compute; reflexivity).
  assert (Hmiss : miss_tokens_count toy_hit_engine = 0) by (vm_compute; reflexivity).
  assert (Hrate : hit_rate toy_hit_engine = rate_of 5 0).
  { apply Qc_is_canon. vm_compute. reflexivity. }
  destruct (after_miss_rate toy_hit_engine 2) as (-> & -> & ->).
  rewrite Hhit, Hmiss, Hrate.
  repeat split; try done.
  all: try (vm_compute; reflexivity).
  all: intros Heq; apply (f_equal this) in Heq; vm_compute in Heq; discriminate Heq.
Qed.

(** * Further properties *)

(** ** Chunks of tokens *)

Lemma div_up_mul_ge (n c : nat) : 0 < c -> n <= div_up n c * c.
Proof.
  intros Hc. unfold div_up.
  pose proof (Nat.div_mod_eq (n + c - 1) c).
  pose proof (Nat.mod_upper_bound (n + c - 1) c). nia.
Qed.

Lemma div_up_lt (n c j : nat) : 0 < c -> j < div_up n c <-> j * c < n.
Proof.
  intros Hc. unfold div_up.
  pose proof (Nat.div_mod_eq (n + c - 1) c).
  pose proof (Nat.mod_upper_bound (n + c - 1) c). nia.
Qed.

Lemma div_up_add (n c : nat) : 0 < c -> div_up (n + c) c = S (div_up n c).
Proof.
  intros Hc. unfold div_up.
  replace (n + c + c - 1) with (n + c - 1 + 1 * c) by lia.
  rewrite Nat.div_add by lia. lia.
Qed.

Lemma div_up_sub_mul (n c j : nat) :
  0 < c -> div_up (n - j * c) c = div_up n c - j.
Proof.
  intros Hc. revert n. induction j as [|j IH]; intros n.
  - cbn. by rewrite !Nat.sub_0_r.
  - destruct (decide (c <= n)) as [Hle|Hgt].
    + replace (n - S j * c) with ((n - c) - j * c) by lia.
      rewrite IH. replace n with ((n - c) + c) at 2 by lia.
      rewrite div_up_add by done. lia.
    + replace (n - S j * c) with 0 by lia.
      assert (div_up n c <= 1).
      { unfold div_up. apply Nat.lt_succ_r. apply Nat.Div0.div_lt_upper_bound; lia. }
      assert (div_up 0 c = 0) by (unfold div_up; apply Nat.div_small; lia).
      lia.
Qed.

Lemma concat_chunks {A} (l : list A) (c m : nat) :
  concat (map (fun j => take c (drop (j * c) l)) (seq 0 m)) = take (m * c) l.
Proof.
  induction m as [|m IH]; [done|].
  rewrite seq_S, map_app, concat_app, IH. cbn [map concat Nat.add].
  rewrite app_nil_r, take_take_drop. f_equal. lia.
Qed.

Section Chunks.
Context {sha : Sha256}.

Lemma chunk_tokens_lookup (self : LMCacheEngine) (tokens : list Z) (i : nat) :
  _chunk_tokens self tokens !! i =
  if decide (i * Pos.to_nat (chunk_size self) < length tokens)
  then Some (take (Pos.to_nat (chunk_size self))
                  (drop (i * Pos.to_nat (chunk_size self)) tokens))
  else None.
Proof.
  unfold _chunk_tokens, py_range. rewrite map_map, list_lookup_fmap.
  destruct (decide _) as [Hlt|Hge].
  - apply div_up_lt in Hlt; [|lia]. by rewrite lookup_seq_lt.
  - rewrite lookup_seq_ge; [done|].
    assert (~ i < div_up (length tokens) (Pos.to_nat (chunk_size self))); [|lia].
    intros H. apply div_up_lt in H; lia.
Qed.

(** X1.  [_chunk_tokens] cuts the tokens into consecutive pieces: put
    together again they are the tokens, there are
    [ceil(len(tokens) / chunk_size)] of them, none is empty, and each
    holds [chunk_size] tokens but the last, which holds the rest. *)
Theorem chunk_tokens_partition (self : LMCacheEngine) (tokens : list Z) :
  let c := Pos.to_nat (chunk_size self) in
  let chunks := _chunk_tokens self tokens in
  concat chunks = tokens /\
  length chunks = div_up (length tokens) c /\
  (forall i ch, chunks !! i = Some ch ->
     ch = take c (drop (i * c) tokens) /\
     length ch = Nat.min c (length tokens - i * c) /\
     0 < length ch /\
     (S i < length chunks -> length ch = c)).
Proof.
  intros c chunks. assert (Hc : 0 < c) by (unfold c; lia).
  assert (Hlen : length chunks = div_up (length tokens) c).
  { unfold chunks, _chunk_tokens, py_range. by rewrite !length_map, length_seq. }
  split; [|split; [exact Hlen|]].
  - unfold chunks, _chunk_tokens, py_range. rewrite map_map.
    rewrite (concat_chunks tokens). apply take_ge.
    by apply div_up_mul_ge.
  - intros i ch Hi. unfold chunks in Hi. rewrite chunk_tokens_lookup in Hi.
    fold c in Hi. destruct (decide _) as [Hlt|]; [|done].
    assert (ch = take c (drop (i * c) tokens)) as -> by congruence.
    split; [done|].
    rewrite length_take, length_drop. split; [done|]. split; [lia|].
    rewrite Hlen. intros HS. apply div_up_lt in HS; [|done]. lia.
Qed.

Lemma prefix_hash_loop_take (token_chunks : list (list Z)) (h : string) (k : nat) :
  take k (prefix_hash_loop token_chunks h []) =
  prefix_hash_loop (take k token_chunks) h [].
Proof.
  revert h k. induction token_chunks as [|ch rest IH]; intros h k.
  - by destruct k.
  - destruct k as [|k]; [done|].
    cbn [take]. rewrite !prefix_hash_loop_cons. cbn [take]. by rewrite IH.
Qed.

Lemma chunk_tokens_app_take (self : LMCacheEngine) (T U : list Z) (k : nat) :
  k <= length T / Pos.to_nat (chunk_size self) ->
  take k (_chunk_tokens self (T ++ U)) = take k (_chunk_tokens self T).
Proof.
  intros Hk. set (c := Pos.to_nat (chunk_size self)) in *.
  assert (Hc : 0 < c) by (unfold c; lia).
  pose proof (Nat.div_mod_eq (length T) c) as Hdm.
  apply list_eq. intros i. destruct (decide (i < k)) as [Hi|Hi].
  - rewrite !lookup_take_lt by done. rewrite !chunk_tokens_lookup. fold c.
    rewrite length_app.
    assert (i * c + c <= length T) by nia.
    rewrite !decide_True by lia. f_equal.
    rewrite drop_app_le by lia. rewrite take_app_le; [done|].
    rewrite length_drop. lia.
  - rewrite !lookup_take_ge by lia. done.
Qed.

Lemma prefix_hash_app_take (self : LMCacheEngine) (T U : list Z) (k : nat) :
  k <= length T / Pos.to_nat (chunk_size self) ->
  take k (_prefix_hash (_chunk_tokens self (T ++ U)) 0) =
  take k (_prefix_hash (_chunk_tokens self T) 0).
Proof.
  intros Hk. unfold _prefix_hash. rewrite !drop_0, !prefix_hash_loop_take.
  by rewrite chunk_tokens_app_take.
Qed.

Lemma chunk_keys_app_take (self : LMCacheEngine) (T U : list Z) (k : nat) :
  k <= length T / Pos.to_nat (chunk_size self) ->
  take k (chunk_keys self (T ++ U) 0) = take k (chunk_keys self T 0).
Proof.
  intros Hk. unfold chunk_keys. by rewrite <- !fmap_take, prefix_hash_app_take.
Qed.

(** X2.  The hashes of the whole chunks of a prefix do not depend on
    what follows the prefix: a longer prompt asks the backend for the
    same keys on them, and the hash of a chunk is the digest chained
    through the chunks up to it. *)
Theorem prefix_hash_of_extension (self : LMCacheEngine) (T U : list Z) :
  let k := length T / Pos.to_nat (chunk_size self) in
  take k (_prefix_hash (_chunk_tokens self (T ++ U)) 0) =
  take k (_prefix_hash (_chunk_tokens self T) 0) /\
  take k (chunk_keys self (T ++ U) 0) = take k (chunk_keys self T 0) /\
  (forall chunks k', take k' (_prefix_hash chunks 0) = _prefix_hash (take k' chunks) 0).
Proof.
  intros k. split; [by apply prefix_hash_app_take|].
  split; [by apply chunk_keys_app_take|].
  intros chunks k'. unfold _prefix_hash. by rewrite !drop_0, prefix_hash_loop_take.
Qed.

End Chunks.

(** ** Lookup after store *)

Lemma take_hits_take (it : list (option (Tensor Z))) (k : nat) :
  take_hits (take k it) = take k (take_hits it).
Proof.
  revert k. induction it as [|[chunk|] rest IH]; intros [|k]; try done.
  cbn. by rewrite IH.
Qed.

Lemma length_take_hits_le (it : list (option (Tensor Z))) :
  length (take_hits it) <= length it.
Proof. induction it as [|[chunk|] rest IH]; cbn; lia. Qed.

Lemma take_hits_all (b : StorageBackend) (keys : list CacheEngineKey) :
  Forall (fun key => contains b key = true) keys <->
  length (take_hits (batched_get b keys)) = length keys.
Proof.
  induction keys as [|key keys IH]; [done|].
  rewrite Forall_cons. unfold batched_get in *. cbn [map].
  destruct (kv_store b !! key) as [blob|] eqn:Hk; cbn [take_hits length].
  - rewrite (contains_true _ _ _ Hk), IH. split; [intros [_ H]; lia|].
    intros H. split; [done|lia].
  - rewrite (contains_false _ _ Hk). split; [by intros [H _]|done].
Qed.

Lemma batched_put_keeps (b : StorageBackend)
    (pairs : list (CacheEngineKey * Tensor Z)) (blocking : bool)
    (key : CacheEngineKey) :
  contains b key = true -> contains (batched_put b pairs blocking).1 key = true.
Proof.
  unfold contains, batched_put. cbn [fst kv_store]. intros H.
  apply bool_decide_eq_true in H. apply bool_decide_eq_true.
  by apply foldl_insert_keeps.
Qed.

Lemma store_num_skip_tok_none (tokens : Tensor Z) :
  rank tokens = 1 -> store_num_skip_tok tokens None = 0.
Proof.
  intros Hrank. unfold store_num_skip_tok, store_mask. cbn [tdata].
  unfold count_true. rewrite filter_all, length_replicate.
  - unfold tlen, numel. cbn [shape]. unfold rank in Hrank.
    destruct (shape tokens) as [|n [|]]; try discriminate Hrank.
    unfold prod_list. cbn. lia.
  - by apply Forall_replicate.
Qed.

Section LookupAfterStore.
Context {sha : Sha256}.

Lemma first_missing_spec (self : LMCacheEngine) (fmt : string)
    (pairs : list (string * nat)) (j0 : nat) :
  match first_missing self fmt pairs j0 with
  | (None, j) =>
      Forall (fun p => contains (engine_ self) (_make_key self p.1 fmt) = true) pairs
  | (Some idx, j) =>
      exists h, j0 <= j /\ pairs !! (j - j0) = Some (h, idx) /\
        contains (engine_ self) (_make_key self h fmt) = false /\
        Forall (fun p => contains (engine_ self) (_make_key self p.1 fmt) = true)
               (take (j - j0) pairs)
  end.
Proof.
  revert j0. induction pairs as [|[h idx] rest IH]; intros j0;
    [cbn; constructor|].
  cbn [first_missing].
  destruct (contains (engine_ self) (_make_key self h fmt)) eqn:Hc; cbn [negb].
  - specialize (IH (S j0)).
    destruct (first_missing self fmt rest (S j0)) as [[idx'|] j].
    + destruct IH as (h' & Hle & Hlook & Habs & Hall).
      exists h'. split; [lia|].
      replace (j - j0) with (S (j - S j0)) by lia.
      split; [done|]. split; [done|]. cbn [take]. by constructor.
    + by constructor.
  - exists h. split; [done|]. rewrite Nat.sub_diag. by repeat split.
Qed.

Lemma lookup_full_iff (self : LMCacheEngine) (tokens : list Z) :
  lookup self tokens = length tokens <->
  Forall (fun key => contains (engine_ self) key = true) (chunk_keys self tokens 0).
Proof.
  unfold lookup. cbv zeta. rewrite lookup_loop_count by lia.
  fold (chunk_keys self tokens 0). rewrite take_hits_all.
  set (hits := length (take_hits _)).
  assert (Hle : hits <= length (chunk_keys self tokens 0)).
  { unfold hits, batched_get. rewrite length_take_hits_le. by rewrite length_map. }
  unfold chunk_keys in Hle |- *.
  rewrite length_map, length_prefix_hash, length_chunk_tokens, Nat.sub_0_r in *.
  set (c := Pos.to_nat (chunk_size self)) in *.
  assert (Hc : 0 < c) by (unfold c; lia).
  pose proof (div_up_mul_ge (length tokens) c Hc) as Hge.
  split; intros Hfull.
  - assert (~ hits < div_up (length tokens) c); [|lia].
    intros Hlt. apply div_up_lt in Hlt; lia.
  - rewrite Hfull. lia.
Qed.

Lemma store_covers_masked (self : LMCacheEngine) (tokens : Tensor Z) (kv : KVCache)
    (mask : option (Tensor bool)) (sh : list nat) (blocking : bool) :
  store_preconditions self tokens kv mask sh ->
  exists chunks,
    store tokens kv mask true blocking self = (Ok None, stored self chunks blocking) /\
    Forall (fun key => contains (engine_ (stored self chunks blocking)) key = true)
           (chunk_keys self (tdata tokens)
              (store_num_skip_tok tokens mask / Pos.to_nat (chunk_size self))).
Proof.
  intros Hpre.
  destruct (store_run self tokens kv mask sh true blocking Hpre)
    as (blob & Hblob & Hshape & Hstore).
  destruct Hpre as (Hfmt & Hrank & Hwf & Hmrank & Hlen & Halign & Hkv & Hcount).
  rewrite (tlen_wf_rank1 tokens) in Hcount by done.
  destruct blob as [bs data]. cbn in Hshape. subst bs.
  destruct Hkv as (Hne & Hsh & Hall).
  assert (HL : 0 < length kv) by (destruct kv; [done|cbn; lia]).
  set (c := Pos.to_nat (chunk_size self)) in *.
  assert (Hc : 0 < c) by (unfold c; lia).
  set (fmt0 := fmt (metadata self)) in *.
  set (nsc := store_num_skip_tok tokens mask / c) in *.
  set (N := tokens_of_shape fmt0 sh) in *.
  set (hashes := _prefix_hash (_chunk_tokens self (tdata tokens)) nsc).
  assert (HN : N = length (tdata tokens) - nsc * c) by lia.
  assert (Hlh : length hashes = div_up N c).
  { unfold hashes. rewrite length_prefix_hash, length_chunk_tokens. fold c.
    by rewrite HN, div_up_sub_mul. }
  unfold _make_chunks, _make_chunks_skip_existing in Hstore.
  rewrite (num_tokens_in_kv_blob sh) in Hstore by done. cbn [rbind] in Hstore.
  fold c hashes N in Hstore.
  pose proof (first_missing_spec self fmt0 (zip hashes (py_range N c)) 0) as Hspec.
  destruct (first_missing _ _ _ _) as [[idx|] j].
  - destruct Hspec as (h & _ & Hlook & _ & Hpresent).
    rewrite Nat.sub_0_r in Hlook, Hpresent.
    destruct (slice_kv_at_ok self idx (length kv) sh data fmt0 Hfmt Hsh)
      as (kvs & Hkvs & Hlkvs).
    rewrite Hkvs in Hstore. cbn [rbind] in Hstore.
    eexists. split; [exact Hstore|].
    apply lookup_zip_Some in Hlook as [Hh Hidx].
    unfold py_range in Hidx. rewrite list_lookup_fmap in Hidx.
    assert (Hj : j < div_up N c).
    { apply lookup_lt_Some in Hh. lia. }
    rewrite lookup_seq_lt in Hidx by done. cbn in Hidx. injection Hidx as <-.
    apply div_up_lt in Hj as Hjc; [|done].
    fold N c in Hlkvs.
    rewrite Nat.min_l, div_up_sub_mul in Hlkvs by (done || lia).
    apply Forall_forall. intros key Hkey.
    unfold chunk_keys in Hkey. fold c nsc hashes fmt0 in Hkey.
    apply list_elem_of_fmap in Hkey as (hk & -> & Hhk).
    apply list_elem_of_lookup in Hhk as (i & Hi).
    unfold stored. cbn [engine_ add_log set_backend].
    destruct (decide (i < j)) as [Hlt|Hge].
    + apply batched_put_keeps.
      rewrite Forall_forall in Hpresent.
      apply (Hpresent (hk, i * c)).
      apply list_elem_of_lookup. exists i.
      rewrite lookup_take_lt by done.
      apply lookup_zip_Some. split; [done|].
      unfold py_range. rewrite list_lookup_fmap, lookup_seq_lt; [done|].
      apply lookup_lt_Some in Hi. lia.
    + apply batched_put_contains.
      unfold keyed. rewrite map_map. cbn [fst].
      rewrite <- (map_map fst (fun h0 => _make_key self h0 fmt0)).
      rewrite fst_zip by (rewrite length_drop; lia).
      apply list_elem_of_fmap. exists hk. split; [done|].
      apply list_elem_of_lookup. exists (i - j).
      rewrite lookup_drop. by replace (j + (i - j)) with i by lia.
  - eexists. split; [exact Hstore|].
    apply Forall_forall. intros key Hkey.
    unfold chunk_keys in Hkey. fold c nsc hashes fmt0 in Hkey.
    apply list_elem_of_fmap in Hkey as (hk & -> & Hhk).
    apply list_elem_of_lookup in Hhk as (i & Hi).
    unfold stored. cbn [engine_ add_log set_backend].
    apply batched_put_keeps.
    rewrite Forall_forall in Hspec.
    apply (Hspec (hk, i * c)).
    apply list_elem_of_lookup. exists i.
    apply lookup_zip_Some. split; [done|].
    unfold py_range. rewrite list_lookup_fmap, lookup_seq_lt; [done|].
    apply lookup_lt_Some in Hi. lia.
Qed.

Lemma store_covers (self : LMCacheEngine) (tokens : Tensor Z) (kv : KVCache)
    (sh : list nat) (skip_existing blocking : bool) :
  store_preconditions self tokens kv None sh ->
  exists chunks,
    store tokens kv None skip_existing blocking self =
    (Ok None, stored self chunks blocking) /\
    Forall (fun key => contains (engine_ (stored self chunks blocking)) key = true)
           (chunk_keys self (tdata tokens) 0).
Proof.
  intros Hpre.
  assert (Hnst : store_num_skip_tok tokens None = 0).
  { apply store_num_skip_tok_none. by destruct Hpre as (_ & ? & _). }
  destruct skip_existing.
  { destruct (store_covers_masked self tokens kv None sh blocking Hpre)
      as (chunks & Hstore & Hall).
    rewrite Hnst, Nat.Div0.div_0_l in Hall. by exists chunks. }
  destruct (store_run self tokens kv None sh false blocking Hpre)
    as (blob & Hblob & Hshape & Hstore).
  destruct Hpre as (Hfmt & Hrank & Hwf & Hmrank & Hlen & Halign & Hkv & Hcount).
  rewrite Hnst in *. rewrite Nat.add_0_r in Hcount.
  rewrite Nat.Div0.div_0_l in Hstore.
  rewrite (tlen_wf_rank1 tokens) in Hcount by done.
  destruct blob as [bs data]. cbn in Hshape. subst bs.
  destruct Hkv as (Hne & Hsh & Hall).
  set (c := Pos.to_nat (chunk_size self)) in *.
  set (fmt0 := fmt (metadata self)) in *.
  set (hashes := _prefix_hash (_chunk_tokens self (tdata tokens)) 0).
  assert (Hlh : length hashes = div_up (length (tdata tokens)) c).
  { unfold hashes. by rewrite length_prefix_hash, length_chunk_tokens, Nat.sub_0_r. }
  unfold _make_chunks in Hstore. cbn [Nat.eqb] in Hstore. unfold _chunk_kv in Hstore.
  destruct (slice_kv_at_ok self 0 (length kv) sh data fmt0 Hfmt Hsh)
    as (kvs & Hkvs & Hlkvs).
  rewrite Hkvs in Hstore. cbn [rbind] in Hstore.
  eexists. split; [exact Hstore|].
  rewrite Nat.min_0_l, Nat.sub_0_r, <- Hcount in Hlkvs. fold c in Hlkvs.
  apply Forall_forall. intros key Hkey.
  unfold stored. cbn [engine_ add_log set_backend].
  apply batched_put_contains.
  unfold keyed. rewrite map_map. cbn [fst].
  rewrite <- (map_map fst (fun h0 => _make_key self h0 fmt0)).
  rewrite fst_zip by (fold hashes; lia). exact Hkey.
Qed.

End LookupAfterStore.

Section StoreThenLookup.
Context {sha : Sha256}.

Lemma lookup_formula (self : LMCacheEngine) (tokens : list Z) :
  lookup self tokens =
  Nat.min (length (take_hits (batched_get (engine_ self) (chunk_keys self tokens 0)))
           * Pos.to_nat (chunk_size self))
          (length tokens).
Proof. unfold lookup. cbv zeta. by rewrite lookup_loop_count by lia. Qed.

Lemma hits_of_extension (self : LMCacheEngine) (T U : list Z) :
  let k := length T / Pos.to_nat (chunk_size self) in
  Nat.min k (length (take_hits (batched_get (engine_ self) (chunk_keys self (T ++ U) 0)))) =
  Nat.min k (length (take_hits (batched_get (engine_ self) (chunk_keys self T 0)))).
Proof.
  intros k. rewrite <- !length_take, <- !take_hits_take.
  unfold batched_get. rewrite <- !fmap_take.
  by rewrite (chunk_keys_app_take self T U k).
Qed.

(** X3.  A call of [store] without a mask that passes the checks of its
    arguments returns [None], with or without [skip_existing] and
    whether it blocks or not.  Once a blocking call has returned,
    [lookup] finds all the tokens stored, and of any longer prompt that
    begins with them at least the whole chunks of the stored tokens. *)
Theorem lookup_after_store (self : LMCacheEngine) (tokens : Tensor Z)
    (kv : KVCache) (sh : list nat) (skip_existing blocking : bool) :
  store_preconditions self tokens kv None sh ->
  (store tokens kv None skip_existing blocking self).1 = Ok None /\
  lookup (store tokens kv None skip_existing true self).2 (tdata tokens)
  = length (tdata tokens) /\
  forall more : list Z,
    length (tdata tokens) / Pos.to_nat (chunk_size self)
    * Pos.to_nat (chunk_size self)
    <= lookup (store tokens kv None skip_existing true self).2
              (tdata tokens ++ more).
Proof.
  intros Hpre.
  split.
  { by destruct (store_covers self tokens kv sh skip_existing blocking Hpre)
      as (chunks & -> & _). }
  destruct (store_covers self tokens kv sh skip_existing true Hpre)
    as (chunks & -> & Hall).
  cbn [fst snd].
  set (self' := stored self chunks true) in *.
  assert (Hfull : lookup self' (tdata tokens) = length (tdata tokens)).
  { by apply lookup_full_iff. }
  split; [exact Hfull|]. intros more.
  pose proof (hits_of_extension self' (tdata tokens) more) as Hext.
  cbv zeta in Hext.
  rewrite lookup_formula in Hfull |- *.
  change (chunk_size self') with (chunk_size self) in *.
  set (c := Pos.to_nat (chunk_size self)) in *.
  assert (Hc : 0 < c) by (unfold c; lia).
  pose proof (Nat.div_mod_eq (length (tdata tokens)) c) as Hdm.
  rewrite length_app.
  set (hT := length (take_hits (batched_get _ (chunk_keys self' (tdata tokens) 0)))) in *.
  set (hTU := length (take_hits (batched_get _ (chunk_keys self' (tdata tokens ++ more) 0)))) in *.
  set (k := length (tdata tokens) / c) in *.
  assert (k <= hT) by nia.
  assert (k <= hTU) by lia.
  nia.
Qed.

(** X4.  With [skip_existing], a call of [store] that passes the checks
    of its arguments and finds every chunk key beyond the masked prefix
    in the backend writes nothing: the backend is as it was and the log
    records zero chunks. *)
Theorem store_skip_existing_writes_nothing (self : LMCacheEngine)
    (tokens : Tensor Z) (kv : KVCache) (mask : option (Tensor bool))
    (sh : list nat) (blocking : bool) :
  store_preconditions self tokens kv mask sh ->
  Forall (fun key => contains (engine_ self) key = true)
         (chunk_keys self (tdata tokens)
            (store_num_skip_tok tokens mask / Pos.to_nat (chunk_size self))) ->
  (store tokens kv mask true blocking self).1 = Ok None /\
  engine_ (store tokens kv mask true blocking self).2 = engine_ self /\
  logged (store tokens kv mask true blocking self).2 = logged self ++ [LogStored 0].
Proof.
  intros Hpre Hall.
  destruct (store_run self tokens kv mask sh true blocking Hpre)
    as (blob & Hblob & Hshape & Hstore).
  destruct Hpre as (Hfmt & Hrank & Hwf & Hmrank & Hlen & Halign & Hkv & Hcount).
  destruct blob as [bs data]. cbn in Hshape. subst bs.
  destruct Hkv as (Hne & Hsh & Hlayers).
  assert (HL : 0 < length kv) by (destruct kv; [done|cbn; lia]).
  unfold _make_chunks, _make_chunks_skip_existing in Hstore.
  rewrite (num_tokens_in_kv_blob sh) in Hstore by done. cbn [rbind] in Hstore.
  match type of Hstore with
  | context [first_missing ?s ?f ?p ?j] =>
      pose proof (first_missing_spec s f p j) as Hspec;
      destruct (first_missing s f p j) as [[idx|] j']
  end.
  - destruct Hspec as (h & _ & Hlook & Habs & _).
    rewrite Nat.sub_0_r in Hlook.
    destruct (zip _ _ !! j') as [[h' idx']|] eqn:Hz; [|done].
    apply lookup_zip_Some in Hz as [Hh _].
    rewrite Forall_forall in Hall.
    rewrite Hall in Habs; [done|].
    unfold chunk_keys. apply list_elem_of_fmap. exists h. split; [done|].
    apply list_elem_of_lookup. exists j'. congruence.
  - rewrite Hstore. unfold stored, keyed, batched_put.
    cbn [fst snd engine_ logged add_log set_backend map foldl length].
    split; [done|]. split; [|done]. by destruct (engine_ self).
Qed.

(** X5.  What [lookup] answers on the whole chunks of a prompt does not
    depend on how the prompt goes on: a miss inside them is the answer
    for every longer prompt, and when they are all present every longer
    prompt is answered with at least their tokens. *)
Theorem lookup_of_extension (self : LMCacheEngine) (T U : list Z) :
  let c := Pos.to_nat (chunk_size self) in
  (lookup self T < length T / c * c -> lookup self (T ++ U) = lookup self T) /\
  (length T / c * c <= lookup self T -> length T / c * c <= lookup self (T ++ U)).
Proof.
  intros c. pose proof (hits_of_extension self T U) as Hext.
  cbv zeta in Hext. rewrite !lookup_formula, length_app. fold c in Hext |- *.
  assert (Hc : 0 < c) by (unfold c; lia).
  pose proof (Nat.div_mod_eq (length T) c) as Hdm.
  set (hT := length (take_hits (batched_get _ (chunk_keys self T 0)))) in *.
  set (hTU := length (take_hits (batched_get _ (chunk_keys self (T ++ U) 0)))) in *.
  set (k := length T / c) in *.
  split; intros H.
  - assert (hT < k) by nia. assert (hTU = hT) by lia. subst hTU.
    replace (length (take_hits _)) with hT by done. nia.
  - assert (k <= hT) by nia. assert (k <= hTU) by lia. nia.
Qed.

(** X20.  A masked [store] completes a cached prefix.  With
    [skip_existing], a blocking call of [store] that passes the checks
    of its arguments, on an engine whose backend holds the chunks the
    mask excludes, returns [None], and once it has returned every chunk
    of the tokens is in the backend: [lookup] on the tokens then
    returns their number. *)
Theorem masked_store_completes_prefix (self : LMCacheEngine) (tokens : Tensor Z)
    (kv : KVCache) (mask : option (Tensor bool)) (sh : list nat) :
  store_preconditions self tokens kv mask sh ->
  Forall (fun key => contains (engine_ self) key = true)
         (take (store_num_skip_tok tokens mask / Pos.to_nat (chunk_size self))
               (chunk_keys self (tdata tokens) 0)) ->
  (store tokens kv mask true true self).1 = Ok None /\
  lookup (store tokens kv mask true true self).2 (tdata tokens)
  = length (tdata tokens).
Proof.
  intros Hpre Hprefix.
  destruct (store_covers_masked self tokens kv mask sh true Hpre)
    as (chunks & -> & Hrest).
  cbn [fst snd]. split; [done|]. apply lookup_full_iff.
  change (chunk_keys (stored self chunks true) (tdata tokens) 0)
    with (chunk_keys self (tdata tokens) 0).
  set (nsc := store_num_skip_tok tokens mask / Pos.to_nat (chunk_size self)) in *.
  rewrite <- (take_drop nsc (chunk_keys self (tdata tokens) 0)).
  apply Forall_app. split.
  - eapply Forall_impl; [exact Hprefix|]. intros key Hkey.
    unfold stored. cbn [engine_ add_log set_backend]. by apply batched_put_keeps.
  - replace (drop nsc (chunk_keys self (tdata tokens) 0))
      with (chunk_keys self (tdata tokens) nsc); [done|].
    unfold chunk_keys, _prefix_hash. by rewrite drop_0, fmap_drop.
Qed.

End StoreThenLookup.

Lemma lookup_after_store_witness :
  store_preconditions toy_engine toy_tokens (toy_kv [1; 2; 3; 4; 5]%Z) None [5; 1; 1] /\
  lookup (sha := toy_digest) toy_stored_engine [5; 6; 7; 8; 9]%Z = 5 /\
  4 <= lookup (sha := toy_digest) toy_stored_engine [5; 6; 7; 8; 9; 10; 11]%Z.
Proof.
  split; [exact toy_store_preconditions|].
  destruct (lookup_after_store (sha := toy_digest) toy_engine toy_tokens
              (toy_kv [1; 2; 3; 4; 5]%Z) [5; 1; 1] true true
              toy_store_preconditions) as (_ & Hfull & Hmore).
  split; [exact Hfull|]. exact (Hmore [10; 11]%Z).
Defined.

Lemma toy_stored_engine_preconditions :
  store_preconditions toy_stored_engine toy_tokens (toy_kv [1; 2; 3; 4; 5]%Z) None
    [5; 1; 1].
Proof.
  unfold store_preconditions. repeat split; try done.
  - by left.
  - by repeat constructor.
Qed.

Lemma store_skip_existing_writes_nothing_witness :
  store_preconditions toy_stored_engine toy_tokens (toy_kv [1; 2; 3; 4; 5]%Z) None
    [5; 1; 1] /\
  engine_ (store (sha := toy_digest) toy_tokens (toy_kv [1; 2; 3; 4; 5]%Z) None
             true true toy_stored_engine).2 = engine_ toy_stored_engine /\
  logged (store (sha := toy_digest) toy_tokens (toy_kv [1; 2; 3; 4; 5]%Z) None
            true true toy_stored_engine).2 = [LogStored 3; LogStored 0].
Proof.
  split; [exact toy_stored_engine_preconditions|].
  assert (Hall : Forall (fun key => contains (engine_ toy_stored_engine) key = true)
            (chunk_keys (sha := toy_digest) toy_stored_engine (tdata toy_tokens)
               (store_num_skip_tok toy_tokens None
                / Pos.to_nat (chunk_size toy_stored_engine)))).
  { vm_compute. repeat constructor. }
  destruct (store_skip_existing_writes_nothing (sha := toy_digest) toy_stored_engine
              toy_tokens (toy_kv [1; 2; 3; 4; 5]%Z) None [5; 1; 1] true
              toy_stored_engine_preconditions Hall) as (_ & Hb & Hl).
  split; [exact Hb|]. rewrite Hl. vm_compute. reflexivity.
Defined.

Lemma length_clear_from (n : nat) (m : list bool) :
  length (clear_from n m) = length m.
Proof. unfold clear_from. rewrite length_app, length_take, length_replicate. lia. Qed.

Lemma rate_of_bounds (hits misses : nat) :
  0 < misses + hits ->
  (0 <= rate_of hits misses)%Qc /\ (rate_of hits misses <= 1)%Qc.
Proof.
  intros Hpos. unfold rate_of, Qcle, Qcdiv, Qcmult, Qcinv, Qc_of_Z.
  cbn [this Q2Qc]. rewrite !Qred_correct.
  set (h := Z.of_nat hits). set (d := Z.of_nat (misses + hits)).
  assert (Hd : (0 < d)%Z) by (unfold d; lia).
  assert (Hh : (0 <= h <= d)%Z) by (unfold h, d; lia).
  assert (Hq : (0 < inject_Z d)%Q) by (unfold Qlt; cbn; lia).
  split.
  - apply Qle_shift_div_l; [done|]. rewrite Qmult_0_l. unfold Qle. cbn. lia.
  - apply Qle_shift_div_r; [done|]. rewrite Qmult_1_l. unfold Qle. cbn. lia.
Qed.

Section Outcomes.
Context {sha : Sha256}.

Lemma store_outcome (self : LMCacheEngine) (tokens : Tensor Z) (kv : KVCache)
    (mask : option (Tensor bool)) (skip_existing blocking : bool) :
  (exists e, store tokens kv mask skip_existing blocking self = (Raise e, self)) \/
  (exists chunks,
     store tokens kv mask skip_existing blocking self =
     (Ok None, stored self chunks blocking)).
Proof.
  unfold store, bind, get_self, assert, ret, raise, lift, modify.
  repeat case_match; simplify_eq; try (left; eexists; reflexivity).
  all: right; eexists; unfold stored, keyed;
    match goal with H : batched_put _ _ _ = _ |- _ => rewrite H end;
    reflexivity.
Qed.

Lemma retrieve_outcome (self : LMCacheEngine) (tokens : list Z)
    (mask : option (list bool)) (return_tuple : bool) :
  let out := retrieve tokens mask return_tuple self in
  match out.1 with
  | Raise e =>
      miss_tokens_count out.2 = miss_tokens_count self /\
      hit_tokens_count out.2 = hit_tokens_count self /\
      hit_rate out.2 = hit_rate self
  | Ok (kv, m) =>
      length m = length tokens /\
      ((kv = RetTuple [] /\ m = replicate (length tokens) false /\
        miss_tokens_count out.2 = miss_tokens_count self + length tokens /\
        hit_tokens_count out.2 = hit_tokens_count self /\
        hit_rate out.2 = hit_rate self) \/
       (miss_tokens_count out.2 = miss_tokens_count self /\
        hit_tokens_count self <= hit_tokens_count out.2 /\
        count_retrieved kv (retrieve_dim (fmt (metadata self))) =
          Ok (hit_tokens_count out.2 - hit_tokens_count self) /\
        0 < miss_tokens_count out.2 + hit_tokens_count out.2 /\
        hit_rate out.2 =
          rate_of (hit_tokens_count out.2) (miss_tokens_count out.2)))
  end.
Proof.
  intros out. subst out.
  unfold retrieve, bind, get_self, ret, raise, lift, modify. cbv zeta.
  unfold retrieve_dim.
  repeat case_match; cbn [fst snd] in *; simplify_eq;
    cbn [miss_tokens_count hit_tokens_count hit_rate set_hit_rate
         set_hit_tokens_count set_miss_tokens_count add_log] in *;
    repeat match goal with
           | H : (_ =? 0) = true |- _ => apply Nat.eqb_eq in H
           | H : (_ =? 0) = false |- _ => apply Nat.eqb_neq in H
           end;
    rewrite ?length_clear_from, ?length_replicate, ?length_clear_before,
      ?length_replicate;
    try (repeat split; (done || lia)).
  all: try (split; [done|]; left; by repeat split).
  all: split; [done|]; right; unfold rate_of.
  all: match goal with
       | H : count_retrieved _ _ = Ok ?a |- context [Ok (?h + ?a - ?h)] =>
           replace (h + a - h) with a by lia
       end.
  all: repeat split; (done || lia).
Qed.

Lemma foldl_insert_origin (pairs : list (CacheEngineKey * Tensor Z))
    (m : gmap CacheEngineKey (Tensor Z)) (key : CacheEngineKey) :
  is_Some (foldl (fun m kv => <[kv.1 := kv.2]> m) m pairs !! key) ->
  is_Some (m !! key) \/ key ∈ map fst pairs.
Proof.
  revert m. induction pairs as [|[k v] pairs IH]; intros m Hm; [by left|].
  cbn [foldl fst snd] in Hm. apply IH in Hm as [Hm|Hm].
  - destruct (decide (k = key)) as [->|Hne].
    + right. cbn. apply list_elem_of_here.
    + left. by rewrite lookup_insert_ne in Hm.
  - right. cbn. by apply list_elem_of_further.
Qed.


(** X7.  On an engine whose metadata names a layout other than "vllm"
    and "huggingface", [retrieve] raises [ValueError] and [store] raises
    [ValueError] or fails one of its assertions, both before anything is
    changed. *)
Theorem unknown_format_is_rejected (self : LMCacheEngine) (tokens : Tensor Z)
    (kv : KVCache) (kv_mask : option (Tensor bool)) (skip_existing blocking : bool)
    (mask : option (list bool)) (return_tuple : bool) :
  ~ fmt_valid (fmt (metadata self)) ->
  (exists e,
     store tokens kv kv_mask skip_existing blocking self = (Raise e, self) /\
     (e = ValueError ("Invalid format: " +:+ fmt (metadata self)) \/
      exists msg, e = AssertionError msg)) /\
  retrieve (tdata tokens) mask return_tuple self =
  (Raise (ValueError ("Invalid format: " +:+ fmt (metadata self))), self).
Proof.
  intros Hfmt.
  assert (Hh : fmt (metadata self) <> "huggingface") by (intros H; apply Hfmt; by right).
  assert (Hv : fmt (metadata self) <> "vllm") by (intros H; apply Hfmt; by left).
  split.
  - unfold store, bind, get_self, assert, ret, raise, lift, modify, _num_tokens_in_kv.
    rewrite (decide_False (P := fmt (metadata self) = "huggingface")) by done.
    rewrite (decide_False (P := fmt (metadata self) = "vllm")) by done.
    repeat case_match; simplify_eq; eauto.
  - unfold retrieve, bind, get_self, raise. cbv zeta.
    rewrite (decide_False (P := fmt (metadata self) = "huggingface")) by done.
    by rewrite (decide_False (P := fmt (metadata self) = "vllm")) by done.
Qed.

(** X8.  The statistics after [retrieve].  A call that raises leaves the
    two counters and the hit rate as they were.  A call that returns
    gives a mask as long as the tokens, and either found no chunk, added
    the length of the tokens to the misses and left the hits and the hit
    rate alone, or added the number of tokens of the KV cache it returns
    to the hits, left the misses alone and set the hit rate to
    hits / (misses + hits), a number between 0 and 1. *)
Theorem retrieve_statistics (self : LMCacheEngine) (tokens : list Z)
    (mask : option (list bool)) (return_tuple : bool) :
  let out := retrieve tokens mask return_tuple self in
  match out.1 with
  | Raise e =>
      miss_tokens_count out.2 = miss_tokens_count self /\
      hit_tokens_count out.2 = hit_tokens_count self /\
      hit_rate out.2 = hit_rate self
  | Ok (kv, m) =>
      length m = length tokens /\
      ((kv = RetTuple [] /\ m = replicate (length tokens) false /\
        miss_tokens_count out.2 = miss_tokens_count self + length tokens /\
        hit_tokens_count out.2 = hit_tokens_count self /\
        hit_rate out.2 = hit_rate self) \/
       (miss_tokens_count out.2 = miss_tokens_count self /\
        count_retrieved kv (retrieve_dim (fmt (metadata self))) =
          Ok (hit_tokens_count out.2 - hit_tokens_count self) /\
        hit_tokens_count self <= hit_tokens_count out.2 /\
        hit_rate out.2 =
          rate_of (hit_tokens_count out.2) (miss_tokens_count out.2) /\
        (0 <= hit_rate out.2)%Qc /\ (hit_rate out.2 <= 1)%Qc))
  end.
Proof.
  intros out. pose proof (retrieve_outcome self tokens mask return_tuple) as H.
  cbv zeta in H. fold out in H.
  destruct (out.1) as [[kv m]|e]; [|exact H].
  destruct H as [Hlen [Hmiss | (Hm & Hle & Hcount & Hpos & Hrate)]].
  - split; [done|]. by left.
  - split; [done|]. right. split; [done|]. split; [done|]. split; [done|].
    split; [done|]. rewrite Hrate. by apply rate_of_bounds.
Qed.

(** X9.  Engines that differ in layout, model name, world size or
    worker id do not see each other's chunks.  When the backend of an
    engine holds no key of a second engine, it holds none after any
    call of [store] on the first, and on that backend the second finds
    nothing: [lookup] answers 0 and [retrieve] gets no chunk. *)
Theorem engines_do_not_share_chunks (self other : LMCacheEngine)
    (tokens : Tensor Z) (kv : KVCache) (kv_mask : option (Tensor bool))
    (skip_existing blocking : bool) :
  engine_owner self <> engine_owner other ->
  (forall key, contains (engine_ self) key = true ->
     key_owner key <> engine_owner other) ->
  let shared := engine_ (store tokens kv kv_mask skip_existing blocking self).2 in
  (forall key, contains shared key = true -> key_owner key <> engine_owner other) /\
  forall (tokens' : list Z) (mask : option (list bool)),
    lookup (set_backend other shared) tokens' = 0 /\
    retrieve_hits (set_backend other shared) tokens' mask = [].
Proof.
  intros Hdiff Hnone shared.
  assert (Hshared : forall key, contains shared key = true ->
                      key_owner key <> engine_owner other).
  { intros key Hkey. unfold shared in Hkey.
    destruct (store_outcome self tokens kv kv_mask skip_existing blocking)
      as [[e Hst] | [chunks Hst]]; rewrite Hst in Hkey; cbn [snd] in Hkey.
    - by apply Hnone.
    - unfold stored, contains, batched_put in Hkey.
      cbn [engine_ add_log set_backend fst kv_store] in Hkey.
      apply bool_decide_eq_true in Hkey.
      apply foldl_insert_origin in Hkey as [Hkey|Hkey].
      + apply Hnone. by apply bool_decide_eq_true.
      + unfold keyed in Hkey. rewrite map_map in Hkey. cbn [fst] in Hkey.
        apply list_elem_of_fmap in Hkey as (hk & -> & _).
        intros Heq. apply Hdiff. rewrite <- Heq. done. }
  split; [exact Hshared|]. intros tokens' mask.
  assert (Habsent : forall h, kv_store shared !!
                      _make_key (set_backend other shared) h (fmt (metadata other))
                    = None).
  { intros h. destruct (kv_store shared !! _) as [blob|] eqn:Hk; [|done].
    exfalso. apply contains_true in Hk. by apply Hshared in Hk. }
  split.
  - unfold lookup. cbv zeta.
    destruct (_prefix_hash _ 0) as [|h hs]; [done|].
    cbn [lookup_loop]. cbn [engine_ set_backend metadata].
    rewrite (contains_false _ _ (Habsent h)). done.
  - unfold retrieve_hits, chunk_keys, batched_get.
    destruct (_prefix_hash _ _) as [|h hs]; [done|].
    cbn [map take_hits]. cbn [engine_ set_backend metadata].
    by rewrite (Habsent h).
Qed.

End Outcomes.

(** ** Registries reached by calls *)

Section Registry.
Context {sha : Sha256}.

Lemma retrieve_keeps_identity (self : LMCacheEngine) (tokens : list Z)
    (mask : option (list bool)) (return_tuple : bool) :
  config (retrieve tokens mask return_tuple self).2 = config self /\
  metadata (retrieve tokens mask return_tuple self).2 = metadata self.
Proof.
  unfold retrieve, bind, get_self, ret, raise, lift, modify. cbv zeta.
  repeat case_match; cbn [fst snd] in *; simplify_eq; done.
Qed.

Lemma run_engine_call_keeps_identity (call : engine_call) (self : LMCacheEngine) :
  config (run_engine_call call self) = config self /\
  metadata (run_engine_call call self) = metadata self.
Proof.
  destruct call as [tokens kv mask se bl | tokens mask rt |]; cbn [run_engine_call].
  - destruct (store_outcome self tokens kv mask se bl) as [[e ->] | [chunks ->]];
      done.
  - apply retrieve_keeps_identity.
  - done.
Qed.

Lemma builder_consistent_empty : builder_consistent empty_builder.
Proof.
  split; [apply builder_wf_empty|].
  split; intros *; cbn; by rewrite lookup_empty.
Qed.

Lemma get_or_create_consistent (cls : LMCacheEngineBuilder) (id : string)
    (config0 : LMCacheEngineConfig) (metadata0 : LMCacheEngineMetadata) :
  builder_consistent cls ->
  builder_consistent (get_or_create id config0 metadata0 cls).2.
Proof. by rewrite get_or_create_unchanged. Qed.

Lemma destroy_frees_only (cls : LMCacheEngineBuilder) (id id' : string) :
  get id' cls = None -> get id' (destroy id cls) = None.
Proof.
  unfold get, destroy. intros Hfree.
  destruct (_instances cls !! id); [|done]. cbn [_instances].
  destruct (decide (id = id')) as [->|Hne];
    [by rewrite lookup_delete_eq|by rewrite lookup_delete_ne].
Qed.

Lemma run_builder_call_keeps_free (call : builder_call) (cls : LMCacheEngineBuilder)
    (id : string) :
  get id cls = None -> get id (run_builder_call call cls) = None.
Proof.
  destruct call as [id0 c m | id0 | engine call]; cbn [run_builder_call].
  - by rewrite get_or_create_unchanged.
  - apply destroy_frees_only.
  - done.
Qed.

Lemma destroy_consistent (cls : LMCacheEngineBuilder) (id : string) :
  builder_consistent cls -> builder_consistent (destroy id cls).
Proof.
  intros (Hwf & Hinj & Hcfg).
  split; [by apply destroy_wf|].
  unfold destroy. destruct (_instances cls !! id) as [engine|] eqn:Hi; [|done].
  cbn [heap _instances _cfgs _metadatas]. split.
  - intros id1 id2 e H1 H2.
    apply lookup_delete_Some in H1 as [_ H1]. apply lookup_delete_Some in H2 as [_ H2].
    by apply (Hinj id1 id2 e).
  - intros id' e He. apply lookup_delete_Some in He as [Hne He].
    rewrite !lookup_delete_ne by done.
    destruct (Hcfg id' e He) as (self & Hself & Hc & Hm).
    destruct (decide (engine = e)) as [->|Hne'].
    + exists (close self).2. split; [|done].
      rewrite list_lookup_alter, Hself. by rewrite decide_True.
    + exists self. split; [|done]. by rewrite list_lookup_alter_ne.
Qed.

Lemma run_builder_call_consistent (call : builder_call) (cls : LMCacheEngineBuilder) :
  builder_consistent cls -> builder_consistent (run_builder_call call cls).
Proof.
  intros Hcons. destruct call as [id c m | id | engine call];
    cbn [run_builder_call].
  - by apply get_or_create_consistent.
  - by apply destroy_consistent.
  - destruct Hcons as ((Hc & Hm & Hlt) & Hinj & Hcfg).
    split; [|split].
    + split; [done|]. split; [done|]. cbn [heap _instances].
      intros id e He. rewrite length_alter. by apply (Hlt id).
    + done.
    + cbn [heap _instances _cfgs _metadatas]. intros id e He.
      destruct (Hcfg id e He) as (self & Hself & Hcs & Hms).
      destruct (decide (engine = e)) as [->|Hne].
      * exists (run_engine_call call self).
        rewrite list_lookup_alter, Hself, decide_True by done.
        destruct (run_engine_call_keeps_identity call self) as [-> ->]. done.
      * exists self. by rewrite list_lookup_alter_ne.
Qed.

(** X10.  Calls of [get_or_create] and [destroy] and uses of the
    engines ([store], [retrieve], [close]), in any number and order,
    keep a registry consistent: the three dictionaries hold the same
    ids and every registered place holds an engine, no two ids share an
    engine, and the engine of an id has the configuration and metadata
    recorded for it.  They register no id: an id that was free is free
    afterwards.  On the registry reached, [get_or_create] changes
    nothing and never fails with [KeyError]; on a free id it raises the
    [TypeError] of the constructor; and an engine it returns is the one
    registered under the id, with the configuration and metadata it was
    asked for. *)
Theorem registry_invariants (cls : LMCacheEngineBuilder) (calls : list builder_call) :
  builder_consistent cls ->
  let cls' := run_builder_calls calls cls in
  builder_consistent cls' /\
  (forall id, get id cls = None -> get id cls' = None) /\
  forall (id : string) (config0 : LMCacheEngineConfig)
         (metadata0 : LMCacheEngineMetadata),
    (get_or_create id config0 metadata0 cls').2 = cls' /\
    (get_or_create id config0 metadata0 cls').1 <> Raise KeyError /\
    (get id cls' = None ->
     (get_or_create id config0 metadata0 cls').1 = Raise TypeError) /\
    forall engine, (get_or_create id config0 metadata0 cls').1 = Ok engine ->
      get id cls' = Some engine /\
      exists self,
        heap cls' !! engine = Some self /\
        config self = config0 /\ metadata self = metadata0.
Proof.
  intros Hcons0 cls'.
  assert (Hreach : builder_consistent cls' /\
                   forall id, get id cls = None -> get id cls' = None).
  { assert (Hgen : forall b, builder_consistent b ->
              (forall id, get id cls = None -> get id b = None) ->
              builder_consistent (run_builder_calls calls b) /\
              forall id, get id cls = None -> get id (run_builder_calls calls b) = None).
    { unfold run_builder_calls.
      induction calls as [|call calls IH]; intros b Hb Hsub; [done|].
      cbn [foldl]. apply IH; [by apply run_builder_call_consistent|].
      intros id Hid. by apply run_builder_call_keeps_free, Hsub. }
    by apply Hgen. }
  revert Hreach. generalize cls'. clear cls'. intros cls' [Hcons Hfree].
  split; [exact Hcons|]. split; [exact Hfree|]. intros id config0 metadata0.
  split; [apply get_or_create_unchanged|].
  destruct Hcons as (Hwf & Hinj & Hcfg).
  unfold get. destruct (_instances cls' !! id) as [engine|] eqn:Hi.
  - unfold get_or_create. rewrite Hi.
    destruct (builder_wf_registered _ _ _ Hwf Hi) as (c & m & Hc & Hm & _).
    rewrite (dict_item_some _ _ _ Hc), (dict_item_some _ _ _ Hm).
    cbn [rbind].
    destruct (decide (c = config0)) as [->|Hnc].
    + rewrite bool_decide_eq_true_2 by done. cbn [negb].
      destruct (decide (m = metadata0)) as [->|Hnm].
      * rewrite bool_decide_eq_true_2 by done. cbn [negb fst snd].
        split; [done|]. split; [done|]. intros e [= <-]. split; [done|].
        destruct (Hcfg id engine Hi) as (self & Hself & Hcs & Hms).
        exists self. split; [done|]. split; congruence.
      * rewrite bool_decide_eq_false_2 by done. cbn [negb fst snd].
        repeat split; done.
    + rewrite bool_decide_eq_false_2 by done. cbn [negb fst snd].
      repeat split; done.
  - rewrite get_or_create_free by done. cbn [fst]. repeat split; done.
Qed.

(** X11.  Calls of the registry repeated or undone.  [get_or_create]
    changes nothing, so a second call with the same arguments returns
    or raises what the first did.  After [destroy] the id is free, a
    second [destroy] of it changes nothing, and [get_or_create] on it
    raises the [TypeError] of the constructor, whatever configuration
    and metadata are given; [destroy] of a free id changes nothing.
    The engine that was registered under the id stays at its place,
    closed, and the other ids keep their engines. *)
Theorem registry_calls_repeated (cls : LMCacheEngineBuilder) (id : string)
    (config0 : LMCacheEngineConfig) (metadata0 : LMCacheEngineMetadata) :
  (get_or_create id config0 metadata0 cls).2 = cls /\
  get_or_create id config0 metadata0 (get_or_create id config0 metadata0 cls).2
  = get_or_create id config0 metadata0 cls /\
  get id (destroy id cls) = None /\
  destroy id (destroy id cls) = destroy id cls /\
  (get id cls = None -> destroy id cls = cls) /\
  get_or_create id config0 metadata0 (destroy id cls)
  = (Raise TypeError, destroy id cls) /\
  (forall engine, get id cls = Some engine ->
     heap (destroy id cls) !! engine
     = (fun self => (close self).2) <$> heap cls !! engine) /\
  (forall id', id' <> id -> get id' (destroy id cls) = get id' cls).
Proof.
  assert (Hgone : _instances (destroy id cls) !! id = None).
  { unfold destroy. destruct (_instances cls !! id) eqn:Hi; [|done].
    cbn [_instances]. by rewrite lookup_delete_eq. }
  split; [apply get_or_create_unchanged|].
  split; [by rewrite get_or_create_unchanged|].
  split; [exact Hgone|].
  split; [unfold destroy at 1; by rewrite Hgone|].
  split; [unfold get, destroy; by intros ->|].
  split; [by apply get_or_create_free|].
  split.
  - unfold get, destroy. intros engine ->. cbn [heap].
    rewrite list_lookup_alter, decide_True by done. done.
  - unfold get, destroy. intros id' Hne.
    destruct (_instances cls !! id); [|done]. cbn [_instances].
    by rewrite lookup_delete_ne.
Qed.

(** X21.  In a registry whose three dictionaries agree on their ids:
    [get_or_create] on a registered id returns the registered engine
    when the configuration and the metadata are equal field by field to
    the registered ones and raises [ValueError] otherwise, the registry
    and its engines unchanged in both cases; on a free id it raises the
    [TypeError] of the constructor, the registry unchanged; [get]
    returns the registered engine or nothing; [destroy] closes the
    engine of a registered id and removes the id from the three
    dictionaries, the other ids and engines unchanged, and returns the
    registry as it was for a free id. *)
Theorem registry_registered_id_and_destroy (cls : LMCacheEngineBuilder)
    (id : string) (config : LMCacheEngineConfig) (metadata : LMCacheEngineMetadata) :
  builder_wf cls ->
  (forall engine, _instances cls !! id = Some engine ->
     (_cfgs cls !! id = Some config /\ _metadatas cls !! id = Some metadata ->
      get_or_create id config metadata cls = (Ok engine, cls)) /\
     (_cfgs cls !! id <> Some config \/ _metadatas cls !! id <> Some metadata ->
      exists msg,
        get_or_create id config metadata cls = (Raise (ValueError msg), cls))) /\
  (_instances cls !! id = None ->
     get_or_create id config metadata cls = (Raise TypeError, cls)) /\
  get id cls = _instances cls !! id /\
  (forall engine, _instances cls !! id = Some engine ->
     get id (destroy id cls) = None /\
     _cfgs (destroy id cls) !! id = None /\
     _metadatas (destroy id cls) !! id = None /\
     (exists self,
        heap cls !! engine = Some self /\
        heap (destroy id cls) !! engine =
          Some (set_backend self (backend_close (engine_ self))) /\
        closed (engine_ (set_backend self (backend_close (engine_ self)))) = true) /\
     (forall engine', engine' <> engine ->
        heap (destroy id cls) !! engine' = heap cls !! engine') /\
     (forall id', id' <> id ->
        get id' (destroy id cls) = get id' cls /\
        _cfgs (destroy id cls) !! id' = _cfgs cls !! id' /\
        _metadatas (destroy id cls) !! id' = _metadatas cls !! id')) /\
  (_instances cls !! id = None -> destroy id cls = cls) /\
  builder_wf (get_or_create id config metadata cls).2 /\
  builder_wf (destroy id cls).
Proof.
  intros Hwf. split; [|split; [|split; [|split; [|split; [|split]]]]].
  - intros engine Hi.
    destruct (builder_wf_registered _ _ _ Hwf Hi) as (c & m & Hc & Hm & _).
    unfold get_or_create. rewrite Hi, (dict_item_some _ _ _ Hc),
      (dict_item_some _ _ _ Hm). cbn [rbind]. split.
    + intros [Hc' Hm']. rewrite Hc in Hc'. rewrite Hm in Hm'.
      injection Hc' as ->. injection Hm' as ->.
      by rewrite !bool_decide_eq_true_2.
    + intros Hdiff. destruct (decide (c = config)) as [->|Hne].
      * rewrite bool_decide_eq_true_2 by done. cbn [negb].
        destruct (decide (m = metadata)) as [->|Hne'].
        { exfalso. rewrite Hc, Hm in Hdiff. by destruct Hdiff. }
        rewrite bool_decide_eq_false_2 by done. by eexists.
      * rewrite bool_decide_eq_false_2 by done. by eexists.
  - apply get_or_create_free.
  - done.
  - intros engine Hi.
    destruct (builder_wf_registered _ _ _ Hwf Hi) as (c & m & Hc & Hm & Hlt).
    unfold destroy, get. rewrite Hi. cbn [heap _instances _cfgs _metadatas].
    rewrite !lookup_delete_eq. repeat split; try done.
    + destruct (lookup_lt_is_Some_2 _ _ Hlt) as [self Hself].
      exists self. split; [done|]. split; [|done].
      rewrite list_lookup_alter, Hself. by rewrite decide_True.
    + intros engine' Hne. by rewrite list_lookup_alter_ne.
    + by rewrite lookup_delete_ne.
    + by rewrite lookup_delete_ne.
    + by rewrite lookup_delete_ne.
  - intros Hi. unfold destroy. by rewrite Hi.
  - by apply get_or_create_wf.
  - by apply destroy_wf.
Qed.

End Registry.

(** ** Slices of a tensor along one axis *)

Lemma prod_list_split (sh : list nat) (k n : nat) :
  sh !! k = Some n ->
  prod_list sh = prod_list (take k sh) * (n * prod_list (drop (S k) sh)).
Proof.
  revert k. induction sh as [|a sh IH]; intros [|k] Hk; try done.
  - injection Hk as ->. unfold prod_list. cbn. rewrite drop_0. lia.
  - cbn in Hk. apply IH in Hk. unfold prod_list in *. cbn [take drop foldr].
    rewrite Hk. lia.
Qed.

Lemma prod_list_insert (sh : list nat) (k n len : nat) :
  sh !! k = Some n ->
  prod_list (<[k := len]> sh) =
  prod_list (take k sh) * (len * prod_list (drop (S k) sh)).
Proof.
  intros Hk. assert (Hlt : k < length sh) by (by apply lookup_lt_Some in Hk).
  rewrite (prod_list_split (<[k := len]> sh) k len)
    by (by apply list_lookup_insert_eq).
  by rewrite take_insert_ge, drop_insert_lt by lia.
Qed.

Section Narrow.
Context {A : Type}.
Implicit Types (l : list A) (sh : list nat).

Lemma narrow_piece_length (k start len n : nat) sh l (o : nat) :
  sh !! k = Some n -> length l = prod_list sh -> start + len <= n ->
  o < prod_list (take k sh) ->
  length (take (len * prod_list (drop (S k) sh))
            (drop ((o * n + start) * prod_list (drop (S k) sh)) l))
  = len * prod_list (drop (S k) sh).
Proof.
  intros Hk Hl Hle Ho. rewrite (prod_list_split sh k n Hk) in Hl.
  rewrite length_take, length_drop, Hl.
  set (outer := prod_list (take k sh)) in *.
  set (inner := prod_list (drop (S k) sh)) in *.
  assert (H1 : S o * n <= outer * n) by (apply Nat.mul_le_mono_r; lia).
  assert (H2 : (o * n + start + len) * inner <= outer * n * inner)
    by (apply Nat.mul_le_mono_r; lia).
  lia.
Qed.

Lemma length_narrow_data (k start len n : nat) sh l :
  sh !! k = Some n -> length l = prod_list sh -> start + len <= n ->
  length (narrow_data k start len sh l) = prod_list (<[k := len]> sh).
Proof.
  intros Hk Hl Hle. rewrite (prod_list_insert sh k n len Hk).
  unfold narrow_data. rewrite Hk. cbn [default].
  rewrite (length_block_concat (len * prod_list (drop (S k) sh))).
  - by rewrite length_map, length_seq.
  - apply Forall_fmap, Forall_seq. intros o Ho. cbn.
    apply (narrow_piece_length k start len n); (done || lia).
Qed.

Lemma block_narrow_data (k start len n : nat) sh l (o : nat) :
  sh !! k = Some n -> length l = prod_list sh -> start + len <= n ->
  o < prod_list (take k sh) ->
  block (len * prod_list (drop (S k) sh)) o (narrow_data k start len sh l) =
  take (len * prod_list (drop (S k) sh))
       (drop ((o * n + start) * prod_list (drop (S k) sh)) l).
Proof.
  intros Hk Hl Hle Ho. unfold narrow_data. rewrite Hk. cbn [default].
  rewrite <- (app_nil_r (concat _)). apply block_concat_lookup.
  - apply Forall_fmap, Forall_seq. intros o' Ho'. cbn.
    apply (narrow_piece_length k start len n); (done || lia).
  - by rewrite list_lookup_fmap, lookup_seq_lt.
Qed.

Lemma narrow_wf (k start len n : nat) (t : Tensor A) :
  tensor_wf t -> shape t !! k = Some n -> start + len <= n ->
  tensor_wf (narrow k start len t).
Proof.
  intros Hwf Hk Hle. unfold tensor_wf, numel, narrow in *. cbn [shape tdata].
  by apply (length_narrow_data k start len n).
Qed.

Lemma narrow_full (k n : nat) (t : Tensor A) :
  tensor_wf t -> shape t !! k = Some n -> narrow k 0 n t = t.
Proof.
  intros Hwf Hk. destruct t as [sh l]. unfold tensor_wf, numel, narrow in *.
  cbn [shape tdata] in *. rewrite (list_insert_id sh k n Hk). f_equal.
  unfold narrow_data. rewrite Hk. cbn [default].
  rewrite (map_ext _ (fun o => take (n * prod_list (drop (S k) sh))
                                 (drop (o * (n * prod_list (drop (S k) sh))) l))).
  - rewrite concat_chunks. apply take_ge.
    by rewrite Hwf, (prod_list_split sh k n Hk).
  - intros o. do 2 f_equal. rewrite Nat.add_0_r. apply eq_sym, Nat.mul_assoc.
Qed.

(** Consecutive pieces of [c] positions of axis [k], read inside the
    [o]-th outer block, are the positions up to [m * c]. *)
Lemma concat_pieces (c n inner base m : nat) l :
  concat (map (fun j => take (Nat.min c (n - j * c) * inner)
                          (drop (base + j * c * inner) l))
              (seq 0 m))
  = take (Nat.min (m * c) n * inner) (drop base l).
Proof.
  induction m as [|m IH]; [done|].
  rewrite seq_S, map_app, concat_app, IH. cbn [map concat Nat.add].
  rewrite app_nil_r. destruct (decide (m * c <= n)) as [Hle|Hgt].
  - rewrite (Nat.min_l (m * c) n) by done.
    rewrite <- (drop_drop l), take_take_drop. f_equal. nia.
  - replace (n - m * c) with 0 by lia. rewrite Nat.min_0_r. cbn [Nat.mul take].
    rewrite app_nil_r. do 2 f_equal. nia.
Qed.

End Narrow.

Lemma sum_list_snoc (l : list nat) (x : nat) : sum_list (l ++ [x]) = sum_list l + x.
Proof. induction l as [|y l IH]; cbn; lia. Qed.

Lemma split_pieces_sum (c n m : nat) :
  sum_list (map (fun j => Nat.min c (n - j * c)) (seq 0 m)) = Nat.min (m * c) n.
Proof.
  induction m as [|m IH]; [done|].
  rewrite seq_S, map_app. cbn [map]. rewrite sum_list_snoc, IH. cbn [Nat.add]. nia.
Qed.

Section CatSplit.
Context {A : Type}.

Lemma cat_split (c k n : nat) (t : Tensor A) :
  0 < c -> 2 <= length (shape t) -> tensor_wf t -> shape t !! k = Some n ->
  let pieces := map (fun j => narrow k (j * c) (Nat.min c (n - j * c)) t)
                    (seq 0 (Nat.max (div_up n c) 1)) in
  split c k t = Ok pieces /\ cat pieces k = Ok t.
Proof.
  intros Hc Hrank Hwf Hk pieces.
  assert (Hklt : k < length (shape t)) by (by apply lookup_lt_Some in Hk).
  split.
  { unfold split. rewrite Hk. destruct c; [lia|done]. }
  destruct t as [sh l]. unfold tensor_wf, numel in Hwf. cbn [shape tdata] in *.
  set (m := Nat.max (div_up n c) 1) in *.
  set (len := fun j => Nat.min c (n - j * c)).
  set (outer := prod_list (take k sh)).
  set (inner := prod_list (drop (S k) sh)).
  assert (Hm : Nat.min (m * c) n = n).
  { pose proof (div_up_mul_ge n c Hc). unfold m. nia. }
  assert (Hj : forall j, j < m -> j * c + len j <= n).
  { intros j Hjm. unfold len. destruct (decide (j < div_up n c)) as [Hlt|Hge].
    - apply div_up_lt in Hlt; [lia|done].
    - assert (j = 0) as -> by (unfold m in Hjm; lia). lia. }
  assert (Hshape : Forall (fun p : Tensor A => shape p <> [0]) pieces).
  { apply Forall_fmap, Forall_forall. intros j _. cbn. intros Hs.
    apply (f_equal length) in Hs. rewrite length_insert in Hs. cbn in Hs. lia. }
  unfold cat. rewrite (filter_all _ _ Hshape).
  assert (Hcons : pieces = narrow k 0 (len 0) (mkTensor sh l) ::
                    map (fun j => narrow k (j * c) (len j) (mkTensor sh l))
                        (seq 1 (m - 1))).
  { unfold pieces. replace m with (S (m - 1)) at 1 by (unfold m; lia). done. }
  rewrite Hcons. cbn [narrow shape tdata].
  rewrite list_lookup_insert_eq by done.
  replace (forallb _ _) with true; cycle 1.
  { symmetry. apply forallb_forall. intros u Hu. apply bool_decide_eq_true.
    apply in_map_iff in Hu as (j & <- & _). unfold narrow. cbn [shape].
    by rewrite !list_insert_insert_eq. }
  f_equal. rewrite list_insert_insert_eq.
  rewrite take_insert_ge, drop_insert_lt by lia. fold outer inner.
  rewrite <- Hcons. unfold pieces. fold len.
  rewrite !map_map. cbn [narrow shape tdata].
  assert (Hsize : forall j, default 0 (<[k:=len j]> sh !! k) = len j).
  { intros j. by rewrite list_lookup_insert_eq. }
  rewrite (map_ext _ len) by exact Hsize.
  unfold len at 1. rewrite split_pieces_sum, Hm, (list_insert_id sh k n Hk).
  f_equal.
  rewrite (map_ext_Forall _
             (fun o => take (n * inner) (drop (o * (n * inner)) l))).
  - rewrite concat_chunks. apply take_ge.
    rewrite Hwf, (prod_list_split sh k n Hk). done.
  - apply Forall_seq. intros o Ho. rewrite map_map. cbn [narrow shape tdata].
    rewrite (map_ext_Forall _
               (fun j => take (Nat.min c (n - j * c) * inner)
                              (drop (o * n * inner + j * c * inner) l))).
    + rewrite concat_pieces, Hm. do 2 f_equal. apply eq_sym, Nat.mul_assoc.
    + apply Forall_seq. intros j Hjm. fold (len j). rewrite Hsize. unfold inner.
      rewrite (block_narrow_data k (j * c) (len j) n);
        [|done|done|apply Hj; lia|unfold outer in Ho; lia].
      fold inner. unfold len. do 2 f_equal. apply Nat.mul_add_distr_r.
Qed.

End CatSplit.

(** ** Chunks of a stacked blob *)

Section SliceCat.
Context {sha : Sha256}.

Lemma slice_kv_at_cat (self : LMCacheEngine) (start : nat) (blob : Tensor Z)
    (fmt : string) :
  fmt_valid fmt -> tensor_wf blob -> length (shape blob) = 5 ->
  let c := Pos.to_nat (chunk_size self) in
  let k := retrieve_dim fmt + 2 in
  exists n chunks,
    shape blob !! k = Some n /\
    _slice_kv_at self start blob fmt = Ok chunks /\
    cat chunks k = slice_from k start blob /\
    slice_from k start blob
      = Ok (narrow k (Nat.min start n) (n - Nat.min start n) blob) /\
    length chunks = Nat.max (div_up (n - Nat.min start n) c) 1 /\
    forall i chunk, chunks !! i = Some chunk ->
      tensor_wf chunk /\
      shape chunk = <[k := Nat.min c (n - Nat.min start n - i * c)]> (shape blob).
Proof.
  intros Hfmt Hwf Hrank c k.
  assert (Hc : 0 < c) by (unfold c; lia).
  assert (Hk : k < length (shape blob)).
  { unfold k. pose proof (retrieve_dim_le fmt). lia. }
  destruct (lookup_lt_is_Some_2 _ _ Hk) as [n Hn].
  set (s := Nat.min start n).
  set (t := narrow k s (n - s) blob).
  assert (Hslice : slice_from k start blob = Ok t).
  { unfold slice_from. by rewrite Hn. }
  assert (Htwf : tensor_wf t).
  { apply (narrow_wf k s (n - s) n); [done|done|unfold s; lia]. }
  assert (Htk : shape t !! k = Some (n - s)).
  { unfold t, narrow. cbn [shape]. by apply list_lookup_insert_eq. }
  assert (Htrank : 2 <= length (shape t)).
  { unfold t, narrow. cbn [shape]. rewrite length_insert. lia. }
  destruct (cat_split c k (n - s) t Hc Htrank Htwf Htk) as [Hsplit Hcat].
  set (pieces := map _ _) in Hsplit, Hcat.
  exists n, pieces. split; [done|]. split.
  { unfold _slice_kv_at. fold c. unfold k, retrieve_dim in Hslice, Hsplit.
    destruct Hfmt as [-> | ->]; cbn [decide] in *.
    - rewrite decide_True by done. rewrite decide_False in Hslice, Hsplit by done.
      cbn [Nat.add] in *. by rewrite Hslice.
    - rewrite decide_False by done. rewrite decide_True by done.
      rewrite decide_True in Hslice, Hsplit by done.
      cbn [Nat.add] in *. by rewrite Hslice. }
  split; [by rewrite Hcat, Hslice|]. split; [done|]. split.
  { unfold pieces. by rewrite length_map, length_seq. }
  intros i chunk Hi. unfold pieces in Hi. rewrite list_lookup_fmap in Hi.
  destruct (seq 0 _ !! i) as [j|] eqn:Hj; [|done].
  apply lookup_seq in Hj as [-> Hlt]. cbn in Hi. injection Hi as <-.
  split.
  - apply (narrow_wf k (i * c) _ (n - s)); [done|done|].
    destruct (decide (i < div_up (n - s) c)) as [Hd|Hd].
    + apply div_up_lt in Hd; [lia|done].
    + assert (i = 0) as -> by lia. lia.
  - unfold narrow, t, narrow. cbn [shape]. by rewrite list_insert_insert_eq.
Qed.

Lemma slice_kv_at_small (self : LMCacheEngine) (chunk : Tensor Z) (fmt : string)
    (n : nat) :
  fmt_valid fmt -> tensor_wf chunk -> length (shape chunk) = 5 ->
  shape chunk !! (retrieve_dim fmt + 2) = Some n ->
  n <= Pos.to_nat (chunk_size self) ->
  _slice_kv_at self 0 chunk fmt = Ok [chunk].
Proof.
  intros Hfmt Hwf Hrank Hn Hle.
  destruct (slice_kv_at_cat self 0 chunk fmt Hfmt Hwf Hrank)
    as (n' & chunks & Hn' & Hslice & _ & _ & Hlen & Hshape).
  cbv zeta in *. rewrite Hn in Hn'. injection Hn' as <-.
  rewrite Hslice. f_equal.
  rewrite Nat.min_0_l, Nat.sub_0_r in *.
  set (c := Pos.to_nat (chunk_size self)) in *.
  assert (Hc : 0 < c) by (unfold c; lia).
  assert (Hone : Nat.max (div_up n c) 1 = 1).
  { assert (~ 1 < div_up n c); [|lia]. intros H.
    apply div_up_lt in H; [lia|done]. }
  rewrite Hone in Hlen.
  destruct chunks as [|chunk' [|]]; try discriminate Hlen. f_equal.
  unfold _slice_kv_at, slice_from, split in Hslice. fold c in Hslice.
  assert (Hcz : (c =? 0) = false) by (apply Nat.eqb_neq; lia).
  destruct Hfmt as [-> | ->].
  - change (retrieve_dim "vllm" + 2) with 2 in Hn.
    rewrite decide_True in Hslice by done.
    rewrite Hn in Hslice. cbn [rbind] in Hslice.
    rewrite Nat.min_0_l, Nat.sub_0_r, (narrow_full 2 n chunk Hwf Hn), Hn, Hcz,
      Hone in Hslice.
    cbn [seq map] in Hslice. rewrite Nat.mul_0_l, Nat.sub_0_r in Hslice.
    rewrite (Nat.min_r c n) in Hslice by lia.
    rewrite (narrow_full 2 n chunk Hwf Hn) in Hslice. congruence.
  - change (retrieve_dim "huggingface" + 2) with 3 in Hn.
    rewrite decide_False in Hslice by done. rewrite decide_True in Hslice by done.
    rewrite Hn in Hslice. cbn [rbind] in Hslice.
    rewrite Nat.min_0_l, Nat.sub_0_r, (narrow_full 3 n chunk Hwf Hn), Hn, Hcz,
      Hone in Hslice.
    cbn [seq map] in Hslice. rewrite Nat.mul_0_l, Nat.sub_0_r in Hslice.
    rewrite (Nat.min_r c n) in Hslice by lia.
    rewrite (narrow_full 3 n chunk Hwf Hn) in Hslice. congruence.
Qed.

End SliceCat.

(** ** Retrieve after store *)

Lemma foldl_insert_notin (pairs : list (CacheEngineKey * Tensor Z))
    (m : gmap CacheEngineKey (Tensor Z)) (key : CacheEngineKey) :
  key ∉ map fst pairs ->
  foldl (fun m kv => <[kv.1 := kv.2]> m) m pairs !! key = m !! key.
Proof.
  revert m. induction pairs as [|[k v] pairs IH]; intros m Hnot; [done|].
  cbn [foldl fst snd]. cbn [map fst] in Hnot.
  apply not_elem_of_cons in Hnot as [Hne Hnot].
  rewrite IH by done. by rewrite lookup_insert_ne.
Qed.

Lemma batched_get_after_put (b : StorageBackend)
    (pairs : list (CacheEngineKey * Tensor Z)) (blocking : bool) :
  NoDup (map fst pairs) ->
  batched_get (batched_put b pairs blocking).1 (map fst pairs) =
  map (fun kv => Some kv.2) pairs.
Proof.
  unfold batched_get, batched_put. cbn [fst kv_store].
  generalize (kv_store b). induction pairs as [|[k v] pairs IH]; intros m Hnd;
    [done|].
  cbn [map fst snd foldl] in *. apply NoDup_cons in Hnd as [Hk Hnd].
  rewrite foldl_insert_notin by done. rewrite lookup_insert_eq. f_equal.
  by apply IH.
Qed.

Lemma take_hits_map_Some (chunks : list (Tensor Z)) :
  take_hits (map Some chunks) = chunks.
Proof. induction chunks as [|chunk chunks IH]; [done|]. cbn. by rewrite IH. Qed.

Lemma retrieved_mask_all (n : nat) : retrieved_mask n 0 n = replicate n true.
Proof.
  unfold retrieved_mask, clear_from, clear_before.
  cbn [Nat.min replicate app Nat.add]. rewrite drop_0, length_replicate.
  rewrite take_ge by (by rewrite length_replicate).
  by rewrite Nat.sub_diag, app_nil_r.
Qed.

Section StackedBlob.
Context {sha : Sha256}.

Lemma stacked_blob_wf (sh : list nat) (kv : KVCache) :
  kv_well_formed sh kv ->
  tensor_wf (mkTensor (length kv :: 2 :: sh)
               (concat (map (fun layer => tdata layer.1 ++ tdata layer.2) kv))).
Proof.
  intros (Hne & Hsh & Hall). unfold tensor_wf, numel. cbn [shape tdata].
  rewrite (length_block_concat (prod_list (2 :: sh))).
  - rewrite length_map. unfold prod_list. cbn. lia.
  - apply Forall_fmap. eapply Forall_impl; [exact Hall|].
    intros [k v] [[Hk Hkw] [Hv Hvw]]. cbn in *.
    unfold tensor_wf, numel in *. rewrite length_app, Hkw, Hvw, Hk, Hv.
    unfold prod_list. cbn. lia.
Qed.

Lemma blob_to_tuple_kv_stacked (sh : list nat) (kv : KVCache) :
  kv_well_formed sh kv ->
  _blob_to_tuple_kv
    (mkTensor (length kv :: 2 :: sh)
       (concat (map (fun layer => tdata layer.1 ++ tdata layer.2) kv)))
  = Ok kv.
Proof.
  intros (Hne & Hsh & Hall).
  unfold _blob_to_tuple_kv, unbind0. cbn [shape tdata rbind].
  set (r := prod_list sh).
  set (D := concat _).
  rewrite (mapM_ok _ (fun inner =>
             (mkTensor sh (block r 0 (tdata inner)),
              mkTensor sh (block r 1 (tdata inner)))))
    by (apply Forall_fmap, Forall_forall; by intros i _).
  f_equal. apply list_eq. intros i. rewrite !list_lookup_fmap.
  destruct (kv !! i) as [[k v]|] eqn:Hi; cycle 1.
  { rewrite lookup_seq_ge; [done|]. by apply lookup_ge_None. }
  assert (i < length kv) by (by eapply lookup_lt_Some).
  rewrite lookup_seq_lt by done. cbn. f_equal.
  destruct (Forall_lookup_1 _ _ _ _ Hall Hi) as [[Hk Hkw] [Hv Hvw]].
  cbn in Hk, Hkw, Hv, Hvw. unfold tensor_wf, numel in Hkw, Hvw.
  rewrite Hk in Hkw. rewrite Hv in Hvw. fold r in Hkw, Hvw.
  assert (HD : block (prod_list (2 :: sh)) i D = tdata k ++ tdata v).
  { unfold D. rewrite <- (app_nil_r (concat _)).
    apply block_concat_lookup; [|by rewrite list_lookup_fmap, Hi].
    apply Forall_fmap. eapply Forall_impl; [exact Hall|].
    intros [k' v'] [[Hk' Hkw'] [Hv' Hvw']]. cbn in *.
    unfold tensor_wf, numel in *. rewrite length_app, Hkw', Hvw', Hk', Hv'.
    unfold prod_list. cbn. lia. }
  rewrite HD, (block_0_app r (tdata k)), (block_S_app r 0 (tdata k)) by done.
  rewrite <- (app_nil_r (tdata v)), (block_0_app r (tdata v)) by done.
  destruct k, v; cbn in *; by subst.
Qed.

Lemma lookup_zero_first_absent (self : LMCacheEngine) (tokens : list Z)
    (h : string) (hs : list string) :
  tokens <> [] ->
  _prefix_hash (_chunk_tokens self tokens) 0 = h :: hs ->
  lookup self tokens = 0 ->
  contains (engine_ self) (_make_key self h (fmt (metadata self))) = false.
Proof.
  intros Hne Hh Hz. unfold lookup in Hz. cbv zeta in Hz. rewrite Hh in Hz.
  cbn [lookup_loop] in Hz.
  destruct (contains _ _); [|done]. cbn [negb] in Hz.
  rewrite lookup_loop_count in Hz by lia.
  destruct tokens; [done|]. cbn [length] in Hz. lia.
Qed.

(** X12.  The chunks [_slice_kv_at] cuts from a well-formed stacked
    blob are well-formed tensors; with [n] tokens from [start_idx] on
    there are [max(ceil(n / chunk_size), 1)] of them, the [i]-th holding
    [min(chunk_size, n - i * chunk_size)] tokens, and [torch.cat] along
    the token axis puts them together to the blob from [start_idx] on:
    to the whole blob for the chunks of [_chunk_kv]. *)
Theorem cat_of_slice_kv_at (self : LMCacheEngine) (start_idx : nat)
    (blob : Tensor Z) (fmt : string) :
  fmt_valid fmt -> tensor_wf blob -> length (shape blob) = 5 ->
  let c := Pos.to_nat (chunk_size self) in
  let k := retrieve_dim fmt + 2 in
  let n := blob_tokens fmt blob - Nat.min start_idx (blob_tokens fmt blob) in
  exists chunks,
    _slice_kv_at self start_idx blob fmt = Ok chunks /\
    cat chunks k = slice_from k start_idx blob /\
    length chunks = Nat.max (div_up n c) 1 /\
    (forall i chunk, chunks !! i = Some chunk ->
       tensor_wf chunk /\
       shape chunk = <[k := Nat.min c (n - i * c)]> (shape blob)) /\
    (start_idx = 0 -> _chunk_kv self blob fmt = Ok chunks /\ cat chunks k = Ok blob).
Proof.
  intros Hfmt Hwf Hrank c k n.
  destruct (slice_kv_at_cat self start_idx blob fmt Hfmt Hwf Hrank)
    as (n' & chunks & Hn' & Hslice & Hcat & Hfrom & Hlen & Hshape).
  cbv zeta in *. fold c k in Hn', Hcat, Hfrom, Hlen, Hshape.
  assert (Hbt : blob_tokens fmt blob = n').
  { unfold blob_tokens. fold k. by rewrite Hn'. }
  unfold n. rewrite Hbt.
  exists chunks. split; [done|]. split; [done|]. split; [done|]. split; [done|].
  intros ->. split; [done|].
  rewrite Hcat, Hfrom, Nat.min_0_l, Nat.sub_0_r. f_equal.
  by apply narrow_full.
Qed.

End StackedBlob.

Lemma take_hits_app_Some (chunks : list (Tensor Z)) (it : list (option (Tensor Z))) :
  take_hits (map Some chunks ++ it) = chunks ++ take_hits it.
Proof. induction chunks as [|chunk chunks IH]; [done|]. cbn. by rewrite IH. Qed.

Lemma retrieved_mask_prefix (n more : nat) :
  retrieved_mask (n + more) 0 n = replicate n true ++ replicate more false.
Proof.
  unfold retrieved_mask, clear_from, clear_before.
  cbn [Nat.min replicate app Nat.add]. rewrite drop_0, length_replicate.
  rewrite take_replicate. f_equal; f_equal; lia.
Qed.

Section StoreThenRetrieve.
Context {sha : Sha256}.

Lemma store_fresh_run (self : LMCacheEngine) (tokens : Tensor Z) (kv : KVCache)
    (sh : list nat) (skip_existing blocking : bool) :
  store_preconditions self tokens kv None sh ->
  0 < prod_list sh ->
  skip_existing = false \/ lookup self (tdata tokens) = 0 ->
  let fmt0 := fmt (metadata self) in
  let n := length (tdata tokens) in
  let hashes := _prefix_hash (_chunk_tokens self (tdata tokens)) 0 in
  let blob := mkTensor (length kv :: 2 :: sh)
                (concat (map (fun layer => tdata layer.1 ++ tdata layer.2) kv)) in
  exists chunk0 rest,
    0 < n /\
    sh !! retrieve_dim fmt0 = Some n /\
    _chunk_kv self blob fmt0 = Ok (chunk0 :: rest) /\
    length hashes = S (length rest) /\
    store tokens kv None skip_existing blocking self =
    (Ok None, stored self (zip hashes (chunk0 :: rest)) blocking) /\
    _slice_kv_at self 0 chunk0 fmt0 = Ok [chunk0] /\
    cat (chunk0 :: rest) (retrieve_dim fmt0 + 2) = Ok blob.
Proof.
  intros Hpre Hpos Hmode fmt0 n hashes blob.
  destruct (store_run self tokens kv None sh skip_existing blocking Hpre)
    as (blob' & Hblob & _ & Hstore).
  destruct Hpre as (Hfmt & Hrank & Hwf & Hmrank & Hlen & Halign & Hkv & Hcount).
  rewrite (tuple_kv_to_blob_ok sh kv Hkv) in Hblob. injection Hblob as <-.
  fold blob fmt0 in Hstore.
  rewrite (store_num_skip_tok_none tokens Hrank) in *.
  rewrite Nat.add_0_r, (tlen_wf_rank1 tokens) in Hcount by done.
  rewrite Nat.Div0.div_0_l in Hstore. fold n fmt0 in Hcount.
  pose proof (stacked_blob_wf sh kv Hkv) as Hbwf. fold blob in Hbwf.
  destruct Hkv as (Hne & Hsh & Hall).
  assert (HL : 0 < length kv) by (destruct kv; [done|cbn; lia]).
  assert (Hbrank : length (shape blob) = 5) by (cbn; lia).
  set (c := Pos.to_nat (chunk_size self)) in *.
  assert (Hc : 0 < c) by (unfold c; lia).
  assert (Hdim : sh !! retrieve_dim fmt0 = Some n /\ 0 < n).
  { unfold tokens_of_shape, token_axis in Hcount. unfold retrieve_dim.
    destruct sh as [|a [|b [|d [|]]]]; try discriminate Hsh.
    unfold prod_list in Hpos. cbn in Hpos.
    destruct (decide (fmt0 = "huggingface")); cbn in Hcount |- *; subst n;
      rewrite Hcount; (split; [done|nia]). }
  destruct Hdim as [Hdim Hn].
  destruct (slice_kv_at_cat self 0 blob fmt0 Hfmt Hbwf Hbrank)
    as (n' & kvs & Hn' & Hslice & Hcat & Hfrom & Hlkvs & Hshape).
  cbv zeta in *. fold c in Hlkvs, Hshape.
  assert (n' = n) as ->.
  { replace (retrieve_dim fmt0 + 2) with (S (S (retrieve_dim fmt0))) in Hn' by lia.
    change (sh !! retrieve_dim fmt0 = Some n') in Hn'. congruence. }
  rewrite Hfrom, Nat.min_0_l, Nat.sub_0_r, (narrow_full _ n blob Hbwf Hn') in Hcat.
  rewrite Nat.min_0_l, Nat.sub_0_r in Hlkvs, Hshape.
  assert (Hdiv : 0 < div_up n c) by (by apply (div_up_lt n c 0)).
  assert (Hlh : length hashes = div_up n c).
  { unfold hashes. by rewrite length_prefix_hash, length_chunk_tokens, Nat.sub_0_r. }
  destruct kvs as [|chunk0 rest]; [cbn in Hlkvs; lia|].
  exists chunk0, rest. split; [done|]. split; [done|]. split; [exact Hslice|].
  split; [cbn [length] in Hlkvs; lia|]. split; [|split; [|done]].
  - rewrite Hstore. unfold _make_chunks. destruct skip_existing.
    + destruct Hmode as [?|Hzero]; [done|].
      unfold _make_chunks_skip_existing. fold c hashes. unfold blob at 1.
      rewrite (num_tokens_in_kv_blob sh) by done. cbn [rbind]. fold blob fmt0.
      rewrite <- Hcount.
      destruct hashes as [|h hs] eqn:Hh; [cbn in Hlh; lia|].
      unfold py_range. destruct (div_up n c) as [|m] eqn:Hm; [lia|].
      cbn [seq map zip_with first_missing]. rewrite Nat.mul_0_l.
      assert (Habs : contains (engine_ self) (_make_key self h fmt0) = false).
      { apply (lookup_zero_first_absent self (tdata tokens) h hs); try done.
        intros Hnil. unfold n in Hn. rewrite Hnil in Hn. cbn in Hn. lia. }
      rewrite Habs. cbn [negb]. rewrite Hslice. cbn [rbind]. by rewrite drop_0.
    + cbn [Nat.eqb]. fold hashes. unfold _chunk_kv. by rewrite Hslice.
  - destruct (Hshape 0 chunk0 eq_refl) as [Hwf0 Hsh0].
    rewrite Nat.mul_0_l, Nat.sub_0_r in Hsh0.
    apply (slice_kv_at_small self chunk0 fmt0 (Nat.min c n)); try done.
    + rewrite Hsh0, length_insert. done.
    + rewrite Hsh0. apply list_lookup_insert_eq. cbn.
      pose proof (retrieve_dim_le fmt0). lia.
    + fold c. lia.
Qed.

Lemma retrieve_stored_chunks (self' : LMCacheEngine) (query : list Z)
    (kv : KVCache) (sh : list nat) (n : nat) (chunk0 : Tensor Z)
    (rest : list (Tensor Z)) (return_tuple : bool) :
  let fmt0 := fmt (metadata self') in
  let blob := mkTensor (length kv :: 2 :: sh)
                (concat (map (fun layer => tdata layer.1 ++ tdata layer.2) kv)) in
  fmt_valid fmt0 -> kv_well_formed sh kv -> 0 < prod_list sh ->
  sh !! retrieve_dim fmt0 = Some n -> 0 < n ->
  retrieve_hits self' query None = chunk0 :: rest ->
  _slice_kv_at self' 0 chunk0 fmt0 = Ok [chunk0] ->
  cat (chunk0 :: rest) (retrieve_dim fmt0 + 2) = Ok blob ->
  retrieve query None return_tuple self' =
  (Ok (if return_tuple then RetTuple kv else RetBlob blob,
       retrieved_mask (length query) 0 n),
   after_hit self' return_tuple (S (length rest)) n).
Proof.
  intros fmt0 blob Hfmt Hkv Hpos Hdim Hn Hhits Hsmall Hcat.
  pose proof (retrieve_with_hits self' query None return_tuple chunk0 rest
                [chunk0] chunk0 blob
                (if return_tuple then RetTuple kv else RetBlob blob) n) as H.
  cbv zeta in H. apply H; try done; [| |lia].
  - destruct return_tuple; [|done].
    unfold blob. by rewrite (blob_to_tuple_kv_stacked sh kv Hkv).
  - fold fmt0. destruct return_tuple.
    + destruct Hkv as (Hne & Hsh & Hall).
      destruct kv as [|layer0 layers]; [done|].
      apply Forall_cons in Hall as [[[Hs0 _] _] _].
      unfold count_retrieved, shape_at. by rewrite Hs0, Hdim.
    + unfold count_retrieved, numel, shape_at.
      assert (Hnum : prod_list (shape blob) <> 0).
      { destruct Hkv as (Hne & _ & _).
        assert (0 < length kv) by (destruct kv; [done|cbn; lia]).
        unfold blob, prod_list in *. cbn [shape foldr]. nia. }
      apply Nat.eqb_neq in Hnum. rewrite Hnum.
      replace (retrieve_dim fmt0 + 2) with (S (S (retrieve_dim fmt0))) by lia.
      change (shape blob !! S (S (retrieve_dim fmt0)))
        with (sh !! retrieve_dim fmt0). by rewrite Hdim.
Qed.

(** X13.  What [store] writes, [retrieve] gives back.  Once a blocking
    call of [store] without a mask that passes the checks of its
    arguments has returned, for a KV cache that is not empty and tokens
    whose chunk hashes are pairwise different, made without
    [skip_existing] or on an engine where [lookup] finds nothing of the
    tokens, [retrieve] on the same tokens returns the nested KV cache
    that was stored, or its stacked blob, with a mask that is true
    everywhere, and counts all the tokens as hits. *)
Theorem retrieve_after_store (self : LMCacheEngine) (tokens : Tensor Z)
    (kv : KVCache) (sh : list nat) (skip_existing : bool) :
  store_preconditions self tokens kv None sh ->
  0 < prod_list sh ->
  NoDup (_prefix_hash (_chunk_tokens self (tdata tokens)) 0) ->
  skip_existing = false \/ lookup self (tdata tokens) = 0 ->
  let n := length (tdata tokens) in
  let self' := (store tokens kv None skip_existing true self).2 in
  (retrieve (tdata tokens) None true self').1 = Ok (RetTuple kv, replicate n true) /\
  (exists blob,
     _tuple_kv_to_blob kv = Ok blob /\
     (retrieve (tdata tokens) None false self').1
     = Ok (RetBlob blob, replicate n true)) /\
  forall return_tuple,
    hit_tokens_count (retrieve (tdata tokens) None return_tuple self').2
    = hit_tokens_count self + n /\
    miss_tokens_count (retrieve (tdata tokens) None return_tuple self').2
    = miss_tokens_count self.
Proof.
  intros Hpre Hpos Hnodup Hmode n self'.
  destruct (store_fresh_run self tokens kv sh skip_existing true Hpre Hpos Hmode)
    as (chunk0 & rest & Hn & Hdim & Hchunks & Hlh & Hstore & Hsmall & Hcat).
  cbv zeta in *. fold n in Hn, Hdim.
  destruct Hpre as (Hfmt & _ & _ & _ & _ & _ & Hkv & _).
  set (fmt0 := fmt (metadata self)) in *.
  set (hashes := _prefix_hash (_chunk_tokens self (tdata tokens)) 0) in *.
  set (blob := mkTensor (length kv :: 2 :: sh) _) in *.
  unfold self'. rewrite Hstore. cbn [snd]. clear self'.
  set (self' := stored self (zip hashes (chunk0 :: rest)) true).
  assert (Hhits : retrieve_hits self' (tdata tokens) None = chunk0 :: rest).
  { unfold retrieve_hits, retrieve_num_skip_chunk.
    change (chunk_keys self' (tdata tokens) 0)
      with (map (fun h => _make_key self h fmt0) hashes).
    unfold self', stored. cbn [engine_ add_log set_backend].
    assert (Hkeys : map fst (keyed self (zip hashes (chunk0 :: rest))) =
                    map (fun h => _make_key self h fmt0) hashes).
    { unfold keyed. rewrite map_map. cbn [fst].
      rewrite <- (map_map fst (fun h => _make_key self h fmt0)).
      rewrite fst_zip; [done|]. cbn [length]. lia. }
    rewrite <- Hkeys, batched_get_after_put.
    - unfold keyed. rewrite map_map. cbn [snd].
      rewrite <- (map_map snd Some), snd_zip by (cbn [length]; lia).
      apply take_hits_map_Some.
    - rewrite Hkeys.
      assert (Hinj : Inj eq eq (fun h => _make_key self h fmt0)).
      { intros h1 h2 Heq. by injection Heq. }
      by apply (NoDup_fmap_2 _). }
  assert (Hret : forall return_tuple : bool,
            retrieve (tdata tokens) None return_tuple self' =
            (Ok (if return_tuple then RetTuple kv else RetBlob blob,
                 replicate n true),
             after_hit self' return_tuple (S (length rest)) n)).
  { intros rt. rewrite <- retrieved_mask_all.
    by apply (retrieve_stored_chunks self' (tdata tokens) kv sh n chunk0 rest rt). }
  split; [by rewrite (Hret true)|]. split.
  - exists blob. split; [by apply tuple_kv_to_blob_ok|]. by rewrite (Hret false).
  - intros rt. rewrite (Hret rt). cbn [snd].
    destruct (after_hit_rate self' rt (S (length rest)) n) as (Hh & Hm & _).
    by rewrite Hh, Hm.
Qed.

(** X19.  A prompt that goes on after stored tokens gets their KV cache
    back.  Once a blocking call of [store] without a mask that passes
    the checks of its arguments has returned, for a KV cache that is
    not empty and a whole number of chunks of tokens, [retrieve] on the
    stored tokens followed by any further tokens returns the nested KV
    cache that was stored, with a mask that is true on the stored
    tokens and false on the further ones, provided the chunk hashes of
    the longer prompt are pairwise different and the backend held none
    of its chunks before the call of [store]. *)
Theorem retrieve_extension_after_store (self : LMCacheEngine) (tokens : Tensor Z)
    (kv : KVCache) (sh : list nat) (skip_existing : bool)
    (more : list Z) :
  store_preconditions self tokens kv None sh ->
  0 < prod_list sh ->
  Nat.divide (Pos.to_nat (chunk_size self)) (length (tdata tokens)) ->
  NoDup (_prefix_hash (_chunk_tokens self (tdata tokens ++ more)) 0) ->
  Forall (fun key => contains (engine_ self) key = false)
         (chunk_keys self (tdata tokens ++ more) 0) ->
  let n := length (tdata tokens) in
  let self' := (store tokens kv None skip_existing true self).2 in
  (retrieve (tdata tokens ++ more) None true self').1
  = Ok (RetTuple kv, replicate n true ++ replicate (length more) false) /\
  hit_tokens_count (retrieve (tdata tokens ++ more) None true self').2
  = hit_tokens_count self + n /\
  lookup self' (tdata tokens ++ more) = n.
Proof.
  intros Hpre Hpos Hdiv Hnodup Hfresh n self'.
  set (c := Pos.to_nat (chunk_size self)) in *.
  assert (Hc : 0 < c) by (unfold c; lia).
  set (hashesQ := _prefix_hash (_chunk_tokens self (tdata tokens ++ more)) 0) in *.
  set (hashes := _prefix_hash (_chunk_tokens self (tdata tokens)) 0).
  set (fmt0 := fmt (metadata self)).
  assert (Hlh : length hashes = n / c).
  { unfold hashes. rewrite length_prefix_hash, length_chunk_tokens, Nat.sub_0_r.
    fold c n. destruct Hdiv as [q Hq]. fold n in Hq. rewrite Hq.
    rewrite Nat.div_mul by lia. unfold div_up.
    replace (q * c + c - 1) with (c - 1 + q * c) by lia.
    rewrite Nat.div_add by lia. rewrite Nat.div_small by lia. done. }
  assert (Hsplit : hashesQ = hashes ++ drop (n / c) hashesQ).
  { rewrite <- (take_drop (n / c) hashesQ) at 1. f_equal.
    unfold hashesQ. rewrite (prefix_hash_app_take self (tdata tokens) more (n / c))
      by done.
    fold hashes. apply take_ge. lia. }
  assert (Hzero : lookup self (tdata tokens) = 0).
  { unfold lookup. cbv zeta. fold hashes fmt0.
    destruct hashes as [|h hs] eqn:Hh; [done|]. cbn [lookup_loop].
    rewrite Forall_forall in Hfresh.
    rewrite (Hfresh (_make_key self h fmt0)); [done|].
    unfold chunk_keys. fold hashesQ fmt0. rewrite Hsplit. cbn [app map].
    apply list_elem_of_here. }
  destruct (store_fresh_run self tokens kv sh skip_existing true Hpre Hpos
              (or_intror Hzero))
    as (chunk0 & rest & Hn & Hdim & Hchunks & Hlh' & Hstore & Hsmall & Hcat).
  cbv zeta in *. fold n fmt0 hashes in Hn, Hdim, Hchunks, Hlh', Hstore, Hsmall, Hcat.
  destruct Hpre as (Hfmt & _ & _ & _ & _ & _ & Hkv & _). fold fmt0 in Hfmt.
  unfold self'. rewrite Hstore. cbn [snd]. clear self'.
  set (self' := stored self (zip hashes (chunk0 :: rest)) true).
  assert (Hinj : Inj eq eq (fun h => _make_key self h fmt0)).
  { intros h1 h2 Heq. by injection Heq. }
  assert (Hkeys : map fst (keyed self (zip hashes (chunk0 :: rest))) =
                  map (fun h => _make_key self h fmt0) hashes).
  { unfold keyed. rewrite map_map. cbn [fst].
    rewrite <- (map_map fst (fun h => _make_key self h fmt0)).
    rewrite fst_zip; [done|]. cbn [length]. lia. }
  rewrite Hsplit in Hnodup. apply NoDup_app in Hnodup as (Hnd & Hdisj & _).
  assert (Hhits : retrieve_hits self' (tdata tokens ++ more) None = chunk0 :: rest).
  { unfold retrieve_hits, retrieve_num_skip_chunk.
    change (chunk_keys self' (tdata tokens ++ more) 0)
      with (map (fun h => _make_key self h fmt0) hashesQ).
    rewrite Hsplit, map_app. unfold batched_get at 1. rewrite map_app.
    fold (batched_get (engine_ self') (map (fun h => _make_key self h fmt0) hashes)).
    unfold self', stored. cbn [engine_ add_log set_backend].
    rewrite <- Hkeys at 1. rewrite batched_get_after_put
      by (rewrite Hkeys; by apply (NoDup_fmap_2 _)).
    unfold keyed at 1. rewrite map_map. cbn [snd].
    rewrite <- (map_map snd Some), snd_zip by (cbn [length]; lia).
    rewrite take_hits_app_Some.
    destruct (drop (n / c) hashesQ) as [|h later] eqn:Hlater;
      [by rewrite app_nil_r|].
    cbn [map take_hits]. unfold batched_put. cbn [fst kv_store].
    rewrite foldl_insert_notin; cycle 1.
    { rewrite Hkeys. intros Hin. apply list_elem_of_fmap in Hin as (h' & Heq & Hin).
      apply Hinj in Heq as <-. apply (Hdisj h Hin). apply list_elem_of_here. }
    rewrite Forall_forall in Hfresh.
    assert (Habs : contains (engine_ self) (_make_key self h fmt0) = false).
    { apply Hfresh. unfold chunk_keys. fold hashesQ fmt0. rewrite Hsplit.
      rewrite map_app. apply elem_of_app. right. cbn [map]. apply list_elem_of_here. }
    unfold contains in Habs. apply bool_decide_eq_false in Habs.
    destruct (kv_store (engine_ self) !! _) eqn:Hk; [|by rewrite app_nil_r].
    exfalso. apply Habs. by eexists. }
  pose proof (retrieve_stored_chunks self' (tdata tokens ++ more) kv sh n chunk0 rest
                true Hfmt Hkv Hpos Hdim Hn Hhits Hsmall Hcat) as Hret.
  cbv zeta in Hret. rewrite length_app in Hret. fold n in Hret.
  rewrite retrieved_mask_prefix in Hret. rewrite Hret. cbn [fst snd].
  split; [done|]. split; [by destruct (after_hit_rate self' true (S (length rest)) n)|].
  rewrite lookup_formula.
  change (take_hits (batched_get (engine_ self')
                       (chunk_keys self' (tdata tokens ++ more) 0)))
    with (retrieve_hits self' (tdata tokens ++ more) None).
  rewrite Hhits. change (chunk_size self') with (chunk_size self). fold c.
  rewrite length_app. fold n. cbn [length]. rewrite <- Hlh', Hlh.
  destruct Hdiv as [q Hq]. fold n in Hq. rewrite Hq, Nat.div_mul by lia. lia.
Qed.

End StoreThenRetrieve.

(** ** The checks of the separator tests *)

Lemma starts_with_take (spt tokens : list Z) :
  starts_with spt tokens = true <-> take (length spt) tokens = spt.
Proof.
  revert tokens. induction spt as [|s spt IH]; intros [|t tokens]; cbn; try done.
  rewrite andb_true_iff, bool_decide_eq_true, IH. split.
  - by intros [-> ->].
  - intros [= -> Ht]. by rewrite Ht.
Qed.

Lemma occurs_at_bound (spt tokens : list Z) (i : nat) :
  spt <> [] -> occurs_at spt tokens i -> i + length spt <= length tokens.
Proof.
  intros Hne Hocc. unfold occurs_at in Hocc. apply starts_with_take in Hocc.
  apply (f_equal length) in Hocc. rewrite length_take, length_drop in Hocc.
  destruct spt; [done|]. cbn [length] in *. lia.
Qed.

Lemma check_has_spt_loop_spec (fuel : nat) (tokens spt : list Z) (i : nat) :
  spt <> [] -> length tokens - i < fuel ->
  exists b, check_has_spt_loop fuel tokens spt i = Some b /\
    (b = true <-> exists j, i <= j /\ occurs_at spt tokens j).
Proof.
  intros Hne. revert i. induction fuel as [|fuel IH]; intros i Hfuel; [lia|].
  cbn [check_has_spt_loop].
  assert (Hlen : 0 < length spt) by (destruct spt; [done|cbn; lia]).
  destruct (length tokens <? i + length spt) eqn:Hend.
  - apply Nat.ltb_lt in Hend. exists false. split; [done|]. split; [done|].
    intros (j & Hj & Hocc). apply occurs_at_bound in Hocc; [lia|done].
  - apply Nat.ltb_ge in Hend.
    destruct (decide (py_slice i (i + length spt) tokens = spt)) as [Heq|Hneq].
    + rewrite bool_decide_eq_true_2 by done. exists true. split; [done|].
      split; [|done]. intros _. exists i. split; [done|].
      apply starts_with_take. unfold py_slice in Heq.
      by replace (i + length spt - i) with (length spt) in Heq by lia.
    + rewrite bool_decide_eq_false_2 by done.
      destruct (IH (i + 1)) as (b & Hb & Hiff); [lia|].
      exists b. split; [done|]. rewrite Hiff. split.
      * intros (j & Hj & Hocc). exists j. split; [lia|done].
      * intros (j & Hj & Hocc). exists j. split; [|done].
        destruct (decide (j = i)) as [->|]; [|lia].
        exfalso. apply Hneq. apply starts_with_take in Hocc. unfold py_slice.
        by replace (i + length spt - i) with (length spt) by lia.
Qed.

(** X14.  [check_has_spt] fails its assertion on an empty separator.
    On a separator that is not empty it returns after at most
    [len(tokens) + 1] rounds of its loop, and it returns [True] exactly
    when the separator occurs somewhere in the tokens. *)
Theorem check_has_spt_finds_occurrences (fuel : nat) (tokens spt : list Z) :
  check_has_spt fuel tokens [] = Some (Raise (AssertionError EmptyString)) /\
  (spt <> [] -> length tokens < fuel ->
   exists b, check_has_spt fuel tokens spt = Some (Ok b) /\
     (b = true <-> exists i, occurs_at spt tokens i)).
Proof.
  split; [done|]. intros Hne Hfuel. unfold check_has_spt.
  assert (Hlen : 0 < length spt) by (destruct spt; [done|cbn; lia]).
  apply Nat.ltb_lt in Hlen as Hlt. rewrite Hlt. cbn [negb].
  destruct (length tokens <? length spt) eqn:Hshort.
  - apply Nat.ltb_lt in Hshort. exists false. split; [done|]. split; [done|].
    intros (i & Hocc). apply occurs_at_bound in Hocc; [lia|done].
  - destruct (check_has_spt_loop_spec fuel tokens spt 0 Hne) as (b & -> & Hiff);
      [lia|].
    exists b. split; [done|]. rewrite Hiff. split.
    + intros (j & _ & Hocc). by exists j.
    + intros (j & Hocc). exists j. split; [lia|done].
Qed.

Lemma check_has_spt_finds_occurrences_witness :
  exists b, check_has_spt 6 [1; 2; 9; 9; 3]%Z [9; 9]%Z = Some (Ok b) /\
    (b = true <-> exists i, occurs_at [9; 9]%Z [1; 2; 9; 9; 3]%Z i).
Proof.
  apply (check_has_spt_finds_occurrences 6 [1; 2; 9; 9; 3]%Z [9; 9]%Z).
  - discriminate.
  - cbn. lia.
Defined.

Lemma drop_lookup_cons {A} (l : list A) (i : nat) (x : A) :
  l !! i = Some x -> drop i l = x :: drop (S i) l.
Proof.
  revert i. induction l as [|y l IH]; intros [|i] Hi; try done.
  - by injection Hi as ->.
  - cbn in *. by apply IH.
Qed.

Lemma sum_Z_take_S_cons (j : nat) (x : Z) (l : list Z) :
  sum_Z (take (S j) (x :: l)) = (x + sum_Z (take j l))%Z.
Proof. done. Qed.

Lemma sum_Z_take_0 (l : list Z) : sum_Z (take 0 l) = 0%Z.
Proof. by destruct l. Qed.

Lemma assert_segments_spec (indices chunk_lengths : list Z) (i : nat) (s s' : Z) :
  assert_segments indices chunk_lengths i s = Ok s' <->
  (forall j idx, indices !! j = Some idx ->
     exists len, chunk_lengths !! (i + j) = Some len /\ (0 <= len)%Z /\
       idx = (s + sum_Z (take (S j) (drop i chunk_lengths)))%Z) /\
  s' = default s (last indices).
Proof.
  revert i s. induction indices as [|idx rest IH]; intros i s.
  - cbn. split.
    + intros [= ->]. split; [|done]. by intros j idx Hj.
    + by intros [_ ->].
  - cbn [assert_segments].
    assert (Hlast : default s (last (idx :: rest)) = default idx (last rest)).
    { destruct rest as [|y r]; [done|].
      change (last (idx :: y :: r)) with (last (y :: r)).
      destruct (last (y :: r)) eqn:E; [done|]. by apply last_None in E. }
    rewrite Hlast.
    destruct (s <=? idx)%Z eqn:Hle; cbn [negb]; cycle 1.
    { apply Z.leb_gt in Hle. split; [done|]. intros [Hall _].
      destruct (Hall 0 idx eq_refl) as (len & Hlen & Hpos & Hidx).
      rewrite Nat.add_0_r in Hlen. rewrite (drop_lookup_cons _ _ _ Hlen) in Hidx.
      rewrite sum_Z_take_S_cons, sum_Z_take_0 in Hidx. lia. }
    apply Z.leb_le in Hle.
    destruct (chunk_lengths !! i) as [len|] eqn:Hi; cycle 1.
    { split; [done|]. intros [Hall _].
      destruct (Hall 0 idx eq_refl) as (len & Hlen & _).
      rewrite Nat.add_0_r in Hlen. congruence. }
    destruct (idx - s =? len)%Z eqn:Hseg; cbn [negb]; cycle 1.
    { apply Z.eqb_neq in Hseg. split; [done|]. intros [Hall _].
      destruct (Hall 0 idx eq_refl) as (len' & Hlen & _ & Hidx).
      rewrite Nat.add_0_r in Hlen. rewrite (drop_lookup_cons _ _ _ Hlen) in Hidx.
      rewrite sum_Z_take_S_cons, sum_Z_take_0 in Hidx.
      assert (len' = len) by congruence. lia. }
    apply Z.eqb_eq in Hseg. rewrite IH.
    rewrite (drop_lookup_cons _ _ _ Hi).
    split; intros [Hall ->]; (split; [|done]).
    + intros [|j] idx' Hj.
      * injection Hj as <-. exists len.
        rewrite Nat.add_0_r, sum_Z_take_S_cons, sum_Z_take_0.
        split; [done|]. split; lia.
      * cbn in Hj. destruct (Hall j idx' Hj) as (len' & Hlen & Hpos & ->).
        exists len'. replace (i + S j) with (S i + j) by lia.
        split; [done|]. split; [done|]. rewrite sum_Z_take_S_cons. lia.
    + intros j idx' Hj. destruct (Hall (S j) idx' Hj) as (len' & Hlen & Hpos & Hidx).
      exists len'. replace (i + S j) with (S i + j) in Hlen by lia.
      split; [done|]. split; [done|]. rewrite Hidx, sum_Z_take_S_cons. lia.
Qed.

(** X15.  [assert_indices_is_concat] passes exactly when there is one
    index less than there are chunk lengths, the lengths before the last
    are not negative, and every index is the sum of the lengths up to
    its position: the three assertions after its loop never fail once
    the loop has passed. *)
Theorem assert_indices_is_concat_passes (indices chunk_lengths : list Z) :
  assert_indices_is_concat indices chunk_lengths = Ok tt <->
  S (length indices) = length chunk_lengths /\
  forall j idx, indices !! j = Some idx ->
    exists len, chunk_lengths !! j = Some len /\ (0 <= len)%Z /\
      idx = sum_Z (take (S j) chunk_lengths).
Proof.
  unfold assert_indices_is_concat.
  destruct (Z.of_nat (length indices) =? Z.of_nat (length chunk_lengths) - 1)%Z
    eqn:Hlen; cbn [negb]; cycle 1.
  { apply Z.eqb_neq in Hlen. split; [done|]. intros [H _]. lia. }
  apply Z.eqb_eq in Hlen.
  assert (Hlen' : S (length indices) = length chunk_lengths) by lia.
  destruct (length indices =? 0) eqn:Hz.
  { apply Nat.eqb_eq in Hz. destruct indices; [|done].
    split; [|done]. intros _. split; [done|]. by intros j idx Hj. }
  apply Nat.eqb_neq in Hz.
  destruct (assert_segments indices chunk_lengths 0 0%Z) as [s'|e] eqn:Hseg;
    cbn [rbind]; cycle 1.
  { split; [done|]. intros [_ Hall].
    assert (Hok : assert_segments indices chunk_lengths 0 0%Z
                  = Ok (default 0%Z (last indices))).
    { apply assert_segments_spec. split; [|done]. intros j idx Hj.
      destruct (Hall j idx Hj) as (len & Hl & Hpos & ->).
      exists len. rewrite drop_0. cbn [Nat.add]. split; [done|]. split; lia. }
    congruence. }
  apply assert_segments_spec in Hseg as [Hall ->].
  assert (Hall' : forall j idx, indices !! j = Some idx ->
            exists len, chunk_lengths !! j = Some len /\ (0 <= len)%Z /\
              idx = sum_Z (take (S j) chunk_lengths)).
  { intros j idx Hj. destruct (Hall j idx Hj) as (len & Hl & Hpos & ->).
    exists len. rewrite drop_0 in *. cbn [Nat.add] in Hl.
    split; [done|]. split; lia. }
  split; [by intros _|]. intros _.
  assert (H2 : (2 <=? length chunk_lengths) = true) by (apply Nat.leb_le; lia).
  rewrite H2. cbn [negb].
  destruct (last indices) as [last_index|] eqn:Hlast; cycle 1.
  { apply last_None in Hlast. subst indices. done. }
  cbn [default]. rewrite Z.eqb_refl. cbn [negb].
  rewrite last_lookup in Hlast.
  destruct (Hall' _ _ Hlast) as (len & _ & _ & ->).
  replace (S (Nat.pred (length indices))) with (length chunk_lengths - 1) by lia.
  by rewrite Z.eqb_refl.
Qed.

(** ** What lookup finds as the backend grows *)

Lemma take_hits_mono (b b' : StorageBackend) (keys : list CacheEngineKey) :
  (forall key, contains b key = true -> contains b' key = true) ->
  length (take_hits (batched_get b keys)) <= length (take_hits (batched_get b' keys)).
Proof.
  intros Hsub. unfold batched_get.
  induction keys as [|key keys IH]; [done|]. cbn [map take_hits].
  destruct (kv_store b !! key) as [blob|] eqn:Hk; [|cbn; lia].
  apply contains_true, Hsub in Hk. unfold contains in Hk.
  apply bool_decide_eq_true in Hk as [blob' ->]. cbn [length]. lia.
Qed.

Section LookupGrows.
Context {sha : Sha256}.

Lemma retrieve_keeps_backend (self : LMCacheEngine) (tokens : list Z)
    (mask : option (list bool)) (return_tuple : bool) :
  engine_ (retrieve tokens mask return_tuple self).2 = engine_ self /\
  metadata (retrieve tokens mask return_tuple self).2 = metadata self /\
  chunk_size (retrieve tokens mask return_tuple self).2 = chunk_size self.
Proof.
  unfold retrieve, bind, get_self, ret, raise, lift, modify. cbv zeta.
  repeat case_match; cbn [fst snd] in *; simplify_eq; done.
Qed.

(** X16.  Calls of [store] only add to what [lookup] finds, and calls
    of [retrieve] leave it as it is: for every token sequence, [lookup]
    after a [store], whatever its arguments and whether it raised or
    not, answers at least what it answered before, and after a
    [retrieve] exactly what it answered before. *)
Theorem lookup_grows_with_store (self : LMCacheEngine) (tokens : Tensor Z)
    (kv : KVCache) (kv_mask : option (Tensor bool)) (skip_existing blocking : bool)
    (mask : option (list bool)) (return_tuple : bool) (tokens' : list Z) :
  lookup self tokens' <=
  lookup (store tokens kv kv_mask skip_existing blocking self).2 tokens' /\
  lookup (retrieve (tdata tokens) mask return_tuple self).2 tokens'
  = lookup self tokens'.
Proof.
  split.
  - destruct (store_outcome self tokens kv kv_mask skip_existing blocking)
      as [[e ->] | [chunks ->]]; cbn [snd]; [done|].
    rewrite !lookup_formula.
    change (chunk_keys (stored self chunks blocking) tokens' 0)
      with (chunk_keys self tokens' 0).
    change (chunk_size (stored self chunks blocking)) with (chunk_size self).
    pose proof (take_hits_mono (engine_ self) (engine_ (stored self chunks blocking))
                  (chunk_keys self tokens' 0)) as Hmono.
    assert (Hle : length (take_hits (batched_get (engine_ self)
                                       (chunk_keys self tokens' 0))) <=
                  length (take_hits (batched_get (engine_ (stored self chunks blocking))
                                       (chunk_keys self tokens' 0)))).
    { apply Hmono. intros key. unfold stored. cbn [engine_ add_log set_backend].
      apply batched_put_keeps. }
    nia.
  - destruct (retrieve_keeps_backend self (tdata tokens) mask return_tuple)
      as (Hb & Hm & Hc).
    unfold lookup, _chunk_tokens. cbv zeta. rewrite Hm, Hc.
    apply lookup_loop_ext; [done|done|]. intros key. by rewrite Hb.
Qed.

End LookupGrows.

(** ** Shapes the conversions accept *)

Lemma stack_result {A} (ts : list (Tensor A)) :
  match stack ts with
  | Ok t =>
      exists t0 rest, ts = t0 :: rest /\ Forall (fun u => shape u = shape t0) ts /\
        shape t = length ts :: shape t0
  | Raise e =>
      e = RuntimeError /\
      (ts = [] \/ exists t0 rest, ts = t0 :: rest /\
                    ~ Forall (fun u => shape u = shape t0) rest)
  end.
Proof.
  destruct ts as [|t0 rest]; cbn [stack]; [by split; [|left]|].
  destruct (forallb _ rest) eqn:Hall.
  - exists t0, rest. split; [done|]. split; [|done]. constructor; [done|].
    apply Forall_forall. intros u Hu.
    rewrite forallb_forall in Hall. apply list_elem_of_In in Hu.
    specialize (Hall u Hu). by apply bool_decide_eq_true in Hall.
  - split; [done|]. right. exists t0, rest. split; [done|]. intros HF.
    assert (forallb (fun u => bool_decide (shape u = shape t0)) rest = true);
      [|congruence].
    apply forallb_forall. intros u Hu. apply bool_decide_eq_true.
    rewrite Forall_forall in HF. apply HF. by apply list_elem_of_In.
Qed.

Section Conversions.
Context {sha : Sha256}.

(** X17.  [_tuple_kv_to_blob] succeeds exactly on a nested KV cache
    with at least one layer whose key tensors and value tensors all
    have one and the same shape of three axes; the blob then has the
    shape [layers, 2] followed by that shape.  On every other input it
    raises [RuntimeError]. *)
Theorem tuple_kv_to_blob_succeeds_iff (kv : KVCache) :
  match _tuple_kv_to_blob kv with
  | Ok blob =>
      kv <> [] /\
      exists sh, length sh = 3 /\
        Forall (fun layer => shape layer.1 = sh /\ shape layer.2 = sh) kv /\
        shape blob = length kv :: 2 :: sh
  | Raise e =>
      e = RuntimeError /\
      (kv = [] \/
       ~ exists sh, length sh = 3 /\
           Forall (fun layer => shape layer.1 = sh /\ shape layer.2 = sh) kv)
  end.
Proof.
  unfold _tuple_kv_to_blob.
  pose proof (stack_result (map fst kv)) as Hk.
  destruct (stack (map fst kv)) as [kb|e]; cbn [rbind]; cycle 1.
  { destruct Hk as [-> [Hnil | (t0 & rest & Heq & Hbad)]]; split; try done.
    - left. by destruct kv.
    - right. intros (sh & _ & Hall). apply Hbad.
      destruct kv as [|[k0 v0] kv']; [done|]. cbn [map fst] in Heq.
      injection Heq as <- <-. apply Forall_cons in Hall as [[Hk0 _] Hall].
      apply Forall_fmap. eapply Forall_impl; [exact Hall|].
      intros [k v] [Hks _]. cbn in *. congruence. }
  destruct Hk as (k0 & krest & Hkeq & Hkall & Hkb).
  pose proof (stack_result (map snd kv)) as Hv.
  destruct (stack (map snd kv)) as [vb|e]; cbn [rbind]; cycle 1.
  { destruct Hv as [-> [Hnil | (t0 & rest & Heq & Hbad)]]; split; try done.
    - left. by destruct kv.
    - right. intros (sh & _ & Hall). apply Hbad.
      destruct kv as [|[k0' v0] kv']; [done|]. cbn [map snd] in Heq.
      injection Heq as <- <-. apply Forall_cons in Hall as [[_ Hv0] Hall].
      apply Forall_fmap. eapply Forall_impl; [exact Hall|].
      intros [k v] [_ Hvs]. cbn in *. congruence. }
  destruct Hv as (v0 & vrest & Hveq & Hvall & Hvb).
  rewrite length_map in Hkb, Hvb.
  assert (Hne : kv <> []) by (by destruct kv).
  assert (Hfst : Forall (fun layer : Tensor Z * Tensor Z => shape layer.1 = shape k0) kv).
  { by apply Forall_fmap in Hkall. }
  assert (Hsnd : Forall (fun layer : Tensor Z * Tensor Z => shape layer.2 = shape v0) kv).
  { by apply Forall_fmap in Hvall. }
  assert (Hsame : forall sh,
            Forall (fun layer : Tensor Z * Tensor Z =>
                      shape layer.1 = sh /\ shape layer.2 = sh) kv ->
            shape k0 = sh /\ shape v0 = sh).
  { intros sh Hall. destruct kv as [|[k v] kv']; [done|].
    apply Forall_cons in Hall as [[Hks Hvs] _].
    apply Forall_cons in Hfst as [Hk0 _]. apply Forall_cons in Hsnd as [Hv0 _].
    cbn in *. split; congruence. }
  unfold stack. cbn [forallb].
  destruct (decide (shape vb = shape kb)) as [Heq|Hneq]; cycle 1.
  { rewrite bool_decide_eq_false_2 by done. cbn [andb rbind].
    split; [done|]. right. intros (sh & _ & Hall).
    destruct (Hsame sh Hall) as [Hks Hvs]. apply Hneq. congruence. }
  rewrite bool_decide_eq_true_2 by done. cbn [andb rbind length].
  unfold permute_10234. cbn [shape]. rewrite Hkb.
  assert (Hkv0 : shape v0 = shape k0) by congruence.
  destruct (shape k0) as [|a [|b [|c [|d ?]]]] eqn:Hs.
  1-3, 5: split; [done|]; right; intros (sh & Hlen & Hall);
    destruct (Hsame sh Hall) as [<- _]; discriminate Hlen.
  split; [done|]. exists [a; b; c]. split; [done|]. split; [|done].
  apply Forall_forall. intros layer Hl.
  rewrite Forall_forall in Hfst, Hsnd. rewrite (Hfst layer Hl), (Hsnd layer Hl).
  by rewrite Hkv0.
Qed.

(** X18.  [_blob_to_tuple_kv] succeeds exactly on a blob with at least
    one axis that either has no layer, which gives the empty tuple, or
    has a second axis of size two or more; it then returns one pair per
    layer, whose tensors have the shape of the blob without its first
    two axes.  Every other blob raises [IndexError]: a blob without
    axes, and a blob with layers that has no second axis or a second
    axis of size below two. *)
Theorem blob_to_tuple_kv_succeeds_iff (blob : Tensor Z) :
  match _blob_to_tuple_kv blob with
  | Ok kv =>
      exists L rest, shape blob = L :: rest /\ length kv = L /\
        (L = 0 \/ exists m sh, rest = m :: sh /\ 2 <= m /\
           Forall (fun layer => shape layer.1 = sh /\ shape layer.2 = sh) kv)
  | Raise e =>
      e = IndexError /\
      (shape blob = [] \/
       exists L rest, shape blob = S L :: rest /\
         (rest = [] \/ exists m sh, rest = m :: sh /\ m < 2))
  end.
Proof.
  unfold _blob_to_tuple_kv, unbind0.
  destruct (shape blob) as [|L rest] eqn:Hs; cbn [rbind]; [split; [done|by left]|].
  destruct rest as [|m sh].
  - destruct L as [|L]; cbn [seq map mapM rbind index0 shape].
    { exists 0, []. split; [done|]. split; [done|]. by left. }
    split; [done|]. right. exists L, []. split; [done|]. by left.
  - destruct (decide (2 <= m)) as [Hm|Hm].
    + rewrite (mapM_ok _ (fun inner =>
                 (mkTensor sh (block (prod_list sh) 0 (tdata inner)),
                  mkTensor sh (block (prod_list sh) 1 (tdata inner))))).
      * exists L, (m :: sh). split; [done|].
        split; [by rewrite !length_map, length_seq|]. right.
        exists m, sh. split; [done|]. split; [done|].
        apply Forall_fmap, Forall_fmap, Forall_forall. by intros i _.
      * apply Forall_fmap, Forall_forall. intros i _.
        by destruct m as [|[|m']]; [lia|lia|].
    + destruct L as [|L]; cbn [seq map mapM rbind].
      { exists 0, (m :: sh). split; [done|]. split; [done|]. by left. }
      unfold index0 at 1 2. cbn [shape].
      destruct m as [|[|m]]; [| |lia]; cbn [Nat.ltb Nat.leb rbind].
      * split; [done|]. right. exists L, (0 :: sh). split; [done|]. right.
        exists 0, sh. split; [done|lia].
      * split; [done|]. right. exists L, (1 :: sh). split; [done|]. right.
        exists 1, sh. split; [done|lia].
Qed.

End Conversions.

(** ** Instances *)

Lemma unknown_format_is_rejected_witness :
  ~ fmt_valid (fmt (metadata toy_paged_engine)) /\
  store (sha := toy_digest) toy_tokens (toy_kv [1; 2; 3; 4; 5]%Z) None true true
    toy_paged_engine
  = (Raise (ValueError "Invalid format: paged"), toy_paged_engine) /\
  retrieve (sha := toy_digest) (tdata toy_tokens) None true toy_paged_engine
  = (Raise (ValueError "Invalid format: paged"), toy_paged_engine).
Proof.
  assert (Hfmt : ~ fmt_valid (fmt (metadata toy_paged_engine))).
  { intros [H|H]; discriminate H. }
  split; [exact Hfmt|].
  destruct (unknown_format_is_rejected (sha := toy_digest) toy_paged_engine
              toy_tokens (toy_kv [1; 2; 3; 4; 5]%Z) None true true None true Hfmt)
    as [_ Hretrieve].
  split; [vm_compute; reflexivity|exact Hretrieve].
Defined.

Lemma engines_do_not_share_chunks_witness :
  engine_owner toy_engine <> engine_owner toy_other_engine /\
  lookup (sha := toy_digest)
    (set_backend toy_other_engine (engine_ toy_stored_engine)) [5; 6; 7; 8; 9]%Z = 0 /\
  lookup (sha := toy_digest) toy_stored_engine [5; 6; 7; 8; 9]%Z = 5.
Proof.
  assert (Hdiff : engine_owner toy_engine <> engine_owner toy_other_engine)
    by discriminate.
  assert (Hempty : forall key, contains (engine_ toy_engine) key = true ->
                     key_owner key <> engine_owner toy_other_engine).
  { intros key Hkey. unfold contains in Hkey.
    change (kv_store (engine_ toy_engine))
      with (∅ : gmap CacheEngineKey (Tensor Z)) in Hkey.
    rewrite lookup_empty in Hkey. apply bool_decide_eq_true in Hkey.
    by destruct Hkey. }
  split; [exact Hdiff|].
  destruct (engines_do_not_share_chunks (sha := toy_digest) toy_engine
              toy_other_engine toy_tokens (toy_kv [1; 2; 3; 4; 5]%Z) None true true
              Hdiff Hempty) as [_ Hnone].
  split; [exact (proj1 (Hnone [5; 6; 7; 8; 9]%Z None))|].
  vm_compute. reflexivity.
Defined.

Lemma cat_of_slice_kv_at_witness :
  tensor_wf toy_blob /\
  exists chunks,
    _chunk_kv toy_engine toy_blob "vllm" = Ok chunks /\
    length chunks = 3 /\
    cat chunks 2 = Ok toy_blob.
Proof.
  assert (Hwf : tensor_wf toy_blob) by reflexivity.
  split; [exact Hwf|].
  destruct (cat_of_slice_kv_at toy_engine 0 toy_blob "vllm"
              (or_introl eq_refl) Hwf eq_refl)
    as (chunks & _ & _ & Hlen & _ & Hall).
  exists chunks. destruct (Hall eq_refl) as [Hchunk Hcat].
  split; [exact Hchunk|]. split; [exact Hlen|exact Hcat].
Defined.

Lemma retrieve_after_store_witness :
  store_preconditions toy_engine toy_tokens (toy_kv [1; 2; 3; 4; 5]%Z) None
    [5; 1; 1] /\
  NoDup (_prefix_hash (sha := toy_digest) (_chunk_tokens toy_engine (tdata toy_tokens)) 0) /\
  (retrieve (sha := toy_digest) [5; 6; 7; 8; 9]%Z None true toy_stored_engine).1
  = Ok (RetTuple (toy_kv [1; 2; 3; 4; 5]%Z), [true; true; true; true; true]).
Proof.
  assert (Hpos : 0 < prod_list [5; 1; 1]) by (vm_compute; lia).
  assert (Hnodup : NoDup (_prefix_hash (sha := toy_digest)
                            (_chunk_tokens toy_engine (tdata toy_tokens)) 0)).
  { apply (bool_decide_unpack _). vm_compute. exact I. }
  split; [exact toy_store_preconditions|]. split; [exact Hnodup|].
  destruct (retrieve_after_store (sha := toy_digest) toy_engine toy_tokens
              (toy_kv [1; 2; 3; 4; 5]%Z) [5; 1; 1] true
              toy_store_preconditions Hpos Hnodup (or_intror eq_refl))
    as (Htuple & _ & _).
  exact Htuple.
Defined.

Lemma toy_store_preconditions4 :
  store_preconditions toy_engine toy_tokens4 (toy_kv [1; 2; 3; 4]%Z) None [4; 1; 1].
Proof.
  unfold store_preconditions. repeat split; try done.
  - by left.
  - by repeat constructor.
Qed.

Lemma retrieve_extension_after_store_witness :
  store_preconditions toy_engine toy_tokens4 (toy_kv [1; 2; 3; 4]%Z) None [4; 1; 1] /\
  (retrieve (sha := toy_digest) [5; 6; 7; 8; 9]%Z None true
     (store (sha := toy_digest) toy_tokens4 (toy_kv [1; 2; 3; 4]%Z) None true true
        toy_engine).2).1
  = Ok (RetTuple (toy_kv [1; 2; 3; 4]%Z), [true; true; true; true; false]).
Proof.
  assert (Hpos : 0 < prod_list [4; 1; 1]) by (vm_compute; lia).
  assert (Hdiv : Nat.divide (Pos.to_nat (chunk_size toy_engine))
                   (length (tdata toy_tokens4))) by (by exists 2).
  assert (Hnodup : NoDup (_prefix_hash (sha := toy_digest)
                            (_chunk_tokens toy_engine (tdata toy_tokens4 ++ [9]%Z)) 0)).
  { apply (bool_decide_unpack _). vm_compute. exact I. }
  assert (Hfresh : Forall (fun key => contains (engine_ toy_engine) key = false)
                     (chunk_keys (sha := toy_digest) toy_engine
                        (tdata toy_tokens4 ++ [9]%Z) 0)).
  { apply Forall_forall. intros key _. apply contains_false.
    change (kv_store (engine_ toy_engine)) with (∅ : gmap CacheEngineKey (Tensor Z)).
    apply lookup_empty. }
  split; [exact toy_store_preconditions4|].
  destruct (retrieve_extension_after_store (sha := toy_digest) toy_engine toy_tokens4
              (toy_kv [1; 2; 3; 4]%Z) [4; 1; 1] true [9]%Z
              toy_store_preconditions4 Hpos Hdiv Hnodup Hfresh) as (Hret & _ & _).
  exact Hret.
Defined.

Lemma toy_first_chunk_engine_preconditions :
  store_preconditions toy_first_chunk_engine toy_tokens (toy_kv [3; 4; 5]%Z)
    (Some (tensor1d [false; false; true; true; true])) [3; 1; 1].
Proof.
  unfold store_preconditions. repeat split; try done.
  - by left.
  - by repeat constructor.
Qed.

Lemma masked_store_completes_prefix_witness :
  store_preconditions toy_first_chunk_engine toy_tokens (toy_kv [3; 4; 5]%Z)
    (Some (tensor1d [false; false; true; true; true])) [3; 1; 1] /\
  lookup (sha := toy_digest) toy_first_chunk_engine (tdata toy_tokens) = 2 /\
  lookup (sha := toy_digest)
    (store (sha := toy_digest) toy_tokens (toy_kv [3; 4; 5]%Z)
       (Some (tensor1d [false; false; true; true; true])) true true
       toy_first_chunk_engine).2 (tdata toy_tokens) = 5.
Proof.
  split; [exact toy_first_chunk_engine_preconditions|].
  split; [vm_compute; reflexivity|].
  assert (Hprefix :
    Forall (fun key => contains (engine_ toy_first_chunk_engine) key = true)
      (take (store_num_skip_tok toy_tokens
               (Some (tensor1d [false; false; true; true; true]))
             / Pos.to_nat (chunk_size toy_first_chunk_engine))
            (chunk_keys (sha := toy_digest) toy_first_chunk_engine
               (tdata toy_tokens) 0))).
  { vm_compute. repeat constructor. }
  exact (proj2 (masked_store_completes_prefix (sha := toy_digest)
                  toy_first_chunk_engine toy_tokens (toy_kv [3; 4; 5]%Z)
                  (Some (tensor1d [false; false; true; true; true])) [3; 1; 1]
                  toy_first_chunk_engine_preconditions Hprefix)).
Defined.

Lemma toy_builder_consistent : builder_consistent toy_builder.
Proof.
  assert (Hid : forall {V} (id : string) (v w : V),
            ({[ "engine" := v ]} : gmap string V) !! id = Some w ->
            id = "engine" /\ w = v).
  { intros V id v w H. apply lookup_singleton_Some in H as [<- <-]. done. }
  split; [split; [|split]|split].
  - intros id. cbn. destruct (decide (id = "engine")) as [->|Hne].
    + by rewrite !lookup_singleton_eq.
    + by rewrite !lookup_singleton_ne.
  - intros id. cbn. destruct (decide (id = "engine")) as [->|Hne].
    + by rewrite !lookup_singleton_eq.
    + by rewrite !lookup_singleton_ne.
  - intros id engine H. apply Hid in H as [-> ->]. cbn. lia.
  - intros id1 id2 engine H1 H2. apply Hid in H1 as [-> _].
    by apply Hid in H2 as [-> _].
  - intros id engine H. apply Hid in H as [-> ->].
    exists toy_engine. cbn. by rewrite !lookup_singleton_eq.
Qed.

Lemma registry_invariants_witness :
  builder_consistent toy_builder /\
  builder_consistent toy_builder_used /\
  get "other" toy_builder_used = None /\
  (get_or_create "other" toy_config toy_metadata toy_builder_used).1
  = Raise TypeError /\
  get "engine" toy_builder_used = Some 0.
Proof.
  set (cls' := toy_builder_used).
  destruct (registry_invariants (sha := toy_digest) toy_builder toy_builder_calls
              toy_builder_consistent) as (Hcons & Hfree & Hcalls).
  change (run_builder_calls toy_builder_calls toy_builder) with cls'
    in Hcons, Hfree, Hcalls.
  assert (Hother : get "other" cls' = None) by (by apply Hfree).
  split; [exact toy_builder_consistent|]. split; [exact Hcons|].
  split; [exact Hother|].
  destruct (Hcalls "other" toy_config toy_metadata) as (_ & _ & Hraise & _).
  split; [exact (Hraise Hother)|].
  destruct (Hcalls "engine" toy_config toy_metadata) as (_ & _ & _ & Hok).
  apply (Hok 0). vm_compute. reflexivity.
Defined.

Lemma registry_registered_id_and_destroy_witness :
  builder_wf toy_builder /\
  get_or_create "engine" toy_config toy_metadata toy_builder = (Ok 0, toy_builder) /\
  get "engine" (destroy "engine" toy_builder) = None.
Proof.
  assert (Hwf : builder_wf toy_builder) by exact (proj1 toy_builder_consistent).
  split; [exact Hwf|].
  destruct (registry_registered_id_and_destroy
              toy_builder "engine" toy_config toy_metadata Hwf)
    as (Hreg & _ & _ & Hdestroy & _).
  split.
  - apply (Hreg 0); [vm_compute; reflexivity|].
    split; vm_compute; reflexivity.
  - apply (Hdestroy 0). vm_compute; reflexivity.
Defined.
